(** * CODDash: the VM pool scheduler of [vm_manager.py]

    A shallow embedding of [VMPoolManager] (IP allocator, instance record
    store, provisioning pipeline, assignment engine, health and scaling
    passes) together with the properties of the pool that the design
    document states.

    Conventions of the embedding.
    - Python [int] is [Z]; [len(...)] is [Z.of_nat (size ...)].
    - [self.vm_pool : Dict[int, VMInfo]] is a [gmap Z VMInfo];
      [self.available_vms : Set[int]] is a [gset Z];
      [self.ip_pool : List[str]] is a [list string].
    - A [VMInfo] object is only ever stored under the key equal to its
      [id] field, so every object is referenced from one key and an
      in-place mutation of the object is an update of that entry.
    - Remote collaborators (Proxmox, Guacamole), the clock and the
      iteration order of the Python set are inputs of each operation.
    - The coroutines are modelled one call at a time (no interleaving at
      [await] points). *)

From stdpp Require Import gmap strings list fin_maps sorting.
From Stdlib Require Import ZArith DecimalString DecimalN DecimalPos Lia.

Open Scope Z_scope.

(** ** Printing integers and addresses *)

(** [str(n)] for a Python [int]. *)
Definition str_of_int (n : Z) : string :=
  if n <? 0 then ("-" +:+ NilZero.string_of_uint (N.to_uint (Z.to_N (- n))))%string
  else NilZero.string_of_uint (N.to_uint (Z.to_N n)).

(** [ipaddress.IPv4Address] is its 32-bit integer [_ip]. *)
Definition ALL_ONES : Z := 2 ^ 32 - 1.

Definition octet (a : Z) (i : Z) : Z := Z.land (Z.shiftr a (8 * i)) 255.

(** [str(IPv4Address(a))]: the dotted quad, most significant octet first. *)
Definition str_of_ipv4 (a : Z) : string :=
  (str_of_int (octet a 3) +:+ "." +:+ str_of_int (octet a 2) +:+ "." +:+
   str_of_int (octet a 1) +:+ "." +:+ str_of_int (octet a 0))%string.

(** [ipaddress.IPv4Network]: network address and prefix length. *)
Record IPv4Network := {
  network_address : Z;
  prefixlen : Z
}.

Definition netmask (n : IPv4Network) : Z :=
  Z.lxor ALL_ONES (Z.shiftr ALL_ONES (prefixlen n)).

(** [addr in network]: [addr & netmask == network_address]. *)
Definition in_network (a : Z) (n : IPv4Network) : bool :=
  Z.land a (netmask n) =? network_address n.

(** ** Configuration *)

(** The options of [config.json] the pool manager reads. [subnet] and
    [base_ip] hold the values [ipaddress.ip_network] and
    [ipaddress.ip_address] parse them to; [vm_ready_timeout] is the value
    of [config['monitoring'].get('vm_ready_timeout', 300)]. *)
Record Config := {
  template_vm_id : Z;
  subnet : IPv4Network;
  base_ip : Z;
  base_load : Z;
  users_per_vm : Z;
  max_vms : Z;
  vm_ready_timeout : Z
}.

(** ** IP allocator *)

Module IPAllocator.

(** The loop of [_initialize_ip_pool]: [fuel] iterations of
    [range(max_vms)] remain, [current_ip] is the candidate. [None] is the
    [AddressValueError] that [current_ip += 1] raises past
    255.255.255.255. *)
Fixpoint walk (network : IPv4Network) (fuel : nat) (current_ip : Z)
  : option (list string) :=
  match fuel with
  | O => Some []
  | S fuel' =>
      if in_network current_ip network then
        if ALL_ONES <? current_ip + 1 then None
        else
          match walk network fuel' (current_ip + 1) with
          | Some ips => Some (str_of_ipv4 current_ip :: ips)
          | None => None
          end
      else Some []
  end.

Definition _initialize_ip_pool (cfg : Config) : option (list string) :=
  walk (subnet cfg) (Z.to_nat (max_vms cfg)) (base_ip cfg).

(** [get_next_ip]: [self.ip_pool.pop(0)] when the list is not empty. *)
Definition get_next_ip (ip_pool : list string) : option string * list string :=
  match ip_pool with
  | ip :: rest => (Some ip, rest)
  | [] => (None, [])
  end.

(** [release_ip]: append unless already present. *)
Definition release_ip (ip : string) (ip_pool : list string) : list string :=
  if bool_decide (ip ∈ ip_pool) then ip_pool else ip_pool ++ [ip].

(** The addresses [base, base+1, ..., base+k-1]. *)
Fixpoint consecutive (base : Z) (k : nat) : list Z :=
  match k with
  | O => []
  | S k' => base :: consecutive (base + 1) k'
  end.

(** An allocator request, for sequences of them. *)
Inductive request :=
  | Acquire
  | Release (ip : string).

Definition serve (ip_pool : list string) (r : request) : list string :=
  match r with
  | Acquire => (get_next_ip ip_pool).2
  | Release ip => release_ip ip ip_pool
  end.

End IPAllocator.

Import IPAllocator.

(** ** Instance records and the store *)

Inductive VMStatus := CREATING | RUNNING | STOPPED | ERROR.

#[global] Instance VMStatus_eq_dec : EqDecision VMStatus.
Proof. solve_decision. Defined.

(** [time.time()] readings are only stored, never computed with. *)
Definition timestamp := Z.

Record VMInfo := {
  id : Z;
  name : string;
  ip : string;
  status : VMStatus;
  guacamole_connection_id : option string;
  created_at : option timestamp;
  user_count : Z;
  last_health_check : option timestamp
}.

Definition set_status (st : VMStatus) (v : VMInfo) : VMInfo :=
  {| id := id v; name := name v; ip := ip v; status := st;
     guacamole_connection_id := guacamole_connection_id v;
     created_at := created_at v; user_count := user_count v;
     last_health_check := last_health_check v |}.

Definition set_user_count (n : Z) (v : VMInfo) : VMInfo :=
  {| id := id v; name := name v; ip := ip v; status := status v;
     guacamole_connection_id := guacamole_connection_id v;
     created_at := created_at v; user_count := n;
     last_health_check := last_health_check v |}.

Definition set_guacamole_connection_id (c : option string) (v : VMInfo) : VMInfo :=
  {| id := id v; name := name v; ip := ip v; status := status v;
     guacamole_connection_id := c;
     created_at := created_at v; user_count := user_count v;
     last_health_check := last_health_check v |}.

Definition set_last_health_check (t : option timestamp) (v : VMInfo) : VMInfo :=
  {| id := id v; name := name v; ip := ip v; status := status v;
     guacamole_connection_id := guacamole_connection_id v;
     created_at := created_at v; user_count := user_count v;
     last_health_check := t |}.

(** The mutable fields of [VMPoolManager]. *)
Record Pool := {
  vm_pool : gmap Z VMInfo;
  available_vms : gset Z;
  next_vm_id : Z;
  ip_pool : list string
}.

Definition with_vm_pool (m : gmap Z VMInfo) (s : Pool) : Pool :=
  {| vm_pool := m; available_vms := available_vms s;
     next_vm_id := next_vm_id s; ip_pool := ip_pool s |}.

Definition with_available_vms (a : gset Z) (s : Pool) : Pool :=
  {| vm_pool := vm_pool s; available_vms := a;
     next_vm_id := next_vm_id s; ip_pool := ip_pool s |}.

Definition with_next_vm_id (n : Z) (s : Pool) : Pool :=
  {| vm_pool := vm_pool s; available_vms := available_vms s;
     next_vm_id := n; ip_pool := ip_pool s |}.

Definition with_ip_pool (l : list string) (s : Pool) : Pool :=
  {| vm_pool := vm_pool s; available_vms := available_vms s;
     next_vm_id := next_vm_id s; ip_pool := l |}.

(** [len(self.vm_pool)]. *)
Definition pool_len (s : Pool) : Z := Z.of_nat (size (vm_pool s)).

(** [VMPoolManager.__init__]; [None] when [_initialize_ip_pool] raises. *)
Definition init (cfg : Config) : option Pool :=
  match _initialize_ip_pool cfg with
  | Some ips =>
      Some {| vm_pool := ∅; available_vms := ∅; next_vm_id := 100; ip_pool := ips |}
  | None => None
  end.

(** ** Remote collaborators *)

(** What [await proxmox_manager.get_vm_status(vm_id)] gives: a dict whose
    ['status'] entry is read with [.get] ([None] when absent), or an
    exception (a test double may raise). *)
Inductive StatusReply :=
  | Status (st : option string)
  | StatusRaises.

(** [status.get('status') == 'running']. *)
Definition is_running (st : option string) : bool :=
  bool_decide (st = Some "running"%string).

Inductive CloneReply :=
  | Cloned (success : bool)
  | CloneRaises.

Inductive ConnectionReply :=
  | Connection (connection_id : option string)
  | ConnectionRaises.

(** Truthiness of an [Optional[str]]: [None] and the empty string are
    false. *)
Definition truthy (o : option string) : bool :=
  match o with
  | Some s => negb (bool_decide (s = ""%string))
  | None => false
  end.

(** Everything one run of [create_vm] observes from outside. *)
Record ProvisionEnv := {
  now : timestamp;
  clone_vm : CloneReply;
  ready_poll : nat -> StatusReply;
  create_connection : ConnectionReply
}.

(** ** Provisioning pipeline *)

(** The polling loop of [_wait_for_vm_ready]: [attempts] iterations
    remain, the next one is number [k]. [true] is a normal return,
    [false] the timeout exception. *)
Fixpoint poll_ready (poll : nat -> StatusReply) (attempts : nat) (k : nat) : bool :=
  match attempts with
  | O => false
  | S attempts' =>
      match poll k with
      | Status st => if is_running st then true else poll_ready poll attempts' (S k)
      | StatusRaises => poll_ready poll attempts' (S k)
      end
  end.

Definition _wait_for_vm_ready (cfg : Config) (poll : nat -> StatusReply) : bool :=
  poll_ready poll (Z.to_nat (vm_ready_timeout cfg / 5)) 0.

(** The body of the [try] block of [create_vm] after the record has been
    inserted: [Some connection_id] when every step succeeds, [None] when
    one of them raises. *)
Definition provision (cfg : Config) (env : ProvisionEnv) : option string :=
  match clone_vm env with
  | Cloned true =>
      if _wait_for_vm_ready cfg (ready_poll env) then
        match create_connection env with
        | Connection c => if truthy c then c else None
        | ConnectionRaises => None
        end
      else None
  | Cloned false => None
  | CloneRaises => None
  end.

Definition create_vm (cfg : Config) (env : ProvisionEnv) (s : Pool)
  : option VMInfo * Pool :=
  if max_vms cfg <=? pool_len s then (None, s)
  else
    let vm_id := next_vm_id s in
    let s := with_next_vm_id (vm_id + 1) s in
    let vm_name := ("dynamic-vm-" +:+ str_of_int vm_id)%string in
    let '(ip, ips) := get_next_ip (ip_pool s) in
    let s := with_ip_pool ips s in
    if truthy ip then
      let ip := default ""%string ip in
      let vm_info :=
        {| id := vm_id; name := vm_name; ip := ip; status := CREATING;
           guacamole_connection_id := None; created_at := Some (now env);
           user_count := 0; last_health_check := None |} in
      let s := with_vm_pool (<[vm_id := vm_info]> (vm_pool s)) s in
      match provision cfg env with
      | Some connection_id =>
          let vm_info :=
            set_status RUNNING
              (set_guacamole_connection_id (Some connection_id) vm_info) in
          let s := with_vm_pool (<[vm_id := vm_info]> (vm_pool s)) s in
          let s := with_available_vms ({[vm_id]} ∪ available_vms s) s in
          (Some vm_info, s)
      | None =>
          (* except: vm_info.status = ERROR; release_ip; del vm_pool[vm_id] *)
          let s := with_vm_pool (alter (set_status ERROR) vm_id (vm_pool s)) s in
          let s := with_ip_pool (release_ip ip (ip_pool s)) s in
          let s :=
            if bool_decide (vm_id ∈ dom (vm_pool s))
            then with_vm_pool (delete vm_id (vm_pool s)) s else s in
          (None, s)
      end
    else (None, s).

(** ** Assignment engine *)

(** [min_users]: [float('inf')] or the user count of the best record. *)
Inductive MinUsers :=
  | Inf
  | Fin (n : Z).

(** [user_count < min_users]. *)
Definition below (n : Z) (m : MinUsers) : bool :=
  match m with
  | Inf => true
  | Fin k => n <? k
  end.

(** The condition of the [if] inside the scan. *)
Definition better (cfg : Config) (vm_info : VMInfo) (m : MinUsers) : bool :=
  bool_decide (status vm_info = RUNNING)
  && below (user_count vm_info) m
  && (user_count vm_info <? users_per_vm cfg).

(** [for vm_id in self.available_vms: ...], over the ids in the order the
    set yields them. [inl vm_id] is the [KeyError] of
    [self.vm_pool[vm_id]]. *)
Fixpoint scan (cfg : Config) (pool : gmap Z VMInfo) (order : list Z)
    (best_vm : option VMInfo) (min_users : MinUsers) : Z + option VMInfo :=
  match order with
  | [] => inr best_vm
  | vm_id :: rest =>
      match pool !! vm_id with
      | None => inl vm_id
      | Some vm_info =>
          if better cfg vm_info min_users
          then scan cfg pool rest (Some vm_info) (Fin (user_count vm_info))
          else scan cfg pool rest best_vm min_users
      end
  end.

Inductive Outcome :=
  | Returns (r : option VMInfo) (s : Pool)
  | RaisesKeyError (vm_id : Z) (s : Pool).

Definition state_of (o : Outcome) : Pool :=
  match o with
  | Returns _ s => s
  | RaisesKeyError _ s => s
  end.

Definition result_of (o : Outcome) : option VMInfo :=
  match o with
  | Returns r _ => r
  | RaisesKeyError _ _ => None
  end.

(** The part of [assign_vm_to_user] after a record has been chosen. *)
Definition take_seat (cfg : Config) (best_vm : VMInfo) (s : Pool) : Outcome :=
  let best_vm := set_user_count (user_count best_vm + 1) best_vm in
  let s := with_vm_pool (<[id best_vm := best_vm]> (vm_pool s)) s in
  let s :=
    if users_per_vm cfg <=? user_count best_vm
    then with_available_vms (available_vms s ∖ {[id best_vm]}) s
    else s in
  Returns (Some best_vm) s.

(** [order] is the order in which [self.available_vms] is iterated. *)
Definition assign_vm_to_user (cfg : Config) (order : list Z)
    (env : ProvisionEnv) (s : Pool) : Outcome :=
  match scan cfg (vm_pool s) order None Inf with
  | inl vm_id => RaisesKeyError vm_id s
  | inr (Some best_vm) => take_seat cfg best_vm s
  | inr None =>
      match create_vm cfg env s with
      | (Some best_vm, s) => take_seat cfg best_vm s
      | (None, s) => Returns None s
      end
  end.

Definition release_vm_from_user (cfg : Config) (vm_id : Z) (s : Pool) : Pool :=
  match vm_pool s !! vm_id with
  | Some vm_info =>
      if 0 <? user_count vm_info then
        let vm_info := set_user_count (user_count vm_info - 1) vm_info in
        let s := with_vm_pool (<[vm_id := vm_info]> (vm_pool s)) s in
        if user_count vm_info <? users_per_vm cfg
        then with_available_vms ({[vm_id]} ∪ available_vms s) s
        else s
      else s
  | None => s
  end.

(** ** Health and scaling passes *)

Record HealthEnv := {
  get_vm_status : Z -> StatusReply;
  checked_at : Z -> timestamp
}.

(** What the body of the health loop does to the record it visits. *)
Definition health_record (reply : StatusReply) (t : timestamp) (vm_info : VMInfo)
  : VMInfo :=
  match reply with
  | Status st =>
      if is_running st
      then set_last_health_check (Some t) (set_status RUNNING vm_info)
      else set_status STOPPED vm_info
  | StatusRaises => vm_info
  end.

(** Whether the body discards the id from the available set. *)
Definition reported_down (reply : StatusReply) : bool :=
  match reply with
  | Status st => negb (is_running st)
  | StatusRaises => false
  end.

(** One iteration of the loop of [_check_vm_health]; [vm_info] is the
    object stored under [vm_id]. *)
Definition check_one (henv : HealthEnv) (s : Pool) (vm_id : Z) : Pool :=
  match get_vm_status henv vm_id with
  | Status st =>
      if negb (is_running st) then
        let s := with_vm_pool (alter (set_status STOPPED) vm_id (vm_pool s)) s in
        with_available_vms (available_vms s ∖ {[vm_id]}) s
      else
        let s := with_vm_pool (alter (set_status RUNNING) vm_id (vm_pool s)) s in
        with_vm_pool
          (alter (set_last_health_check (Some (checked_at henv vm_id))) vm_id
             (vm_pool s)) s
  | StatusRaises => s
  end.

(** [for vm_id, vm_info in list(self.vm_pool.items()): ...]. Every key is
    visited once and an iteration touches only its own key, so the order
    of the snapshot does not matter. *)
Definition _check_vm_health (henv : HealthEnv) (s : Pool) : Pool :=
  foldl (check_one henv) s (map_to_list (vm_pool s)).*1.

Definition _scale_pool_based_on_load (cfg : Config) (env : ProvisionEnv) (s : Pool)
  : Pool :=
  let available_capacity := Z.of_nat (size (available_vms s)) * users_per_vm cfg in
  if (available_capacity <? 2) && (pool_len s <? max_vms cfg)
  then (create_vm cfg env s).2
  else s.

(** ** Startup *)

Definition _register_existing_vm (reply : StatusReply) (t : timestamp)
    (vm_id : Z) (s : Pool) : Pool :=
  match reply with
  | Status st =>
      if is_running st then
        let vm_info :=
          {| id := vm_id;
             name := ("existing-vm-" +:+ str_of_int vm_id)%string;
             ip := ("192.168.1." +:+ str_of_int vm_id)%string;
             status := RUNNING;
             guacamole_connection_id := None;
             created_at := Some t;
             user_count := 0;
             last_health_check := None |} in
        let s := with_vm_pool (<[vm_id := vm_info]> (vm_pool s)) s in
        with_available_vms ({[vm_id]} ∪ available_vms s) s
      else s
  | StatusRaises => s
  end.

(** An entry of [proxmox_manager.list_vms()]. *)
Record ListedVM := {
  vmid : Z;
  listed_status : option string
}.

Inductive ListReply :=
  | Listed (vms : list ListedVM)
  | ListRaises.

Record StartupEnv := {
  list_vms : ListReply;
  status_at_startup : Z -> StatusReply;
  registered_at : Z -> timestamp;
  provisioning : nat -> ProvisionEnv
}.

(** The first loop of [ensure_base_load]. *)
Definition register_existing (cfg : Config) (senv : StartupEnv)
    (running_vms : list ListedVM) (s : Pool) : Pool :=
  foldl
    (fun s vm =>
       if bool_decide (vmid vm ≠ template_vm_id cfg)
       then _register_existing_vm (status_at_startup senv (vmid vm))
              (registered_at senv (vmid vm)) (vmid vm) s
       else s)
    s running_vms.

(** The second loop: [n] calls of [create_vm], the next one is number [i]. *)
Fixpoint create_missing (cfg : Config) (envs : nat -> ProvisionEnv)
    (n : nat) (i : nat) (s : Pool) : Pool :=
  match n with
  | O => s
  | S n' => create_missing cfg envs n' (S i) (create_vm cfg (envs i) s).2
  end.

Definition ensure_base_load (cfg : Config) (senv : StartupEnv) (s : Pool) : Pool :=
  match list_vms senv with
  | Listed current_vms =>
      let running_vms :=
        filter (fun vm => is_running (listed_status vm) = true) current_vms in
      let s := register_existing cfg senv running_vms s in
      create_missing cfg (provisioning senv)
        (Z.to_nat (base_load cfg - pool_len s)) 0 s
  | ListRaises => s
  end.

(** ** Operations and runs *)

Inductive Op :=
  | CreateVM (env : ProvisionEnv)
  | AssignVM (order : list Z) (env : ProvisionEnv)
  | ReleaseVM (vm_id : Z)
  | HealthPass (henv : HealthEnv)
  | ScalingPass (env : ProvisionEnv).

Definition step (cfg : Config) (s : Pool) (o : Op) : Pool :=
  match o with
  | CreateVM env => (create_vm cfg env s).2
  | AssignVM order env => state_of (assign_vm_to_user cfg order env s)
  | ReleaseVM vm_id => release_vm_from_user cfg vm_id s
  | HealthPass henv => _check_vm_health henv s
  | ScalingPass env => _scale_pool_based_on_load cfg env s
  end.

Definition run (cfg : Config) (ops : list Op) (s : Pool) : Pool :=
  foldl (step cfg) s ops.

(** ** Predicates on pool states *)

(** Every record sits under its own id. *)
Definition keyed (s : Pool) : Prop :=
  map_Forall (fun k v => id v = k) (vm_pool s).

(** [0 <= user_count <= users_per_vm] for every record. *)
Definition occupancy_bounded (cfg : Config) (s : Pool) : Prop :=
  map_Forall (fun _ v => 0 <= user_count v <= users_per_vm cfg) (vm_pool s).

(** Every stored id is below the id counter. *)
Definition fresh_ids (s : Pool) : Prop :=
  map_Forall (fun k _ => k < next_vm_id s) (vm_pool s).

(** A record that may take one more user. *)
Definition has_room (cfg : Config) (v : VMInfo) : Prop :=
  user_count v < users_per_vm cfg.

Definition eligible (cfg : Config) (v : VMInfo) : Prop :=
  status v = RUNNING /\ has_room cfg v.

(** Every available id names a stored record with room left. *)
Definition available_has_room (cfg : Config) (s : Pool) : Prop :=
  set_Forall
    (fun k => exists v, vm_pool s !! k = Some v /\ has_room cfg v)
    (available_vms s).

(** Every available id names a stored record that is [RUNNING] with room
    left. *)
Definition available_eligible (cfg : Config) (s : Pool) : Prop :=
  set_Forall
    (fun k => exists v, vm_pool s !! k = Some v /\ eligible cfg v)
    (available_vms s).

(** Every available id that names a stored record names a [RUNNING] one. *)
Definition available_running (s : Pool) : Prop :=
  set_Forall
    (fun k => forall v, vm_pool s !! k = Some v -> status v = RUNNING)
    (available_vms s).

(** [order] lists the available set, each id once. *)
Definition iterates (order : list Z) (s : Pool) : Prop :=
  order ≡ₚ elements (available_vms s).

Definition within_max (cfg : Config) (s : Pool) : Prop :=
  pool_len s <= max_vms cfg.

(** A free list given by the numeric addresses it holds, and the lowest
    of them. *)
Definition lowest_free (a : Z) (free : list Z) : Prop :=
  a ∈ free /\ forall b, b ∈ free -> a <= b.

(** Strictly ascending addresses. *)
Definition ascending (free : list Z) : Prop := StronglySorted Z.lt free.

(** The record [create_vm] inserts before the first remote call. *)
Definition creating_record (vm_id : Z) (ip : string) (t : timestamp) : VMInfo :=
  {| id := vm_id; name := ("dynamic-vm-" +:+ str_of_int vm_id)%string; ip := ip;
     status := CREATING; guacamole_connection_id := None;
     created_at := Some t; user_count := 0; last_health_check := None |}.

(** The record [create_vm] returns on success. *)
Definition running_record (vm_id : Z) (ip : string) (t : timestamp)
    (connection_id : string) : VMInfo :=
  set_status RUNNING
    (set_guacamole_connection_id (Some connection_id) (creating_record vm_id ip t)).

(** One of the steps after the insertion of the record fails: the clone
    call, the wait for readiness, or the creation of the display
    connection. *)
Definition provisioning_fails (cfg : Config) (env : ProvisionEnv) : Prop :=
  clone_vm env <> Cloned true
  \/ _wait_for_vm_ready cfg (ready_poll env) = false
  \/ (forall c, create_connection env = Connection c -> truthy c = false).

(** Every step succeeds and the gateway hands out [connection_id]. *)
Definition provisioning_succeeds (cfg : Config) (env : ProvisionEnv)
    (connection_id : string) : Prop :=
  clone_vm env = Cloned true
  /\ _wait_for_vm_ready cfg (ready_poll env) = true
  /\ create_connection env = Connection (Some connection_id)
  /\ connection_id <> ""%string.

(** The health pass seen from the record stored under [vm_id]. *)
Definition visit (henv : HealthEnv) (vm_id : Z) : VMInfo -> VMInfo :=
  health_record (get_vm_status henv vm_id) (checked_at henv vm_id).

(** The invariant of the store and of the available set that every
    operation keeps. *)
Definition pool_inv (cfg : Config) (s : Pool) : Prop :=
  keyed s /\ occupancy_bounded cfg s /\ fresh_ids s /\ available_has_room cfg s.

(** ** The scenario of the design document

    Subnet 10.0.0.0/24, base address 10.0.0.10, [max_vms = 3],
    [users_per_vm = 2], [base_load = 1]. *)

Definition scenario_cfg : Config :=
  {| template_vm_id := 9000;
     subnet := {| network_address := 167772160; prefixlen := 24 |};
     base_ip := 167772170;
     base_load := 1;
     users_per_vm := 2;
     max_vms := 3;
     vm_ready_timeout := 300 |}.

(** A provisioning run in which every remote call succeeds at once. *)
Definition all_ok (t : timestamp) (connection_id : string) : ProvisionEnv :=
  {| now := t;
     clone_vm := Cloned true;
     ready_poll := fun _ => Status (Some "running"%string);
     create_connection := Connection (Some connection_id) |}.

(** A provisioning run whose clone call fails. *)
Definition clone_fails (t : timestamp) : ProvisionEnv :=
  {| now := t;
     clone_vm := Cloned false;
     ready_poll := fun _ => Status (Some "running"%string);
     create_connection := Connection (Some "conn"%string) |}.

(** A node that lists only the stopped template. *)
Definition template_only (cfg : Config) (envs : nat -> ProvisionEnv) : StartupEnv :=
  {| list_vms :=
       Listed [ {| vmid := template_vm_id cfg; listed_status := Some "stopped"%string |} ];
     status_at_startup := fun _ => Status (Some "stopped"%string);
     registered_at := fun _ => 0;
     provisioning := envs |}.

(** The pool right after [__init__] in the scenario. *)
Definition scenario_init : Pool :=
  {| vm_pool := ∅; available_vms := ∅; next_vm_id := 100;
     ip_pool := ["10.0.0.10"; "10.0.0.11"; "10.0.0.12"]%string |}.

(** A health pass in which every status query reports a stopped VM. *)
Definition all_down (t : timestamp) : HealthEnv :=
  {| get_vm_status := fun _ => Status (Some "stopped"%string);
     checked_at := fun _ => t |}.

Definition is_release (o : Op) : bool :=
  match o with
  | ReleaseVM _ => true
  | _ => false
  end.

(** Whether [release_vm_from_user vm_id] puts [vm_id] into the available
    set: the record exists, holds a user, and has room once that user has
    left. The lifecycle state is not looked at. *)
Definition release_readds (cfg : Config) (vm_id : Z) (s : Pool) : bool :=
  match vm_pool s !! vm_id with
  | Some v => (0 <? user_count v) && (user_count v - 1 <? users_per_vm cfg)
  | None => false
  end.

(** A node on which four instances besides the template are already
    running. *)
Definition busy_node (cfg : Config) (envs : nat -> ProvisionEnv) : StartupEnv :=
  {| list_vms :=
       Listed [ {| vmid := template_vm_id cfg; listed_status := Some "stopped"%string |};
                {| vmid := 200; listed_status := Some "running"%string |};
                {| vmid := 201; listed_status := Some "running"%string |};
                {| vmid := 202; listed_status := Some "running"%string |};
                {| vmid := 203; listed_status := Some "running"%string |} ];
     status_at_startup := fun _ => Status (Some "running"%string);
     registered_at := fun _ => 0;
     provisioning := envs |}.

(** Keyed records, at most [max_vms] of them. *)
Definition sized (cfg : Config) (s : Pool) : Prop := keyed s /\ within_max cfg s.

(** Case analysis on a run of [create_vm]. *)
Inductive create_vm_path (cfg : Config) (env : ProvisionEnv) (s : Pool) : option VMInfo * Pool -> Prop :=
  | path_at_max :
      max_vms cfg <= pool_len s ->
      create_vm_path cfg env s (None, s)
  | path_no_ip ips :
      pool_len s < max_vms cfg ->
      ip_pool s = [] /\ ips = [] \/ ip_pool s = ""%string :: ips ->
      create_vm_path cfg env s
        (None, {| vm_pool := vm_pool s; available_vms := available_vms s;
                  next_vm_id := next_vm_id s + 1; ip_pool := ips |})
  | path_failed ip rest :
      pool_len s < max_vms cfg -> ip_pool s = ip :: rest -> ip <> ""%string ->
      provision cfg env = None ->
      create_vm_path cfg env s
        (None, {| vm_pool := delete (next_vm_id s) (vm_pool s);
                  available_vms := available_vms s;
                  next_vm_id := next_vm_id s + 1;
                  ip_pool := release_ip ip rest |})
  | path_created ip rest c :
      pool_len s < max_vms cfg -> ip_pool s = ip :: rest -> ip <> ""%string ->
      provision cfg env = Some c ->
      create_vm_path cfg env s
        (Some (running_record (next_vm_id s) ip (now env) c),
         {| vm_pool := <[next_vm_id s := running_record (next_vm_id s) ip (now env) c]>
                         (vm_pool s);
            available_vms := {[next_vm_id s]} ∪ available_vms s;
            next_vm_id := next_vm_id s + 1;
            ip_pool := rest |}).

(** A configuration whose subnet 10.0.0.0/30 leaves a single address,
    10.0.0.3, for a pool of up to three instances. *)
Definition narrow_cfg : Config :=
  {| template_vm_id := 9000;
     subnet := {| network_address := 167772160; prefixlen := 30 |};
     base_ip := 167772163;
     base_load := 1;
     users_per_vm := 2;
     max_vms := 3;
     vm_ready_timeout := 300 |}.

Definition narrow_init : Pool :=
  {| vm_pool := ∅; available_vms := ∅; next_vm_id := 100;
     ip_pool := ["10.0.0.3"]%string |}.

(** The value of [min_users] that goes with [best_vm] during the scan. *)
Definition min_of (best_vm : option VMInfo) : MinUsers :=
  match best_vm with
  | Some b => Fin (user_count b)
  | None => Inf
  end.

(** Three failed provisioning runs use up the ids 100 to 102; the next
    two runs succeed and leave the instances 103 and 104, both free. *)
Definition two_free_instances : Pool :=
  run scenario_cfg
    [CreateVM (clone_fails 1); CreateVM (clone_fails 2); CreateVM (clone_fails 3);
     CreateVM (all_ok 4 "conn-4"); CreateVM (all_ok 5 "conn-5")]
    scenario_init.

(** A health pass at time [t] in which only [down] is reported stopped. *)
Definition only_down (down : Z) (t : timestamp) : HealthEnv :=
  {| get_vm_status :=
       fun vm_id =>
         if bool_decide (vm_id = down)
         then Status (Some "stopped"%string) else Status (Some "running"%string);
     checked_at := fun _ => t |}.

(** The instances 100 and 101 of the scenario, with two users and one. *)
Definition two_instances : Pool :=
  run scenario_cfg
    [AssignVM [] (all_ok 1 "conn-1"); AssignVM [100] (all_ok 2 "conn-2");
     AssignVM [] (all_ok 3 "conn-3")]
    scenario_init.

(** The fields a health pass never writes. *)
Definition same_identity (v w : VMInfo) : Prop :=
  id v = id w /\ name v = name w /\ ip v = ip w
  /\ guacamole_connection_id v = guacamole_connection_id w
  /\ created_at v = created_at w
  /\ user_count v = user_count w.

(** [n] calls of [assign_vm_to_user] in a row, the next one being call
    number [i]; call [k] provisions, if it has to, against [envs k]. The
    available set is iterated in the order of [elements]. Returns the
    results of the calls and the final pool. *)
Fixpoint assign_users (cfg : Config) (envs : nat -> ProvisionEnv)
    (n : nat) (i : nat) (s : Pool) : list (option VMInfo) * Pool :=
  match n with
  | O => ([], s)
  | S n' =>
      let o := assign_vm_to_user cfg (elements (available_vms s)) (envs i) s in
      let '(results, s') := assign_users cfg envs n' (S i) (state_of o) in
      (result_of o :: results, s')
  end.

(** [sum(vm.user_count for vm in self.vm_pool.values())]. *)
Definition total_users (s : Pool) : Z :=
  map_fold (fun _ v acc => user_count v + acc) 0 (vm_pool s).

(** The pools the calls of [assign_users] start from. *)
Fixpoint pools_before (cfg : Config) (envs : nat -> ProvisionEnv)
    (n : nat) (i : nat) (s : Pool) : list Pool :=
  match n with
  | O => []
  | S n' =>
      let o := assign_vm_to_user cfg (elements (available_vms s)) (envs i) s in
      s :: pools_before cfg envs n' (S i) (state_of o)
  end.

(** Two provisioning environments that [create_vm] cannot tell apart. *)
Definition same_outcome (cfg : Config) (env env' : ProvisionEnv) : Prop :=
  now env = now env' /\ provision cfg env = provision cfg env'.

(** [envs] with the environment of call [k] replaced. *)
Definition override (envs : nat -> ProvisionEnv) (k : nat) (env : ProvisionEnv)
  : nat -> ProvisionEnv :=
  fun i => if Nat.eqb i k then env else envs i.

(** Every call provisions successfully: call [k] at time [k], with the
    connection id ["conn"]. *)
Definition always_ok : nat -> ProvisionEnv :=
  fun k => all_ok (Z.of_nat k) "conn".

(** The pool of the scenario once [ensure_base_load] has run. *)
Definition scenario_start : Pool :=
  ensure_base_load scenario_cfg (template_only scenario_cfg always_ok) scenario_init.

(** ** Pool status, the service facade and the monitoring loop *)

(** [VMStatus.value]. *)
Definition status_value (st : VMStatus) : string :=
  match st with
  | CREATING => "creating"
  | RUNNING => "running"
  | STOPPED => "stopped"
  | ERROR => "error"
  end.

(** The dict [VMInfo.to_dict] builds: the fields of the record, with
    the status as its string value. *)
Module VMDict.
Record t := {
  id : Z;
  name : string;
  ip : string;
  status : string;
  guacamole_connection_id : option string;
  created_at : option timestamp;
  user_count : Z;
  last_health_check : option timestamp
}.
End VMDict.

Definition to_dict (v : VMInfo) : VMDict.t :=
  {| VMDict.id := id v; VMDict.name := name v; VMDict.ip := ip v;
     VMDict.status := status_value (status v);
     VMDict.guacamole_connection_id := guacamole_connection_id v;
     VMDict.created_at := created_at v;
     VMDict.user_count := user_count v;
     VMDict.last_health_check := last_health_check v |}.

(** The dict [get_pool_status] returns. *)
Module PoolStatus.
Record t := {
  total_vms : Z;
  available_vms : Z;
  total_users : Z;
  vms : list VMDict.t
}.
End PoolStatus.

(** [get_pool_status]. The list [vms] follows the order of
    [map_to_list]; Python lists the records in insertion order. *)
Definition get_pool_status (s : Pool) : PoolStatus.t :=
  {| PoolStatus.total_vms := pool_len s;
     PoolStatus.available_vms := Z.of_nat (size (available_vms s));
     PoolStatus.total_users := total_users s;
     PoolStatus.vms := to_dict <$> (map_to_list (vm_pool s)).*2 |}.

(** The dict [DynamicVMService.assign_user_vm] returns. *)
Module Assignment.
Record t := {
  vm_id : Z;
  ip : string;
  guacamole_connection_id : option string;
  user_count : Z
}.
End Assignment.



(** What one iteration of [_monitoring_loop] observes from outside. *)
Record Tick := {
  health : HealthEnv;
  scaling : ProvisionEnv
}.

(** The body of the [try] of [_monitoring_loop]; [enable_health_checks]
    is the truth value of
    [config['monitoring'].get('enable_health_checks', True)]. *)
Definition monitoring_tick (cfg : Config) (enable_health_checks : bool)
    (s : Pool) (t : Tick) : Pool :=
  let s := if enable_health_checks then _check_vm_health (health t) s else s in
  _scale_pool_based_on_load cfg (scaling t) s.

(** [_monitoring_loop], for the iterations it runs before [is_running]
    is cleared. *)
Definition _monitoring_loop (cfg : Config) (enable_health_checks : bool)
    (ticks : list Tick) (s : Pool) : Pool :=
  foldl (monitoring_tick cfg enable_health_checks) s ticks.

(** [n] calls of [get_next_ip] in a row: the addresses handed out and
    the free list that is left. *)
Fixpoint acquire_many (n : nat) (free : list string)
  : list (option string) * list string :=
  match n with
  | O => ([], free)
  | S n' =>
      let '(ip, free) := get_next_ip free in
      let '(ips, free) := acquire_many n' free in
      (ip :: ips, free)
  end.

(** Every stored address is off the free list, and no two records share
    an address. *)
Definition addresses_ok (s : Pool) : Prop :=
  NoDup (ip_pool s)
  /\ map_Forall (fun _ v => ip v ∉ ip_pool s) (vm_pool s)
  /\ (forall k1 k2 v1 v2,
        vm_pool s !! k1 = Some v1 -> vm_pool s !! k2 = Some v2 ->
        ip v1 = ip v2 -> k1 = k2).

(** A string without the separator of a dotted quad (character 46). *)
Fixpoint no_dot (s : string) : bool :=
  match s with
  | EmptyString => true
  | String c rest => negb (Ascii.eqb c (Ascii.ascii_of_nat 46)) && no_dot rest
  end.

(** [sum(vm.user_count for vm in ...values())] over a store. *)
Definition users_in (m : gmap Z VMInfo) : Z :=
  map_fold (fun _ v acc => user_count v + acc) 0 m.

(** By how much an operation changes the number of assigned users: a
    served assignment adds one, a release of an instance that holds a
    user removes one. *)
Definition users_delta (cfg : Config) (s : Pool) (o : Op) : Z :=
  match o with
  | AssignVM order env =>
      match assign_vm_to_user cfg order env s with
      | Returns (Some _) _ => 1
      | _ => 0
      end
  | ReleaseVM vm_id =>
      match vm_pool s !! vm_id with
      | Some v => if 0 <? user_count v then -1 else 0
      | None => 0
      end
  | _ => 0
  end.

(** The iteration orders of a run are enumerations of the available
    set of the pool each assignment starts from. *)
Fixpoint orders_ok (cfg : Config) (ops : list Op) (s : Pool) : Prop :=
  match ops with
  | [] => True
  | o :: ops =>
      match o with
      | AssignVM order _ => iterates order s
      | _ => True
      end
      /\ orders_ok cfg ops (step cfg s o)
  end.

(** An idle instance that is tracked but not available. *)
Definition stranded (vm_id : Z) (s : Pool) : Prop :=
  (vm_id ∉ available_vms s)
  /\ exists v, vm_pool s !! vm_id = Some v /\ user_count v = 0.

(** ** Configuration validation *)

(** What [json.load] returns. A number keeps its literal; an object is
    the list of the items of the resulting dict (keys distinct). *)
#[warnings="-register-all"]
Inductive JSON :=
  | JNull
  | JBool (b : bool)
  | JNumber (literal : string)
  | JString (s : string)
  | JArray (items : list JSON)
  | JObject (fields : list (string * JSON)).

(** [needle in haystack] for two Python strings. *)
Fixpoint is_substring (needle haystack : string) : bool :=
  String.prefix needle haystack
  || match haystack with
     | EmptyString => false
     | String _ rest => is_substring needle rest
     end.

(** [key in container]; [None] is the [TypeError] Python raises for a
    container that is not iterable. *)
Definition py_in (key : string) (container : JSON) : option bool :=
  match container with
  | JObject fields => Some (bool_decide (key ∈ fields.*1))
  | JArray items =>
      Some (existsb (fun x => match x with
                              | JString s => String.eqb s key
                              | _ => false
                              end) items)
  | JString s => Some (is_substring key s)
  | JNull | JBool _ | JNumber _ => None
  end.

(** [d[key]] for a dict given by its items. *)
Fixpoint get_item (key : string) (fields : list (string * JSON)) : option JSON :=
  match fields with
  | [] => None
  | (k, v) :: rest => if String.eqb k key then Some v else get_item key rest
  end.

(** [container[key]] with a string key; [None] is the [TypeError] of a
    list or string indexed by a string (or the [KeyError] of a dict). *)
Definition py_getitem (key : string) (container : JSON) : option JSON :=
  match container with
  | JObject fields => get_item key fields
  | _ => None
  end.

Inductive Validation :=
  | Valid
  | Invalid (message : string)
  | ValidationTypeError.

(** One of the three loops of [_validate_config]. *)
Fixpoint require (message : string) (keys : list string) (container : JSON)
  : Validation :=
  match keys with
  | [] => Valid
  | key :: keys =>
      match py_in key container with
      | Some true => require message keys container
      | Some false => Invalid (message +:+ key)
      | None => ValidationTypeError
      end
  end.

Definition required_sections : list string :=
  ["proxmox"; "guacamole"; "vm"; "network"]%string.

Definition proxmox_req : list string :=
  ["host"; "username"; "password"; "node"; "template_vm_id"]%string.

Definition vm_req : list string :=
  ["base_load"; "users_per_vm"; "max_vms"]%string.

(** [ConfigManager._validate_config] on [self.config]. *)
Definition _validate_config (config : JSON) : Validation :=
  match require "Missing required configuration section: " required_sections config with
  | Valid =>
      match py_getitem "proxmox" config with
      | Some proxmox =>
          match require "Missing required Proxmox configuration: " proxmox_req proxmox with
          | Valid =>
              match py_getitem "vm" config with
              | Some vm => require "Missing required VM configuration: " vm_req vm
              | None => ValidationTypeError
              end
          | failure => failure
          end
      | None => ValidationTypeError
      end
  | failure => failure
  end.

(** [key] is the first of [keys] that [container] lacks. *)
Definition first_missing (key : string) (keys : list string) (container : JSON)
  : Prop :=
  exists before after,
    keys = before ++ key :: after
    /\ Forall (fun k => py_in k container = Some true) before
    /\ py_in key container = Some false.

(** Every available id that names a stored record names one with room
    left. *)
Definition available_room (cfg : Config) (s : Pool) : Prop :=
  set_Forall
    (fun k => forall v, vm_pool s !! k = Some v -> has_room cfg v)
    (available_vms s).

(** Every available id names a stored record. *)
Definition available_stored (s : Pool) : Prop :=
  set_Forall (fun k => is_Some (vm_pool s !! k)) (available_vms s).

(** A node that lists the stopped template and one running instance. *)
Definition node_with (cfg : Config) (vm_id : Z) (envs : nat -> ProvisionEnv)
  : StartupEnv :=
  {| list_vms :=
       Listed [ {| vmid := template_vm_id cfg; listed_status := Some "stopped"%string |};
                {| vmid := vm_id; listed_status := Some "running"%string |} ];
     status_at_startup := fun _ => Status (Some "running"%string);
     registered_at := fun _ => 0;
     provisioning := envs |}.

(** The scenario after a startup that found instance 100 running: the
    instance is registered and the id counter is still at 100. *)
Definition scenario_registered : Pool :=
  ensure_base_load scenario_cfg (node_with scenario_cfg 100 (fun _ => clone_fails 0))
    scenario_init.

(** A node on which instance 200 is listed as running and instance 203
    as stopped, while the status query of either reports it running. *)
Definition mixed_node (cfg : Config) (envs : nat -> ProvisionEnv) : StartupEnv :=
  {| list_vms :=
       Listed [ {| vmid := template_vm_id cfg; listed_status := Some "stopped"%string |};
                {| vmid := 203; listed_status := Some "stopped"%string |};
                {| vmid := 200; listed_status := Some "running"%string |} ];
     status_at_startup := fun _ => Status (Some "running"%string);
     registered_at := fun _ => 0;
     provisioning := envs |}.

(** * Properties *)

(** ** IP allocator *)

Section ip_allocator.

Lemma walk_length network fuel a ips :
  walk network fuel a = Some ips -> (length ips <= fuel)%nat.
Proof.
  revert a ips. induction fuel as [|fuel IH]; intros a ips; simpl.
  - intros [= <-]. simpl. lia.
  - destruct (in_network a network); [|intros [= <-]; simpl; lia].
    destruct (ALL_ONES <? a + 1); [done|].
    destruct (walk network fuel (a + 1)) as [ips'|] eqn:Hw; [|done].
    intros [= <-]. simpl. apply IH in Hw. lia.
Qed.

(** The walk yields the printed addresses [a, a+1, ...] for as long as
    they stay inside the network, at most [fuel] of them. *)
Lemma walk_consecutive network fuel a ips :
  walk network fuel a = Some ips ->
  exists k : nat,
    ips = str_of_ipv4 <$> consecutive a k
    /\ Forall (fun b => in_network b network = true) (consecutive a k)
    /\ (k = fuel \/ in_network (a + Z.of_nat k) network = false).
Proof.
  revert a ips. induction fuel as [|fuel IH]; intros a ips; simpl.
  - intros [= <-]. exists O. simpl. auto.
  - destruct (in_network a network) eqn:Hin.
    + destruct (ALL_ONES <? a + 1); [done|].
      destruct (walk network fuel (a + 1)) as [ips'|] eqn:Hw; [|done].
      intros [= <-]. destruct (IH _ _ Hw) as (k & -> & Hall & Hstop).
      exists (S k). split; [done|]. split; [by constructor|].
      destruct Hstop as [->|Hout]; [by left|right].
      by replace (a + Z.of_nat (S k)) with (a + 1 + Z.of_nat k) by lia.
    + intros [= <-]. exists O. simpl. split; [done|]. split; [constructor|].
      right. by rewrite Z.add_0_r.
Qed.

Lemma consecutive_bounds a k b :
  b ∈ consecutive a k -> a <= b < a + Z.of_nat k.
Proof.
  revert a. induction k as [|k IH]; intros a; simpl.
  - by intros ?%elem_of_nil.
  - intros [->|Hb%IH]%elem_of_cons; lia.
Qed.

Lemma consecutive_ascending a k : ascending (consecutive a k).
Proof.
  revert a. induction k as [|k IH]; intros a; simpl; constructor.
  - apply IH.
  - apply Forall_forall. intros b Hb%consecutive_bounds. lia.
Qed.

Lemma ascending_head_lowest a free : ascending (a :: free) -> lowest_free a (a :: free).
Proof.
  intros Hs. inversion Hs as [|? ? _ Hall]; subst. split; [left|].
  intros b [->|Hb]%elem_of_cons; [lia|].
  rewrite Forall_forall in Hall. specialize (Hall _ Hb). lia.
Qed.

Lemma get_next_ip_none free : (get_next_ip free).1 = None <-> free = [].
Proof. destruct free; simpl; split; congruence. Qed.

Lemma release_ip_present ip free : ip ∈ free -> release_ip ip free = free.
Proof. intros Hin. unfold release_ip. by rewrite bool_decide_eq_true_2. Qed.

Lemma release_ip_elem ip free : ip ∈ release_ip ip free.
Proof.
  unfold release_ip. case_bool_decide; [done|].
  apply elem_of_app. right. left.
Qed.

Lemma release_ip_NoDup ip free : NoDup free -> NoDup (release_ip ip free).
Proof.
  intros Hnd. unfold release_ip. case_bool_decide; [done|].
  apply NoDup_app. split; [done|]. split; [|apply NoDup_singleton].
  intros x Hx ->%list_elem_of_singleton. contradiction.
Qed.

Lemma get_next_ip_NoDup free : NoDup free -> NoDup (get_next_ip free).2.
Proof. destruct free; simpl; [done|]. by intros [_ ?]%NoDup_cons. Qed.

Lemma serve_NoDup free r : NoDup free -> NoDup (serve free r).
Proof. destruct r; simpl; auto using release_ip_NoDup, get_next_ip_NoDup. Qed.

Lemma serve_all_NoDup reqs free : NoDup free -> NoDup (foldl serve free reqs).
Proof.
  revert free. induction reqs as [|r reqs IH]; intros free Hnd; simpl; [done|].
  apply IH. by apply serve_NoDup.
Qed.

End ip_allocator.

(** C10. [release_ip] is idempotent: releasing an address that is already
    in the free list leaves the list as it is, a second release of the
    same address changes nothing, and a free list without duplicates
    stays without duplicates under every sequence of [get_next_ip] and
    [release_ip] calls. *)
Theorem release_ip_idempotent (ip : string) (free : list string) :
  (ip ∈ free -> release_ip ip free = free)
  /\ release_ip ip (release_ip ip free) = release_ip ip free
  /\ (NoDup free -> NoDup (release_ip ip (release_ip ip free)))
  /\ (NoDup free -> forall reqs, NoDup (foldl serve free reqs)).
Proof.
  split; [apply release_ip_present|].
  split; [apply release_ip_present, release_ip_elem|].
  split; [by intros; do 2 apply release_ip_NoDup|].
  intros Hnd reqs. by apply serve_all_NoDup.
Qed.

Lemma release_ip_idempotent_witness :
  release_ip "10.0.0.10" ["10.0.0.11"; "10.0.0.10"] = ["10.0.0.11"; "10.0.0.10"]%string
  /\ NoDup (release_ip "10.0.0.10" (release_ip "10.0.0.10" ["10.0.0.11"]))%string
  /\ NoDup (foldl serve ["10.0.0.11"]
              [Release "10.0.0.10"; Release "10.0.0.10"; Acquire; Release "10.0.0.11"])%string.
Proof.
  split.
  - destruct (release_ip_idempotent "10.0.0.10" ["10.0.0.11"; "10.0.0.10"]%string)
      as (Hpresent & _).
    apply Hpresent. by apply (bool_decide_unpack _).
  - destruct (release_ip_idempotent "10.0.0.10" ["10.0.0.11"]%string)
      as (_ & _ & Htwice & Hruns).
    split; [apply Htwice|apply Hruns]; by apply (bool_decide_unpack _).
Defined.

(** ** Provisioning pipeline *)

Section provisioning.

Context (cfg : Config).

Lemma provision_fails env : provisioning_fails cfg env -> provision cfg env = None.
Proof.
  unfold provisioning_fails, provision. intros [Hc|[Hw|Hg]].
  - destruct (clone_vm env) as [[]|]; congruence.
  - rewrite Hw. by destruct (clone_vm env) as [[]|].
  - destruct (clone_vm env) as [[]|]; [|done..].
    destruct (_wait_for_vm_ready _ _); [|done].
    destruct (create_connection env) as [c|]; [|done].
    by rewrite (Hg c eq_refl).
Qed.

Lemma provision_succeeds env c :
  provisioning_succeeds cfg env c -> provision cfg env = Some c.
Proof.
  unfold provisioning_succeeds, provision. intros (-> & -> & -> & Hc).
  simpl. by rewrite bool_decide_eq_false_2.
Qed.

Lemma provision_Some_nonempty env c : provision cfg env = Some c -> c <> ""%string.
Proof.
  unfold provision. destruct (clone_vm env) as [[]|]; [|done..].
  destruct (_wait_for_vm_ready _ _); [|done].
  destruct (create_connection env) as [[c'|]|]; [|done..].
  simpl. case_bool_decide; simpl; [done|]. congruence.
Qed.

(** The four ways through [create_vm]. *)
Lemma create_vm_at_max env s :
  max_vms cfg <= pool_len s -> create_vm cfg env s = (None, s).
Proof.
  intros Hfull. unfold create_vm.
  by rewrite (proj2 (Z.leb_le _ _) Hfull).
Qed.

Lemma create_vm_no_ip env s :
  pool_len s < max_vms cfg -> ip_pool s = [] ->
  create_vm cfg env s
  = (None, {| vm_pool := vm_pool s; available_vms := available_vms s;
              next_vm_id := next_vm_id s + 1; ip_pool := [] |}).
Proof.
  intros Hroom Hnil. unfold create_vm.
  rewrite (proj2 (Z.leb_gt _ _) Hroom). simpl. by rewrite Hnil.
Qed.

Lemma create_vm_empty_ip env s rest :
  pool_len s < max_vms cfg -> ip_pool s = ""%string :: rest ->
  create_vm cfg env s
  = (None, {| vm_pool := vm_pool s; available_vms := available_vms s;
              next_vm_id := next_vm_id s + 1; ip_pool := rest |}).
Proof.
  intros Hroom Hip. unfold create_vm.
  rewrite (proj2 (Z.leb_gt _ _) Hroom). simpl. by rewrite Hip.
Qed.

Lemma create_vm_failed env s ip rest :
  pool_len s < max_vms cfg -> ip_pool s = ip :: rest -> ip <> ""%string ->
  provision cfg env = None ->
  create_vm cfg env s
  = (None, {| vm_pool := delete (next_vm_id s) (vm_pool s);
              available_vms := available_vms s;
              next_vm_id := next_vm_id s + 1;
              ip_pool := release_ip ip rest |}).
Proof.
  intros Hroom Hip Hne Hprov. unfold create_vm.
  rewrite (proj2 (Z.leb_gt _ _) Hroom). simpl. rewrite Hip. simpl.
  rewrite (bool_decide_eq_false_2 _ Hne). simpl. rewrite Hprov.
  rewrite bool_decide_eq_true_2.
  - unfold with_vm_pool, with_ip_pool. simpl. f_equal. f_equal.
    apply map_eq. intros k. destruct (decide (k = next_vm_id s)) as [->|Hk].
    + by rewrite !lookup_delete_eq.
    + by rewrite !lookup_delete_ne, lookup_alter_ne, lookup_insert_ne.
  - simpl. apply elem_of_dom. rewrite lookup_alter_eq, lookup_insert_eq. by eexists.
Qed.

Lemma create_vm_created env s ip rest c :
  pool_len s < max_vms cfg -> ip_pool s = ip :: rest -> ip <> ""%string ->
  provision cfg env = Some c ->
  create_vm cfg env s
  = (Some (running_record (next_vm_id s) ip (now env) c),
     {| vm_pool := <[next_vm_id s := running_record (next_vm_id s) ip (now env) c]>
                     (vm_pool s);
        available_vms := {[next_vm_id s]} ∪ available_vms s;
        next_vm_id := next_vm_id s + 1;
        ip_pool := rest |}).
Proof.
  intros Hroom Hip Hne Hprov. unfold create_vm.
  rewrite (proj2 (Z.leb_gt _ _) Hroom). simpl. rewrite Hip. simpl.
  rewrite (bool_decide_eq_false_2 _ Hne). simpl. rewrite Hprov.
  unfold with_vm_pool, with_available_vms, running_record, creating_record. simpl.
  by rewrite insert_insert_eq.
Qed.

End provisioning.

(** ** Invariants of the store *)

Section invariants.

Context (cfg : Config).

Lemma create_vm_paths env s : create_vm_path cfg env s (create_vm cfg env s).
Proof.
  destruct (Z.le_gt_cases (max_vms cfg) (pool_len s)) as [Hfull|Hroom].
  { rewrite create_vm_at_max by done. by constructor. }
  destruct (ip_pool s) as [|ip rest] eqn:Hip.
  { rewrite create_vm_no_ip by done. constructor; auto. }
  destruct (decide (ip = ""%string)) as [->|Hne].
  { erewrite create_vm_empty_ip by done. constructor; auto. }
  destruct (provision cfg env) as [c|] eqn:Hprov.
  - erewrite create_vm_created by done. by econstructor.
  - erewrite create_vm_failed by done. by econstructor.
Qed.

Lemma create_vm_keyed env s : keyed s -> keyed (create_vm cfg env s).2.
Proof.
  unfold keyed. intros Hk. destruct (create_vm_paths env s); simpl; try done.
  - by apply map_Forall_delete.
  - by apply map_Forall_insert_2.
Qed.

Lemma create_vm_occupancy env s :
  0 <= users_per_vm cfg ->
  occupancy_bounded cfg s -> occupancy_bounded cfg (create_vm cfg env s).2.
Proof.
  unfold occupancy_bounded. intros Hupv Hb.
  destruct (create_vm_paths env s); simpl; try done.
  - by apply map_Forall_delete.
  - apply map_Forall_insert_2; [simpl; lia|done].
Qed.

Lemma create_vm_fresh env s : fresh_ids s -> fresh_ids (create_vm cfg env s).2.
Proof.
  unfold fresh_ids. intros Hf.
  assert (map_Forall (fun k (_ : VMInfo) => k < next_vm_id s + 1) (vm_pool s)) as Hf'.
  { intros k v Hkv. specialize (Hf k v Hkv). simpl in Hf. lia. }
  destruct (create_vm_paths env s); simpl; try done.
  - by apply map_Forall_delete.
  - apply map_Forall_insert_2; [lia|done].
Qed.

Lemma create_vm_within_max env s :
  within_max cfg s -> within_max cfg (create_vm cfg env s).2.
Proof.
  unfold within_max, pool_len. intros Hm.
  destruct (create_vm_paths env s) as [| | |ip rest c Hroom]; simpl; try done.
  - pose proof (map_size_delete (next_vm_id s) (vm_pool s)) as Hsz.
    destruct (vm_pool s !! next_vm_id s); unfold Datatypes.id in Hsz; simpl in Hsz; lia.
  - unfold pool_len in Hroom.
    pose proof (map_size_insert (next_vm_id s)
                  (running_record (next_vm_id s) ip (now env) c) (vm_pool s)) as Hsz.
    destruct (vm_pool s !! next_vm_id s); unfold Datatypes.id in Hsz; simpl in Hsz; lia.
Qed.

Lemma create_vm_available_running env s :
  available_running s -> available_running (create_vm cfg env s).2.
Proof.
  unfold available_running. intros Ha.
  destruct (create_vm_paths env s); simpl; try done.
  - intros k Hk v [_ Hv]%lookup_delete_Some. by apply (Ha k).
  - intros k Hk v. destruct (decide (k = next_vm_id s)) as [->|Hne].
    + rewrite lookup_insert_eq. by intros [= <-].
    + rewrite lookup_insert_ne by done. apply Ha.
      apply elem_of_union in Hk as [?%elem_of_singleton|?]; done.
Qed.


Lemma create_vm_result env s v :
  (create_vm cfg env s).1 = Some v ->
  vm_pool (create_vm cfg env s).2 !! id v = Some v
  /\ status v = RUNNING /\ user_count v = 0.
Proof.
  destruct (create_vm_paths env s); simpl; try done.
  intros [= <-]. simpl. by rewrite lookup_insert_eq.
Qed.

(** What the scan can return. *)
Lemma scan_result pool order best m b :
  scan cfg pool order best m = inr (Some b) ->
  best = Some b
  \/ exists k, k ∈ order /\ pool !! k = Some b /\ eligible cfg b.
Proof.
  revert best m. induction order as [|k order IH]; intros best m; simpl.
  - intros [= ->]. by left.
  - destruct (pool !! k) as [v|] eqn:Hv; [|done].
    destruct (better cfg v m) eqn:Hbetter; intros Hscan.
    + apply IH in Hscan as [[= <-]|(k' & ? & ? & ?)].
      * right. exists k. split; [left|]. split; [done|].
        unfold better in Hbetter.
        apply andb_prop in Hbetter as [[Hst%bool_decide_eq_true _]%andb_prop Hroom].
        split; [done|]. unfold has_room. lia.
      * right. exists k'. split; [by right|]. done.
    + apply IH in Hscan as [->|(k' & ? & ? & ?)]; [by left|].
      right. exists k'. split; [by right|]. done.
Qed.

Lemma scan_no_key_error pool order best m :
  (forall k, k ∈ order -> is_Some (pool !! k)) ->
  exists r, scan cfg pool order best m = inr r.
Proof.
  revert best m. induction order as [|k order IH]; intros best m Hall; simpl.
  - by eexists.
  - destruct (Hall k) as [v ->]; [left|].
    destruct (better cfg v m); apply IH; intros; apply Hall; by right.
Qed.

(** [take_seat] on a record [b] that sits under its own id with room
    left. *)
Section take_seat.

Context (b : VMInfo) (s : Pool).
Hypothesis Hstored : vm_pool s !! id b = Some b.

Lemma take_seat_keyed : keyed s -> keyed (state_of (take_seat cfg b s)).
Proof.
  unfold keyed, take_seat. intros Hk. simpl.
  destruct (users_per_vm cfg <=? user_count b + 1); simpl;
    by apply map_Forall_insert_2.
Qed.

Lemma take_seat_occupancy :
  has_room cfg b -> occupancy_bounded cfg s ->
  occupancy_bounded cfg (state_of (take_seat cfg b s)).
Proof.
  unfold occupancy_bounded, take_seat, has_room. intros Hroom Hb. simpl.
  pose proof (Hb _ _ Hstored) as Hb0. simpl in Hb0.
  destruct (users_per_vm cfg <=? user_count b + 1); simpl;
    (apply map_Forall_insert_2; [simpl; lia|done]).
Qed.

Lemma take_seat_fresh : fresh_ids s -> fresh_ids (state_of (take_seat cfg b s)).
Proof.
  unfold fresh_ids, take_seat. intros Hf. simpl.
  pose proof (Hf _ _ Hstored) as Hf0. simpl in Hf0.
  destruct (users_per_vm cfg <=? user_count b + 1); simpl;
    by apply map_Forall_insert_2.
Qed.

Lemma take_seat_size :
  size (vm_pool (state_of (take_seat cfg b s))) = size (vm_pool s).
Proof.
  unfold take_seat. simpl.
  pose proof (map_size_insert (id b) (set_user_count (user_count b + 1) b)
                (vm_pool s)) as Hsz.
  rewrite Hstored in Hsz.
  by destruct (users_per_vm cfg <=? user_count b + 1).
Qed.


Lemma take_seat_available_running :
  status b = RUNNING -> available_running s ->
  available_running (state_of (take_seat cfg b s)).
Proof.
  unfold available_running, take_seat. intros Hst Ha. simpl.
  assert (forall k v,
            k ∈ available_vms s ->
            <[id b := set_user_count (user_count b + 1) b]> (vm_pool s) !! k = Some v ->
            status v = RUNNING) as Hall.
  { intros k v Hk. destruct (decide (k = id b)) as [->|Hne].
    - rewrite lookup_insert_eq. by intros [= <-].
    - rewrite lookup_insert_ne by done. by apply Ha. }
  destruct (users_per_vm cfg <=? user_count b + 1); simpl; intros k Hk v.
  - apply elem_of_difference in Hk as [Hk _]. by apply Hall.
  - by apply Hall.
Qed.

End take_seat.

End invariants.

(** ** Health pass *)

Section health.

Context (henv : HealthEnv).

Lemma check_one_vm_pool s k :
  vm_pool (check_one henv s k) = alter (visit henv k) k (vm_pool s).
Proof.
  unfold check_one, visit, health_record.
  destruct (get_vm_status henv k) as [st|]; simpl.
  - destruct (is_running st); simpl; [|done].
    apply map_eq. intros j. destruct (decide (j = k)) as [->|Hne].
    + rewrite !lookup_alter_eq. by destruct (vm_pool s !! k).
    + by rewrite !lookup_alter_ne.
  - apply map_eq. intros j. destruct (decide (j = k)) as [->|Hne].
    + rewrite lookup_alter_eq. by destruct (vm_pool s !! k).
    + by rewrite lookup_alter_ne.
Qed.

Lemma check_one_available s k :
  available_vms (check_one henv s k)
  = if reported_down (get_vm_status henv k) then available_vms s ∖ {[k]} else available_vms s.
Proof.
  unfold check_one, reported_down.
  destruct (get_vm_status henv k) as [st|]; simpl; [|done].
  by destruct (is_running st).
Qed.

Lemma check_one_rest s k :
  next_vm_id (check_one henv s k) = next_vm_id s
  /\ ip_pool (check_one henv s k) = ip_pool s.
Proof.
  unfold check_one. destruct (get_vm_status henv k) as [st|]; simpl; [|done].
  by destruct (is_running st).
Qed.

Lemma check_all_vm_pool keys s k :
  NoDup keys ->
  vm_pool (foldl (check_one henv) s keys) !! k
  = if decide (k ∈ keys) then visit henv k <$> vm_pool s !! k else vm_pool s !! k.
Proof.
  revert s. induction keys as [|j keys IH]; intros s Hnd; cbn [foldl].
  - case_decide as Hin; [by apply elem_of_nil in Hin|done].
  - apply NoDup_cons in Hnd as [Hj Hnd]. rewrite IH by done.
    rewrite check_one_vm_pool. destruct (decide (k = j)) as [->|Hne].
    + rewrite (decide_False (P := j ∈ keys)) by done.
      rewrite (decide_True (P := j ∈ j :: keys)) by left.
      by rewrite lookup_alter_eq.
    + rewrite lookup_alter_ne by done.
      destruct (decide (k ∈ keys)) as [Hin|Hout].
      * by rewrite (decide_True (P := k ∈ j :: keys)) by (by right).
      * rewrite (decide_False (P := k ∈ j :: keys)); [done|].
        by intros [?|?]%elem_of_cons.
Qed.

Lemma check_all_available keys s k :
  k ∈ available_vms (foldl (check_one henv) s keys)
  <-> k ∈ available_vms s /\ ~ (k ∈ keys /\ reported_down (get_vm_status henv k) = true).
Proof.
  revert s. induction keys as [|j keys IH]; intros s; simpl.
  - split; [intros ?; split; [done|]; by intros [?%elem_of_nil _]|by intros [? _]].
  - rewrite IH, check_one_available. split.
    + intros [Hk Hnot]. destruct (reported_down (get_vm_status henv j)) eqn:Hdown.
      * apply elem_of_difference in Hk as [Hk Hne]. split; [done|].
        intros [[->|Hin]%elem_of_cons Hd]; [|by apply Hnot].
        apply Hne. by apply elem_of_singleton.
      * split; [done|]. intros [[->|Hin]%elem_of_cons Hd]; [congruence|].
        by apply Hnot.
    + intros [Hk Hnot]. split.
      * destruct (reported_down (get_vm_status henv j)) eqn:Hdown; [|done].
        apply elem_of_difference. split; [done|].
        intros ->%elem_of_singleton. apply Hnot. split; [left|done].
      * intros [Hin Hd]. apply Hnot. split; [by right|done].
Qed.

Lemma check_all_rest keys s :
  next_vm_id (foldl (check_one henv) s keys) = next_vm_id s
  /\ ip_pool (foldl (check_one henv) s keys) = ip_pool s.
Proof.
  revert s. induction keys as [|j keys IH]; intros s; simpl; [done|].
  destruct (IH (check_one henv s j)) as [-> ->]. apply check_one_rest.
Qed.

(** The health pass record by record. *)
Lemma check_vm_health_lookup s k :
  vm_pool (_check_vm_health henv s) !! k = visit henv k <$> vm_pool s !! k.
Proof.
  unfold _check_vm_health.
  rewrite check_all_vm_pool by apply NoDup_fst_map_to_list.
  case_decide as Hin; [done|].
  destruct (vm_pool s !! k) as [v|] eqn:Hv; [|done].
  exfalso. apply Hin. apply list_elem_of_fmap. exists (k, v).
  split; [done|]. by apply elem_of_map_to_list.
Qed.

Lemma check_vm_health_available s k :
  k ∈ available_vms (_check_vm_health henv s)
  <-> k ∈ available_vms s
      /\ ~ (is_Some (vm_pool s !! k) /\ reported_down (get_vm_status henv k) = true).
Proof.
  unfold _check_vm_health. rewrite check_all_available.
  assert (k ∈ (map_to_list (vm_pool s)).*1 <-> is_Some (vm_pool s !! k)) as ->.
  { rewrite list_elem_of_fmap. split.
    - intros ([k' v] & -> & Hin%elem_of_map_to_list). by eexists.
    - intros [v Hv]. exists (k, v). split; [done|]. by apply elem_of_map_to_list. }
  done.
Qed.

Lemma check_vm_health_rest s :
  next_vm_id (_check_vm_health henv s) = next_vm_id s
  /\ ip_pool (_check_vm_health henv s) = ip_pool s.
Proof. apply check_all_rest. Qed.

Lemma visit_fields k v :
  id (visit henv k v) = id v /\ name (visit henv k v) = name v /\ ip (visit henv k v) = ip v
  /\ guacamole_connection_id (visit henv k v) = guacamole_connection_id v
  /\ created_at (visit henv k v) = created_at v
  /\ user_count (visit henv k v) = user_count v.
Proof.
  unfold visit, health_record. destruct (get_vm_status henv k) as [st|]; [|done].
  by destruct (is_running st).
Qed.

Lemma check_vm_health_dom s :
  dom (vm_pool (_check_vm_health henv s)) = dom (vm_pool s).
Proof.
  apply set_eq. intros k. rewrite !elem_of_dom, check_vm_health_lookup.
  apply fmap_is_Some.
Qed.

Lemma check_vm_health_size s : pool_len (_check_vm_health henv s) = pool_len s.
Proof.
  unfold pool_len. f_equal.
  rewrite <- !(size_dom (D := gset Z)). by rewrite check_vm_health_dom.
Qed.

(** Any property of records that [visit] keeps is kept by the pass. *)
Lemma check_vm_health_map_Forall (P : Z -> VMInfo -> Prop) s :
  (forall k v, P k v -> P k (visit henv k v)) ->
  map_Forall P (vm_pool s) -> map_Forall P (vm_pool (_check_vm_health henv s)).
Proof.
  intros Hkeep Hall k v'. rewrite check_vm_health_lookup.
  destruct (vm_pool s !! k) as [v|] eqn:Hv; [|done].
  intros [= <-]. apply Hkeep. by apply Hall.
Qed.

End health.

(** ** Every operation keeps the invariant *)


Section operations.

Context (cfg : Config).
Hypothesis Hupv : 1 <= users_per_vm cfg.



(** A property kept by [create_vm] and by [take_seat] is kept by
    [assign_vm_to_user]. *)
Lemma assign_preserves (P : Pool -> Prop) order env s :
  keyed s ->
  (P s -> keyed (create_vm cfg env s).2 /\ P (create_vm cfg env s).2) ->
  (forall b s', vm_pool s' !! id b = Some b -> eligible cfg b -> keyed s' ->
                P s' -> P (state_of (take_seat cfg b s'))) ->
  P s -> P (state_of (assign_vm_to_user cfg order env s)).
Proof.
  intros Hk Hcreate Hseat HP. unfold assign_vm_to_user.
  destruct (scan cfg (vm_pool s) order None Inf) as [k|[b|]] eqn:Hscan; [done|..].
  - apply scan_result in Hscan as [[=]|(k & _ & Hkb & Hel)].
    apply Hseat; try done. by rewrite (Hk _ _ Hkb).
  - destruct (Hcreate HP) as [Hk' HP'].
    pose proof (create_vm_result cfg env s) as Hres.
    destruct (create_vm cfg env s) as [[v|] s1]; simpl in *; [|done].
    destruct (Hres v eq_refl) as (Hv & Hst & Hcount).
    apply Hseat; try done. split; [done|]. unfold has_room. lia.
Qed.







End operations.

(** ** Occupancy *)

Section occupancy.

Context (cfg : Config).
Hypothesis Hupv : 1 <= users_per_vm cfg.

Lemma step_keyed s o : keyed s -> keyed (step cfg s o).
Proof.
  intros Hk. destruct o as [env|order env|vm_id|henv|env]; simpl.
  - by apply create_vm_keyed.
  - apply (assign_preserves cfg Hupv keyed); try done.
    + intros _. split; by apply create_vm_keyed.
    + intros b s' Hstored _ _ Hk'. by apply take_seat_keyed.
  - unfold release_vm_from_user.
    destruct (vm_pool s !! vm_id) as [v|] eqn:Hv; [|done].
    destruct (0 <? user_count v); [|done]. simpl.
    pose proof (Hk _ _ Hv) as Hid. simpl in Hid.
    destruct (user_count v - 1 <? users_per_vm cfg); by apply map_Forall_insert_2.
  - apply check_vm_health_map_Forall; [|done].
    intros k v. by destruct (visit_fields henv k v) as (-> & _).
  - unfold _scale_pool_based_on_load.
    destruct (_ && _); [by apply create_vm_keyed|done].
Qed.

Lemma step_occupancy s o :
  keyed s -> occupancy_bounded cfg s -> occupancy_bounded cfg (step cfg s o).
Proof.
  intros Hk Hb. destruct o as [env|order env|vm_id|henv|env]; simpl.
  - apply create_vm_occupancy; [lia|done].
  - apply (assign_preserves cfg Hupv (occupancy_bounded cfg)); try done.
    + intros _. split; [by apply create_vm_keyed|].
      apply create_vm_occupancy; [lia|done].
    + intros b s' Hstored [_ Hroom] _ Hb'. by apply take_seat_occupancy.
  - unfold release_vm_from_user.
    destruct (vm_pool s !! vm_id) as [v|] eqn:Hv; [|done].
    destruct (0 <? user_count v) eqn:Hpos; [|done]. simpl.
    apply Z.ltb_lt in Hpos. pose proof (Hb _ _ Hv) as Hbv. simpl in Hbv.
    destruct (user_count v - 1 <? users_per_vm cfg);
      (apply map_Forall_insert_2; [simpl; lia|done]).
  - apply check_vm_health_map_Forall; [|done].
    intros k v. by destruct (visit_fields henv k v) as (_ & _ & _ & _ & _ & ->).
  - unfold _scale_pool_based_on_load.
    destruct (_ && _); [|done]. apply create_vm_occupancy; [lia|done].
Qed.

Lemma run_occupancy ops s :
  keyed s -> occupancy_bounded cfg s ->
  keyed (run cfg ops s) /\ occupancy_bounded cfg (run cfg ops s).
Proof.
  unfold run. revert s. induction ops as [|o ops IH]; intros s Hk Hb; simpl; [done|].
  apply IH; [by apply step_keyed|by apply step_occupancy].
Qed.

(** The record [assign_vm_to_user] returns is the one stored under its
    id. *)
Lemma assign_returns_stored order env s vm s1 :
  assign_vm_to_user cfg order env s = Returns (Some vm) s1 ->
  vm_pool s1 !! id vm = Some vm.
Proof.
  assert (forall b s', take_seat cfg b s' = Returns (Some vm) s1 ->
                       vm_pool s1 !! id vm = Some vm) as Hseat.
  { intros b s'. unfold take_seat. intros [= <- <-].
    destruct (users_per_vm cfg <=? _); simpl; apply lookup_insert_eq. }
  unfold assign_vm_to_user.
  destruct (scan cfg (vm_pool s) order None Inf) as [k|[b|]]; [done|by eauto|].
  destruct (create_vm cfg env s) as [[v|] s2]; [by eauto|done].
Qed.

(** Two releases of an instance that holds one user. *)
Lemma release_twice vm s :
  vm_pool s !! id vm = Some vm -> user_count vm = 1 ->
  vm_pool (release_vm_from_user cfg (id vm) (release_vm_from_user cfg (id vm) s))
    !! id vm = Some (set_user_count 0 vm).
Proof.
  intros Hvm Hone.
  assert (vm_pool (release_vm_from_user cfg (id vm) s) !! id vm
          = Some (set_user_count 0 vm)) as Hfirst.
  { unfold release_vm_from_user. rewrite Hvm.
    rewrite (proj2 (Z.ltb_lt 0 (user_count vm))) by lia.
    replace (user_count vm - 1) with 0 by lia.
    destruct (_ <? users_per_vm cfg); apply lookup_insert_eq. }
  unfold release_vm_from_user at 1. by rewrite Hfirst.
Qed.

End occupancy.

(** C1. With [users_per_vm >= 1], from a store whose records sit under
    their own ids with [0 <= user_count <= users_per_vm], every finite
    sequence of operations (calls of [assign_vm_to_user] and
    [release_vm_from_user] with any ids, and also [create_vm], health and
    scaling passes) leaves the user count of every stored record within
    [[0, users_per_vm]]; and when an assignment leaves an instance with
    one user, releasing that instance twice leaves its user count at 0. *)
Theorem occupancy_within_capacity (cfg : Config) (ops : list Op) (s : Pool) :
  1 <= users_per_vm cfg -> keyed s -> occupancy_bounded cfg s ->
  (forall vm_id v,
      vm_pool (run cfg ops s) !! vm_id = Some v ->
      0 <= user_count v <= users_per_vm cfg)
  /\ (forall order env vm s1,
        assign_vm_to_user cfg order env (run cfg ops s) = Returns (Some vm) s1 ->
        user_count vm = 1 ->
        exists v,
          vm_pool (release_vm_from_user cfg (id vm)
                     (release_vm_from_user cfg (id vm) s1)) !! id vm = Some v
          /\ user_count v = 0).
Proof.
  intros Hupv Hk Hb. split.
  - intros vm_id v Hv.
    destruct (run_occupancy cfg Hupv ops s Hk Hb) as [_ Hb'].
    by apply (Hb' vm_id v).
  - intros order env vm s1 Hassign Hone.
    apply assign_returns_stored in Hassign.
    exists (set_user_count 0 vm). split; [|done].
    by apply release_twice.
Qed.

Lemma occupancy_within_capacity_witness :
  let ops := [AssignVM [] (all_ok 1 "conn-1"); ReleaseVM 100; ReleaseVM 100;
              ReleaseVM 7; AssignVM [100] (all_ok 2 "conn-2")] in
  occupancy_bounded scenario_cfg scenario_init
  /\ occupancy_bounded scenario_cfg (run scenario_cfg ops scenario_init).
Proof.
  intros ops.
  assert (keyed scenario_init) as Hk
    by (apply (bool_decide_unpack _); vm_compute; exact I).
  assert (occupancy_bounded scenario_cfg scenario_init) as Hb
    by (apply (bool_decide_unpack _); vm_compute; exact I).
  split; [exact Hb|]. intros vm_id v Hv.
  apply (occupancy_within_capacity scenario_cfg ops scenario_init) with vm_id;
    [simpl; lia|exact Hk|exact Hb|exact Hv].
Defined.

(** ** The available set *)

Section available.

Context (cfg : Config).
Hypothesis Hupv : 1 <= users_per_vm cfg.

Lemma init_inv s : init cfg = Some s -> pool_inv cfg s.
Proof.
  unfold init. destruct (_initialize_ip_pool cfg); [|done]. intros [= <-].
  split; [|split; [|split]]; try apply map_Forall_empty.
  apply set_Forall_empty.
Qed.

Lemma health_available_running henv s :
  available_running s -> available_running (_check_vm_health henv s).
Proof.
  intros Ha k [Hk Hnot]%check_vm_health_available v'.
  rewrite check_vm_health_lookup.
  destruct (vm_pool s !! k) as [v|] eqn:Hv; [|done]. intros [= <-].
  pose proof (Ha k Hk v Hv) as Hst. simpl in Hst.
  unfold visit, health_record.
  destruct (get_vm_status henv k) as [st|] eqn:Hreply; [|done].
  destruct (is_running st) eqn:Hrun; [done|].
  exfalso. apply Hnot. split; [by eexists|].
  unfold reported_down. by rewrite Hrun.
Qed.

Lemma step_available_running s o :
  keyed s -> is_release o = false ->
  available_running s -> available_running (step cfg s o).
Proof.
  intros Hk Hnot Ha. destruct o as [env|order env|vm_id|henv|env]; simpl.
  - by apply create_vm_available_running.
  - apply (assign_preserves cfg Hupv available_running); try done.
    + intros _. split; [by apply create_vm_keyed|].
      by apply create_vm_available_running.
    + intros b s' Hstored [Hst _] _ Ha'. by apply take_seat_available_running.
  - done.
  - by apply health_available_running.
  - unfold _scale_pool_based_on_load.
    destruct (_ && _); [by apply create_vm_available_running|done].
Qed.

Lemma release_available vm_id s :
  available_vms (release_vm_from_user cfg vm_id s)
  = if release_readds cfg vm_id s
    then {[vm_id]} ∪ available_vms s else available_vms s.
Proof.
  unfold release_vm_from_user, release_readds.
  destruct (vm_pool s !! vm_id) as [v|]; [|done].
  destruct (0 <? user_count v); [|done]. simpl.
  by destruct (user_count v - 1 <? users_per_vm cfg).
Qed.

Lemma available_eligible_split s :
  available_has_room cfg s -> available_running s -> available_eligible cfg s.
Proof.
  intros Hroom Hrun k Hk. destruct (Hroom k Hk) as (v & Hv & Hr).
  exists v. split; [done|]. split; [by apply (Hrun k Hk)|done].
Qed.

Lemma available_has_room_split s :
  available_stored s -> available_room cfg s -> available_has_room cfg s.
Proof.
  intros Hst Hroom k Hk. destruct (Hst k Hk) as [v Hv].
  exists v. split; [done|]. by apply (Hroom k Hk).
Qed.

(** *** Room of the available records, on any pool *)

Lemma create_vm_available_room env s :
  available_room cfg s -> available_room cfg (create_vm cfg env s).2.
Proof.
  unfold available_room. intros Ha.
  destruct (create_vm_paths cfg env s); simpl; try done.
  - intros k Hk v [_ Hv]%lookup_delete_Some. by apply (Ha k).
  - intros k Hk v. destruct (decide (k = next_vm_id s)) as [->|Hne].
    + rewrite lookup_insert_eq. intros [= <-]. unfold has_room. simpl. lia.
    + rewrite lookup_insert_ne by done. apply Ha.
      apply elem_of_union in Hk as [?%elem_of_singleton|?]; done.
Qed.

Lemma take_seat_available_room b s :
  available_room cfg s -> available_room cfg (state_of (take_seat cfg b s)).
Proof.
  unfold available_room, take_seat. intros Ha. simpl.
  destruct (users_per_vm cfg <=? user_count b + 1) eqn:Hfull; simpl; intros k Hk v.
  - apply elem_of_difference in Hk as [Hk Hne].
    rewrite lookup_insert_ne; [by apply Ha|].
    intros Heq. apply Hne. by apply elem_of_singleton.
  - destruct (decide (k = id b)) as [->|Hne].
    + rewrite lookup_insert_eq. intros [= <-]. unfold has_room. simpl. lia.
    + rewrite lookup_insert_ne by done. by apply Ha.
Qed.

Lemma release_available_room vm_id s :
  available_room cfg s -> available_room cfg (release_vm_from_user cfg vm_id s).
Proof.
  unfold available_room, release_vm_from_user. intros Ha.
  destruct (vm_pool s !! vm_id) as [w|] eqn:Hw; [|done].
  destruct (0 <? user_count w); [|done]. simpl.
  destruct (user_count w - 1 <? users_per_vm cfg) eqn:Hroom; simpl; intros k Hk v.
  - destruct (decide (k = vm_id)) as [->|Hne].
    + rewrite lookup_insert_eq. intros [= <-]. unfold has_room. simpl. lia.
    + rewrite lookup_insert_ne by done. apply Ha.
      apply elem_of_union in Hk as [?%elem_of_singleton|?]; done.
  - destruct (decide (k = vm_id)) as [->|Hne].
    + rewrite lookup_insert_eq. intros [= <-].
      pose proof (Ha vm_id Hk w Hw) as Hhad. unfold has_room in *. simpl. lia.
    + rewrite lookup_insert_ne by done. by apply Ha.
Qed.

Lemma health_available_room henv s :
  available_room cfg s -> available_room cfg (_check_vm_health henv s).
Proof.
  intros Ha k [Hk _]%check_vm_health_available v'.
  rewrite check_vm_health_lookup.
  destruct (vm_pool s !! k) as [v|] eqn:Hv; [|done]. intros [= <-].
  pose proof (Ha k Hk v Hv) as Hroom. unfold has_room in *.
  by destruct (visit_fields henv k v) as (_ & _ & _ & _ & _ & ->).
Qed.

Lemma step_available_room s o :
  keyed s -> available_room cfg s -> available_room cfg (step cfg s o).
Proof.
  intros Hk Ha. destruct o as [env|order env|vm_id|henv|env]; simpl.
  - by apply create_vm_available_room.
  - apply (assign_preserves cfg Hupv (available_room cfg)); try done.
    + intros _. split; [by apply create_vm_keyed|].
      by apply create_vm_available_room.
    + intros b s' _ _ _ Ha'. by apply take_seat_available_room.
  - by apply release_available_room.
  - by apply health_available_room.
  - unfold _scale_pool_based_on_load.
    destruct (_ && _); [by apply create_vm_available_room|done].
Qed.

(** *** Pools whose stored ids are below the id counter *)

Lemma create_vm_available_stored env s :
  fresh_ids s -> available_stored s -> available_stored (create_vm cfg env s).2.
Proof.
  unfold available_stored, fresh_ids. intros Hf Ha.
  destruct (create_vm_paths cfg env s); simpl; try done.
  - intros k Hk. destruct (Ha k Hk) as [v Hv]. exists v.
    rewrite lookup_delete_ne; [done|].
    intros <-. specialize (Hf _ _ Hv). simpl in Hf. lia.
  - intros k Hk. destruct (decide (k = next_vm_id s)) as [->|Hne].
    + rewrite lookup_insert_eq. by eexists.
    + rewrite lookup_insert_ne by done. apply Ha.
      apply elem_of_union in Hk as [?%elem_of_singleton|?]; done.
Qed.

Lemma take_seat_available_stored b s :
  available_stored s -> available_stored (state_of (take_seat cfg b s)).
Proof.
  unfold available_stored, take_seat. intros Ha. simpl.
  assert (forall k, k ∈ available_vms s ->
            is_Some (<[id b := set_user_count (user_count b + 1) b]> (vm_pool s) !! k))
    as Hall.
  { intros k Hk. apply lookup_insert_is_Some'. right. by apply Ha. }
  destruct (users_per_vm cfg <=? user_count b + 1); simpl; intros k Hk.
  - apply elem_of_difference in Hk as [Hk _]. by apply Hall.
  - by apply Hall.
Qed.

Lemma step_fresh_stored s o :
  keyed s -> fresh_ids s -> available_stored s ->
  fresh_ids (step cfg s o) /\ available_stored (step cfg s o).
Proof.
  intros Hk Hf Ha. destruct o as [env|order env|vm_id|henv|env]; simpl.
  - split; [by apply create_vm_fresh|by apply create_vm_available_stored].
  - apply (assign_preserves cfg Hupv
             (fun s => fresh_ids s /\ available_stored s)); try done.
    + intros [Hf' Ha']. split; [by apply create_vm_keyed|].
      split; [by apply create_vm_fresh|by apply create_vm_available_stored].
    + intros b s' Hstored _ _ [Hf' Ha'].
      split; [by apply take_seat_fresh|by apply take_seat_available_stored].
  - unfold release_vm_from_user.
    destruct (vm_pool s !! vm_id) as [w|] eqn:Hw; [|done].
    destruct (0 <? user_count w); [|done]. simpl.
    pose proof (Hf _ _ Hw) as Hfw. simpl in Hfw.
    assert (forall k, is_Some (vm_pool s !! k) ->
              is_Some (<[vm_id := set_user_count (user_count w - 1) w]> (vm_pool s) !! k))
      as Hall.
    { intros k Hs. apply lookup_insert_is_Some'. by right. }
    destruct (user_count w - 1 <? users_per_vm cfg); simpl.
    + split; [by apply map_Forall_insert_2|].
      intros k [->%elem_of_singleton|Hin]%elem_of_union.
      * apply Hall. by eexists.
      * by apply Hall, Ha.
    + split; [by apply map_Forall_insert_2|].
      intros k Hin. by apply Hall, Ha.
  - split.
    + unfold fresh_ids. destruct (check_vm_health_rest henv s) as [-> _].
      by apply check_vm_health_map_Forall.
    + intros k [Hin _]%check_vm_health_available.
      rewrite check_vm_health_lookup, fmap_is_Some. by apply Ha.
  - unfold _scale_pool_based_on_load. destruct (_ && _); [|done].
    split; [by apply create_vm_fresh|by apply create_vm_available_stored].
Qed.

End available.

(** C2, as the code has it. With [users_per_vm >= 1], from any pool
    whose records sit under their own ids (a pool with instances
    registered at startup included), after [create_vm],
    [assign_vm_to_user], [release_vm_from_user], a health pass or a
    scaling pass: if before the operation every available id that names a
    stored record named one whose user count is strictly below
    [users_per_vm], that holds afterwards as well; and if before the
    operation every available stored record was [RUNNING] and the
    operation is not a release, every available stored record is
    [RUNNING] afterwards. If in addition all stored ids were below the id
    counter and every available id named a stored record, then afterwards
    too the stored ids are below the counter and every available id names
    a stored record with room. [release_vm_from_user] adds the id exactly
    when the record exists, held a user and has room after the decrement;
    the lifecycle state plays no part. *)
Theorem available_set_after_operation (cfg : Config) (s : Pool) (o : Op) :
  1 <= users_per_vm cfg -> keyed s -> available_room cfg s ->
  keyed (step cfg s o)
  /\ available_room cfg (step cfg s o)
  /\ (available_running s -> is_release o = false ->
      available_running (step cfg s o))
  /\ (fresh_ids s -> available_stored s ->
      fresh_ids (step cfg s o)
      /\ available_has_room cfg (step cfg s o)
      /\ (available_running s -> is_release o = false ->
          available_eligible cfg (step cfg s o)))
  /\ (forall vm_id,
        o = ReleaseVM vm_id ->
        available_vms (step cfg s o)
        = if release_readds cfg vm_id s
          then {[vm_id]} ∪ available_vms s else available_vms s).
Proof.
  intros Hupv Hk Hroom.
  pose proof (step_available_room cfg Hupv s o Hk Hroom) as Hroom'.
  split; [by apply step_keyed|]. split; [done|]. split; [|split].
  - intros Hrun Hnot. by apply step_available_running.
  - intros Hf Hst.
    destruct (step_fresh_stored cfg Hupv s o Hk Hf Hst) as [Hf' Hst'].
    assert (available_has_room cfg (step cfg s o)) as Hhas
      by (by apply available_has_room_split).
    split; [done|]. split; [done|].
    intros Hrun Hnot. apply available_eligible_split; [done|].
    by apply step_available_running.
  - intros vm_id ->. simpl. apply release_available.
Qed.

Lemma available_set_after_operation_witness :
  available_vms (step scenario_cfg scenario_registered (CreateVM (all_ok 1 "conn-1")))
  = {[100]}
  /\ available_room scenario_cfg
       (step scenario_cfg scenario_registered (CreateVM (all_ok 1 "conn-1")))
  /\ available_running
       (step scenario_cfg scenario_registered (CreateVM (all_ok 1 "conn-1"))).
Proof.
  assert (available_vms scenario_registered = {[100]}) as Hav by (by vm_compute).
  assert (forall v, vm_pool scenario_registered !! 100 = Some v ->
            status v = RUNNING /\ user_count v = 0) as Hrec.
  { intros v Hv. vm_compute in Hv. by injection Hv as <-. }
  destruct (available_set_after_operation scenario_cfg scenario_registered
              (CreateVM (all_ok 1 "conn-1")))
    as (_ & Hroom & Hrun & _).
  - simpl. lia.
  - apply (bool_decide_unpack _). vm_compute. exact I.
  - unfold available_room. rewrite Hav. apply set_Forall_singleton.
    intros v [_ Hv]%Hrec. unfold has_room. rewrite Hv. simpl. lia.
  - split; [by vm_compute|]. split; [done|]. apply Hrun; [|done].
    unfold available_running. rewrite Hav. apply set_Forall_singleton.
    by intros v [Hv _]%Hrec.
Defined.

(** C2 as stated fails: a release puts a [STOPPED] record back into the
    available set. Instance 100 is created and assigned, a health pass
    sees it stopped, then its user is released. *)
Lemma release_readds_stopped_record :
  let s :=
    run scenario_cfg [AssignVM [] (all_ok 1 "conn-1"); HealthPass (all_down 2)]
      scenario_init in
  init scenario_cfg = Some scenario_init
  /\ available_eligible scenario_cfg s
  /\ 100 ∈ available_vms (release_vm_from_user scenario_cfg 100 s)
  /\ status <$> vm_pool (release_vm_from_user scenario_cfg 100 s) !! 100
     = Some STOPPED
  /\ ~ available_eligible scenario_cfg (release_vm_from_user scenario_cfg 100 s).
Proof.
  intros s.
  assert (available_vms s = ∅) as Hempty by (by vm_compute).
  assert (100 ∈ available_vms (release_vm_from_user scenario_cfg 100 s)) as Hin.
  { apply (bool_decide_unpack _). by vm_compute. }
  assert (status <$> vm_pool (release_vm_from_user scenario_cfg 100 s) !! 100
          = Some STOPPED) as Hst by (by vm_compute).
  split; [reflexivity|]. split; [|split; [done|split; [done|]]].
  - unfold available_eligible. rewrite Hempty. apply set_Forall_empty.
  - intros Hall. destruct (Hall 100 Hin) as (v & Hv & Hrun & _).
    rewrite Hv in Hst. simpl in Hst. congruence.
Qed.

(** ** Size of the store *)

Section size.

Context (cfg : Config).

(** As [assign_preserves], for properties that do not need the chosen
    record to have room. *)
Lemma assign_preserves_stored (P : Pool -> Prop) order env s :
  keyed s ->
  (P s -> keyed (create_vm cfg env s).2 /\ P (create_vm cfg env s).2) ->
  (forall b s', vm_pool s' !! id b = Some b -> keyed s' ->
                P s' -> P (state_of (take_seat cfg b s'))) ->
  P s -> P (state_of (assign_vm_to_user cfg order env s)).
Proof.
  intros Hk Hcreate Hseat HP. unfold assign_vm_to_user.
  destruct (scan cfg (vm_pool s) order None Inf) as [k|[b|]] eqn:Hscan; [done|..].
  - apply scan_result in Hscan as [[=]|(k & _ & Hkb & _)].
    apply Hseat; try done. by rewrite (Hk _ _ Hkb).
  - destruct (Hcreate HP) as [Hk' HP'].
    pose proof (create_vm_result cfg env s) as Hres.
    destruct (create_vm cfg env s) as [[v|] s1]; simpl in *; [|done].
    destruct (Hres v eq_refl) as (Hv & _).
    by apply Hseat.
Qed.

Lemma release_size vm_id s :
  pool_len (release_vm_from_user cfg vm_id s) = pool_len s.
Proof.
  unfold release_vm_from_user, pool_len.
  destruct (vm_pool s !! vm_id) as [v|] eqn:Hv; [|done].
  destruct (0 <? user_count v); [|done]. simpl.
  pose proof (map_size_insert vm_id (set_user_count (user_count v - 1) v)
                (vm_pool s)) as Hsz.
  rewrite Hv in Hsz.
  destruct (user_count v - 1 <? users_per_vm cfg); simpl; by rewrite Hsz.
Qed.

Lemma step_sized s o : sized cfg s -> sized cfg (step cfg s o).
Proof.
  intros [Hk Hm]. destruct o as [env|order env|vm_id|henv|env]; simpl.
  - split; [by apply create_vm_keyed|by apply create_vm_within_max].
  - apply (assign_preserves_stored (sized cfg)); try done.
    + intros _. split; [by apply create_vm_keyed|].
      split; [by apply create_vm_keyed|by apply create_vm_within_max].
    + intros b s' Hstored _ [Hk' Hm']. split; [by apply take_seat_keyed|].
      unfold within_max, pool_len. by rewrite take_seat_size.
  - split.
    + unfold release_vm_from_user.
      destruct (vm_pool s !! vm_id) as [v|] eqn:Hv; [|done].
      destruct (0 <? user_count v); [|done]. simpl.
      pose proof (Hk _ _ Hv) as Hid. simpl in Hid.
      destruct (user_count v - 1 <? users_per_vm cfg); by apply map_Forall_insert_2.
    + unfold within_max. by rewrite release_size.
  - split.
    + apply check_vm_health_map_Forall; [|done].
      intros k v. by destruct (visit_fields henv k v) as (-> & _).
    + unfold within_max. by rewrite check_vm_health_size.
  - unfold _scale_pool_based_on_load. destruct (_ && _); [|done].
    split; [by apply create_vm_keyed|by apply create_vm_within_max].
Qed.

Lemma run_sized ops s : sized cfg s -> sized cfg (run cfg ops s).
Proof.
  unfold run. revert s. induction ops as [|o ops IH]; intros s Hs; simpl; [done|].
  by apply IH, step_sized.
Qed.

Lemma create_missing_sized envs n i s :
  sized cfg s -> sized cfg (create_missing cfg envs n i s).
Proof.
  revert i s. induction n as [|n IH]; intros i s [Hk Hm]; simpl; [done|].
  apply IH. split; [by apply create_vm_keyed|by apply create_vm_within_max].
Qed.

End size.

(** C3, as the code has it. From a pool with at most [max_vms] records
    (each under its own id), every sequence of [create_vm],
    [assign_vm_to_user], [release_vm_from_user], health passes and scaling
    passes, and the provisioning loop of [ensure_base_load], leaves at
    most [max_vms] records in the store. Registration of instances that
    already run on the node is not covered: [_register_existing_vm]
    inserts without looking at [max_vms]. *)
Theorem store_within_max (cfg : Config) (ops : list Op) (s : Pool)
    (envs : nat -> ProvisionEnv) (n i : nat) :
  keyed s -> pool_len s <= max_vms cfg ->
  pool_len (run cfg ops s) <= max_vms cfg
  /\ pool_len (create_missing cfg envs n i (run cfg ops s)) <= max_vms cfg.
Proof.
  intros Hk Hm.
  assert (sized cfg (run cfg ops s)) as Hs by (by apply run_sized).
  split; [apply Hs|]. by apply create_missing_sized.
Qed.

Lemma store_within_max_witness :
  let ops := [AssignVM [] (all_ok 1 "conn-1"); AssignVM [100] (all_ok 2 "conn-2");
              AssignVM [] (all_ok 3 "conn-3"); CreateVM (all_ok 4 "conn-4");
              CreateVM (all_ok 5 "conn-5"); ScalingPass (all_ok 6 "conn-6")] in
  pool_len (run scenario_cfg ops scenario_init) <= max_vms scenario_cfg
  /\ pool_len (create_missing scenario_cfg (fun k => all_ok 7 "conn-7") 2 0
                (run scenario_cfg ops scenario_init)) <= max_vms scenario_cfg.
Proof.
  intros ops.
  apply (store_within_max scenario_cfg ops scenario_init
           (fun k => all_ok 7 "conn-7") 2 0).
  - apply (bool_decide_unpack _). vm_compute. exact I.
  - vm_compute. discriminate.
Defined.

(** C3 as stated fails at startup: with [max_vms = 3] and four instances
    already running on the node, [ensure_base_load] registers all four. *)
Lemma registration_exceeds_max_vms :
  let s := ensure_base_load scenario_cfg
             (busy_node scenario_cfg (fun _ => all_ok 1 "conn-1")) scenario_init in
  init scenario_cfg = Some scenario_init
  /\ pool_len s = 4
  /\ ~ pool_len s <= max_vms scenario_cfg.
Proof.
  intros s. split; [reflexivity|].
  assert (pool_len s = 4) as Hlen by (by vm_compute).
  split; [done|]. rewrite Hlen. simpl. lia.
Qed.

(** ** Failure paths of the provisioning pipeline *)

(** C4. When [create_vm] has inserted a record (the store is below
    [max_vms] and the allocator hands out address [ip]) and a later step
    fails (the clone call, the wait for readiness, or the creation of the
    display connection), [create_vm] returns [None]; afterwards no record
    is stored under the reserved id, the store is the old one without
    that id, [ip] is in the free list again, and the available set is
    unchanged. *)
Theorem create_vm_failure_cleans_up (cfg : Config) (env : ProvisionEnv) (s : Pool)
    (ip : string) (rest : list string) :
  pool_len s < max_vms cfg ->
  ip_pool s = ip :: rest -> ip <> ""%string ->
  provisioning_fails cfg env ->
  exists s',
    create_vm cfg env s = (None, s')
    /\ vm_pool s' !! next_vm_id s = None
    /\ vm_pool s' = delete (next_vm_id s) (vm_pool s)
    /\ ip ∈ ip_pool s'
    /\ ip_pool s' = release_ip ip rest
    /\ available_vms s' = available_vms s.
Proof.
  intros Hroom Hip Hne Hfail. eexists. split.
  - apply create_vm_failed; try done. by apply provision_fails.
  - simpl. split; [apply lookup_delete_eq|]. split; [done|].
    split; [apply release_ip_elem|done].
Qed.

Lemma create_vm_failure_cleans_up_witness :
  exists s',
    create_vm scenario_cfg (clone_fails 1) scenario_init = (None, s')
    /\ vm_pool s' !! 100 = None
    /\ vm_pool s' = delete 100 (vm_pool scenario_init)
    /\ "10.0.0.10"%string ∈ ip_pool s'
    /\ ip_pool s' = release_ip "10.0.0.10" ["10.0.0.11"; "10.0.0.12"]%string
    /\ available_vms s' = available_vms scenario_init.
Proof.
  apply (create_vm_failure_cleans_up scenario_cfg (clone_fails 1) scenario_init
           "10.0.0.10" ["10.0.0.11"; "10.0.0.12"]%string).
  - vm_compute. reflexivity.
  - reflexivity.
  - discriminate.
  - left. discriminate.
Defined.

(** C5, as the code has it. When the store already holds [max_vms]
    records, [create_vm] returns [None] and the pool is unchanged. When
    the store is below [max_vms] and the free list is empty, [create_vm]
    returns [None] with the store, the available set and the free list
    unchanged, and the id counter advanced by one: the id is taken from
    the counter before the allocator is asked. *)
Theorem create_vm_fails_fast (cfg : Config) (env : ProvisionEnv) (s : Pool) :
  (max_vms cfg <= pool_len s -> create_vm cfg env s = (None, s))
  /\ (pool_len s < max_vms cfg -> ip_pool s = [] ->
      exists s',
        create_vm cfg env s = (None, s')
        /\ vm_pool s' = vm_pool s
        /\ available_vms s' = available_vms s
        /\ ip_pool s' = ip_pool s
        /\ next_vm_id s' = next_vm_id s + 1).
Proof.
  split; [apply create_vm_at_max|].
  intros Hroom Hnil. eexists. split; [by apply create_vm_no_ip|].
  simpl. by rewrite Hnil.
Qed.

Lemma create_vm_fails_fast_witness :
  let full :=
    run scenario_cfg [CreateVM (all_ok 1 "conn-1"); CreateVM (all_ok 2 "conn-2");
                      CreateVM (all_ok 3 "conn-3")] scenario_init in
  let dry := (create_vm narrow_cfg (all_ok 1 "conn-1") narrow_init).2 in
  create_vm scenario_cfg (all_ok 4 "conn-4") full = (None, full)
  /\ exists s',
       create_vm narrow_cfg (all_ok 2 "conn-2") dry = (None, s')
       /\ vm_pool s' = vm_pool dry
       /\ available_vms s' = available_vms dry
       /\ ip_pool s' = ip_pool dry
       /\ next_vm_id s' = next_vm_id dry + 1.
Proof.
  intros full dry. split.
  - apply (create_vm_fails_fast scenario_cfg (all_ok 4 "conn-4") full).
    vm_compute. discriminate.
  - apply (create_vm_fails_fast narrow_cfg (all_ok 2 "conn-2") dry).
    + vm_compute. reflexivity.
    + vm_compute. reflexivity.
Defined.

(** C5 as stated fails when the allocator is exhausted: the call returns
    [None] but has consumed an id. The pool is the one of [narrow_cfg]
    after its single address has been handed out. *)
Lemma create_vm_without_ip_consumes_id :
  let s := (create_vm narrow_cfg (all_ok 1 "conn-1") narrow_init).2 in
  init narrow_cfg = Some narrow_init
  /\ pool_len s < max_vms narrow_cfg
  /\ ip_pool s = []
  /\ (create_vm narrow_cfg (all_ok 2 "conn-2") s).1 = None
  /\ next_vm_id s = 101
  /\ next_vm_id (create_vm narrow_cfg (all_ok 2 "conn-2") s).2 = 102
  /\ (create_vm narrow_cfg (all_ok 2 "conn-2") s).2 <> s.
Proof.
  intros s. split; [reflexivity|]. split; [by vm_compute|].
  split; [by vm_compute|]. split; [by vm_compute|].
  split; [by vm_compute|].
  assert (next_vm_id (create_vm narrow_cfg (all_ok 2 "conn-2") s).2 = 102) as Hnext
    by (by vm_compute).
  split; [done|]. intros Heq. rewrite Heq in Hnext.
  assert (next_vm_id s = 101) as Hs by (by vm_compute). congruence.
Qed.

(** ** Selection *)

Section selection.

Context (cfg : Config) (pool : gmap Z VMInfo).

Lemma better_eligible v m :
  better cfg v m = true <-> eligible cfg v /\ below (user_count v) m = true.
Proof.
  unfold better, eligible, has_room.
  rewrite !andb_true_iff, bool_decide_eq_true, Z.ltb_lt. tauto.
Qed.

Lemma below_trans a b m : a < b -> below b m = true -> below a m = true.
Proof. destruct m as [|x]; simpl; [done|]. rewrite !Z.ltb_lt. lia. Qed.

Lemma below_false_le a b m : below a m = true -> below b m = false -> a < b.
Proof.
  destruct m as [|x]; simpl; [done|]. rewrite Z.ltb_lt, Z.ltb_ge. lia.
Qed.

(** The scan returns the first record, in iteration order, among the
    eligible ones with the fewest users. *)
Lemma scan_spec order best r :
  scan cfg pool order best (min_of best) = inr r ->
  match r with
  | None =>
      best = None
      /\ forall j v, j ∈ order -> pool !! j = Some v -> ~ eligible cfg v
  | Some b =>
      (best = Some b
       /\ forall j v, j ∈ order -> pool !! j = Some v -> eligible cfg v ->
                      user_count b <= user_count v)
      \/ (exists pre k post,
            order = pre ++ k :: post
            /\ pool !! k = Some b /\ eligible cfg b
            /\ below (user_count b) (min_of best) = true
            /\ (forall j v, j ∈ pre -> pool !! j = Some v -> eligible cfg v ->
                            user_count b < user_count v)
            /\ (forall j v, j ∈ post -> pool !! j = Some v -> eligible cfg v ->
                            user_count b <= user_count v))
  end.
Proof.
  revert best r. induction order as [|k order IH]; intros best r; simpl.
  - intros [= <-]. destruct best as [b|].
    + left. split; [done|]. by intros j v ?%elem_of_nil.
    + split; [done|]. by intros j v ?%elem_of_nil.
  - destruct (pool !! k) as [v|] eqn:Hv; [|done].
    destruct (better cfg v (min_of best)) eqn:Hbetter.
    + apply better_eligible in Hbetter as [Hel Hbelow].
      intros Hscan. apply (IH (Some v)) in Hscan.
      destruct r as [b|]; [|by destruct Hscan].
      right. destruct Hscan as [[[= <-] Hrest]|(pre & k' & post & -> & Hk' & Hel' & Hlt & Hpre & Hpost)].
      * exists [], k, order. split; [done|]. split; [done|]. split; [done|].
        split; [done|]. split; [by intros j w ?%elem_of_nil|done].
      * simpl in Hlt. apply Z.ltb_lt in Hlt.
        exists (k :: pre), k', post. split; [done|]. split; [done|].
        split; [done|]. split; [by apply (below_trans _ (user_count v))|].
        split; [|done].
        intros j w [->|Hj]%elem_of_cons Hw Hw'; [|by eapply Hpre].
        rewrite Hv in Hw. by injection Hw as <-.
    + intros Hscan. apply IH in Hscan.
      assert (forall b, eligible cfg v -> below (user_count b) (min_of best) = true ->
                        user_count b < user_count v) as Hlose.
      { intros b Hel Hb. apply (below_false_le _ _ (min_of best)); [done|].
        destruct (below (user_count v) (min_of best)) eqn:Hbv; [|done].
        assert (better cfg v (min_of best) = true) as Hyes
          by (by apply better_eligible).
        congruence. }
      destruct r as [b|].
      * destruct Hscan as [[-> Hrest]|(pre & k' & post & -> & Hk' & Hel' & Hlt & Hpre & Hpost)].
        -- left. split; [done|].
           intros j w [->|Hj]%elem_of_cons Hw Hel; [|by eapply Hrest].
           rewrite Hv in Hw. injection Hw as <-. simpl in Hbetter.
           destruct (Z.le_gt_cases (user_count b) (user_count v)) as [|Hgt]; [done|].
           assert (better cfg v (Fin (user_count b)) = true) as Hyes.
           { apply better_eligible. split; [done|]. simpl. by apply Z.ltb_lt. }
           congruence.
        -- right. exists (k :: pre), k', post. split; [done|]. split; [done|].
           split; [done|]. split; [done|]. split; [|done].
           intros j w [->|Hj]%elem_of_cons Hw Hel; [|by eapply Hpre].
           rewrite Hv in Hw. injection Hw as <-. by apply Hlose.
      * destruct Hscan as [-> Hrest]. split; [done|].
        intros j w [->|Hj]%elem_of_cons Hw Hel; [|by eapply Hrest].
        rewrite Hv in Hw. injection Hw as <-.
        assert (better cfg v Inf = true) as Hyes by (by apply better_eligible).
        simpl in Hbetter. congruence.
Qed.

End selection.

(** C6, as the code has it. When the available set holds an eligible
    record ([RUNNING], user count below [users_per_vm]),
    [assign_vm_to_user] picks an eligible record [b] with the fewest
    users; among the eligible records with that count it is the one the
    iteration over the available set meets first (the lowest id when the
    set happens to be iterated in ascending order). It then stores [b]
    with its user count incremented, removes the id from the available
    set exactly when the new count equals [users_per_vm], leaves the rest
    of the pool as it is and returns the updated record. *)
Theorem assign_selects_least_loaded (cfg : Config) (order : list Z)
    (env : ProvisionEnv) (s : Pool) :
  keyed s ->
  set_Forall (fun k => is_Some (vm_pool s !! k)) (available_vms s) ->
  iterates order s ->
  (exists k v, k ∈ available_vms s /\ vm_pool s !! k = Some v /\ eligible cfg v) ->
  exists pre k post b,
    order = pre ++ k :: post
    /\ k ∈ available_vms s /\ vm_pool s !! k = Some b /\ eligible cfg b
    /\ (forall j v, j ∈ available_vms s -> vm_pool s !! j = Some v ->
                    eligible cfg v -> user_count b <= user_count v)
    /\ (forall j v, j ∈ pre -> vm_pool s !! j = Some v ->
                    eligible cfg v -> user_count b < user_count v)
    /\ (ascending order ->
        forall j v, j ∈ available_vms s -> vm_pool s !! j = Some v ->
                    eligible cfg v -> user_count v = user_count b -> k <= j)
    /\ assign_vm_to_user cfg order env s
       = Returns (Some (set_user_count (user_count b + 1) b))
           {| vm_pool := <[k := set_user_count (user_count b + 1) b]> (vm_pool s);
              available_vms :=
                if bool_decide (user_count b + 1 = users_per_vm cfg)
                then available_vms s ∖ {[k]} else available_vms s;
              next_vm_id := next_vm_id s;
              ip_pool := ip_pool s |}.
Proof.
  intros Hk Hstored Hiter (k0 & v0 & Hk0 & Hv0 & Hel0).
  assert (forall j, j ∈ order <-> j ∈ available_vms s) as Hmem.
  { intros j. unfold iterates in Hiter. rewrite Hiter. apply elem_of_elements. }
  destruct (scan_no_key_error cfg (vm_pool s) order None Inf) as [r Hscan].
  { intros j Hj%Hmem. by apply Hstored. }
  pose proof (scan_spec cfg (vm_pool s) order None r Hscan) as Hspec.
  destruct r as [b|].
  2:{ destruct Hspec as [_ Hnone]. exfalso.
      apply (Hnone k0 v0); [by apply Hmem|done..]. }
  destruct Hspec as [[[=] _]|(pre & k & post & Horder & Hb & Hel & _ & Hpre & Hpost)].
  assert (k ∈ order) as Hkin.
  { rewrite Horder. apply elem_of_app. right. left. }
  assert (forall j v, j ∈ available_vms s -> vm_pool s !! j = Some v ->
                      eligible cfg v -> user_count b <= user_count v) as Hleast.
  { intros j v Hj%Hmem Hv Hv'. rewrite Horder in Hj.
    apply elem_of_app in Hj as [Hj|[->|Hj]%elem_of_cons].
    - pose proof (Hpre j v Hj Hv Hv'). lia.
    - rewrite Hb in Hv. injection Hv as <-. lia.
    - by apply (Hpost j v). }
  exists pre, k, post, b.
  split; [done|]. split; [by apply Hmem|]. split; [done|]. split; [done|].
  split; [done|]. split; [done|]. split.
  - intros Hasc j v Hj%Hmem Hv Hv' Hsame. rewrite Horder in Hj, Hasc.
    apply elem_of_app in Hj as [Hj|[->|Hj]%elem_of_cons].
    + pose proof (Hpre j v Hj Hv Hv'). lia.
    + lia.
    + unfold ascending in Hasc.
      apply StronglySorted_app_1_r, StronglySorted_inv in Hasc as [_ Hall].
      rewrite Forall_forall in Hall. specialize (Hall j Hj). lia.
  - unfold assign_vm_to_user. rewrite Hscan. unfold take_seat.
    pose proof (Hk _ _ Hb) as Hid. simpl in Hid. simpl. rewrite Hid.
    destruct Hel as [_ Hroom]. unfold has_room in Hroom.
    destruct (users_per_vm cfg <=? user_count b + 1) eqn:Hfull.
    + apply Z.leb_le in Hfull. rewrite bool_decide_eq_true_2 by lia. done.
    + apply Z.leb_gt in Hfull. rewrite bool_decide_eq_false_2 by lia. done.
Qed.

Lemma assign_selects_least_loaded_witness :
  exists pre k post b,
    [103; 104] = pre ++ k :: post
    /\ k ∈ available_vms two_free_instances
    /\ vm_pool two_free_instances !! k = Some b /\ eligible scenario_cfg b
    /\ (forall j v, j ∈ available_vms two_free_instances ->
                    vm_pool two_free_instances !! j = Some v ->
                    eligible scenario_cfg v -> user_count b <= user_count v)
    /\ (forall j v, j ∈ pre -> vm_pool two_free_instances !! j = Some v ->
                    eligible scenario_cfg v -> user_count b < user_count v)
    /\ (ascending [103; 104] ->
        forall j v, j ∈ available_vms two_free_instances ->
                    vm_pool two_free_instances !! j = Some v ->
                    eligible scenario_cfg v -> user_count v = user_count b -> k <= j)
    /\ assign_vm_to_user scenario_cfg [103; 104] (all_ok 6 "conn-6") two_free_instances
       = Returns (Some (set_user_count (user_count b + 1) b))
           {| vm_pool := <[k := set_user_count (user_count b + 1) b]>
                           (vm_pool two_free_instances);
              available_vms :=
                if bool_decide (user_count b + 1 = users_per_vm scenario_cfg)
                then available_vms two_free_instances ∖ {[k]}
                else available_vms two_free_instances;
              next_vm_id := next_vm_id two_free_instances;
              ip_pool := ip_pool two_free_instances |}.
Proof.
  apply (assign_selects_least_loaded scenario_cfg [103; 104] (all_ok 6 "conn-6")
           two_free_instances).
  - apply (bool_decide_unpack _). vm_compute. exact I.
  - apply (bool_decide_unpack _). vm_compute. exact I.
  - unfold iterates. apply (bool_decide_unpack _). vm_compute. exact I.
  - exists 103. eexists. split; [apply (bool_decide_unpack _); vm_compute; exact I|].
    split; [vm_compute; reflexivity|]. split; [reflexivity|].
    unfold has_room. simpl. lia.
Defined.

(** C6 as stated fails on the tie-break. The instances 103 and 104 are
    both [RUNNING] with no user; CPython keeps the two ids in slots
    103 mod 8 = 7 and 104 mod 8 = 0 of the set's table and iterates the
    table from slot 0, so the scan meets 104 first and keeps it: the
    assignment goes to 104, not to the lowest id 103. *)
Lemma assign_tie_not_lowest_id :
  init scenario_cfg = Some scenario_init
  /\ iterates [104; 103] two_free_instances
  /\ (exists v, vm_pool two_free_instances !! 103 = Some v
                /\ eligible scenario_cfg v /\ user_count v = 0)
  /\ (exists v, vm_pool two_free_instances !! 104 = Some v
                /\ eligible scenario_cfg v /\ user_count v = 0)
  /\ id <$> result_of (assign_vm_to_user scenario_cfg [104; 103]
                         (all_ok 6 "conn-6") two_free_instances) = Some 104.
Proof.
  split; [reflexivity|].
  split; [unfold iterates; apply (bool_decide_unpack _); vm_compute; exact I|].
  split; [|split; [|by vm_compute]].
  - eexists. split; [vm_compute; reflexivity|]. split; [|done].
    split; [done|]. unfold has_room. simpl. lia.
  - eexists. split; [vm_compute; reflexivity|]. split; [|done].
    split; [done|]. unfold has_room. simpl. lia.
Qed.

(** ** Frame of the health pass *)

(** C8, as the code has it. When the status query of a tracked instance
    reports a state other than running, the health pass sets that
    record to [STOPPED] with every other field, the user count among
    them, as before, and the id is not in the available set afterwards.
    The pass neither adds nor destroys records, and in every record it
    leaves id, name, address, connection id, creation time and user count
    alone. The other records are not left unchanged in every field: the
    pass sets the lifecycle state of each of them from its own status
    query and stamps [last_health_check] on those reported running; only
    a record whose query raises is untouched. Ids of other records leave
    the available set only when their own query reports them down; the id
    counter and the free list are unchanged. The loop iteration that
    handles the instance touches no other record. *)
Theorem health_pass_on_down_instance (henv : HealthEnv) (s : Pool) (vm_id : Z)
    (v : VMInfo) (st : option string) :
  vm_pool s !! vm_id = Some v ->
  get_vm_status henv vm_id = Status st -> is_running st = false ->
  vm_pool (_check_vm_health henv s) !! vm_id = Some (set_status STOPPED v)
  /\ (vm_id ∉ available_vms (_check_vm_health henv s))
  /\ dom (vm_pool (_check_vm_health henv s)) = dom (vm_pool s)
  /\ (forall k w,
        vm_pool s !! k = Some w ->
        exists w',
          vm_pool (_check_vm_health henv s) !! k = Some w'
          /\ same_identity w' w
          /\ w' = health_record (get_vm_status henv k) (checked_at henv k) w
          /\ (get_vm_status henv k = StatusRaises -> w' = w))
  /\ (forall k,
        k ∈ available_vms (_check_vm_health henv s)
        <-> k ∈ available_vms s
            /\ ~ (is_Some (vm_pool s !! k)
                  /\ reported_down (get_vm_status henv k) = true))
  /\ next_vm_id (_check_vm_health henv s) = next_vm_id s
  /\ ip_pool (_check_vm_health henv s) = ip_pool s
  /\ (forall s0 k,
        k <> vm_id -> vm_pool (check_one henv s0 vm_id) !! k = vm_pool s0 !! k).
Proof.
  intros Hv Hreply Hdown.
  split.
  { rewrite check_vm_health_lookup, Hv. simpl. unfold visit, health_record.
    by rewrite Hreply, Hdown. }
  split.
  { intros [_ Hnot]%check_vm_health_available. apply Hnot.
    split; [by eexists|]. unfold reported_down. by rewrite Hreply, Hdown. }
  split; [apply check_vm_health_dom|].
  split.
  { intros k w Hw. exists (visit henv k w).
    split; [by rewrite check_vm_health_lookup, Hw|].
    split; [apply visit_fields|]. split; [done|].
    unfold visit. by intros ->. }
  split; [apply check_vm_health_available|].
  split; [apply check_vm_health_rest|]. split; [apply check_vm_health_rest|].
  intros s0 k Hne. by rewrite check_one_vm_pool, lookup_alter_ne.
Qed.

Lemma health_pass_on_down_instance_witness :
  vm_pool (_check_vm_health (only_down 100 9) two_instances) !! 100
  = Some (set_status STOPPED
            (set_user_count 2 (running_record 100 "10.0.0.10" 1 "conn-1")))
  /\ (100 ∉ available_vms (_check_vm_health (only_down 100 9) two_instances)).
Proof.
  destruct (health_pass_on_down_instance (only_down 100 9) two_instances 100
              (set_user_count 2 (running_record 100 "10.0.0.10" 1 "conn-1"))
              (Some "stopped"%string))
    as (Hrec & Hout & _).
  - vm_compute. reflexivity.
  - reflexivity.
  - reflexivity.
  - split; [exact Hrec|exact Hout].
Defined.

(** C8 as stated fails for the other records: in the same pass that
    finds instance 100 stopped, instance 101 is reported running and its
    [last_health_check] is stamped. *)
Lemma health_pass_changes_other_record :
  init scenario_cfg = Some scenario_init
  /\ get_vm_status (only_down 100 9) 100 = Status (Some "stopped"%string)
  /\ last_health_check <$> vm_pool two_instances !! 101 = Some None
  /\ last_health_check
       <$> vm_pool (_check_vm_health (only_down 100 9) two_instances) !! 101
     = Some (Some 9)
  /\ vm_pool (_check_vm_health (only_down 100 9) two_instances) !! 101
     <> vm_pool two_instances !! 101.
Proof.
  split; [reflexivity|]. split; [reflexivity|].
  assert (last_health_check <$> vm_pool two_instances !! 101 = Some None) as Hold
    by (by vm_compute).
  assert (last_health_check
            <$> vm_pool (_check_vm_health (only_down 100 9) two_instances) !! 101
          = Some (Some 9)) as Hnew by (by vm_compute).
  split; [done|]. split; [done|].
  intros Heq. rewrite Heq in Hnew. congruence.
Qed.

(** ** Startup pool and acquisition order *)

(** C9, as the code has it. The pool computed at startup holds at most
    [max_vms] addresses (none when [max_vms] is not positive): the
    printed addresses [base_ip, base_ip + 1, ...], all inside the subnet,
    stopping after [max_vms] of them or at the first one outside the
    subnet. [get_next_ip] removes and returns the head of the free list,
    the address that has been free for the longest time, and returns
    [None] exactly when the list is empty. The head is the lowest free
    address as long as the list is ascending, which the startup pool
    is. *)
Theorem ip_pool_startup_and_acquire (cfg : Config) (ips : list string) :
  _initialize_ip_pool cfg = Some ips ->
  (length ips <= Z.to_nat (max_vms cfg))%nat
  /\ (exists k : nat,
        ips = str_of_ipv4 <$> consecutive (base_ip cfg) k
        /\ Forall (fun a => in_network a (subnet cfg) = true)
             (consecutive (base_ip cfg) k)
        /\ (k = Z.to_nat (max_vms cfg)
            \/ in_network (base_ip cfg + Z.of_nat k) (subnet cfg) = false)
        /\ ascending (consecutive (base_ip cfg) k))
  /\ (forall free, (get_next_ip free).1 = None <-> free = [])
  /\ (forall ip rest, get_next_ip (ip :: rest) = (Some ip, rest))
  /\ (forall a rest,
        ascending (a :: rest) ->
        get_next_ip (str_of_ipv4 <$> a :: rest)
        = (Some (str_of_ipv4 a), str_of_ipv4 <$> rest)
        /\ lowest_free a (a :: rest)).
Proof.
  unfold _initialize_ip_pool. intros Hwalk.
  split; [by eapply walk_length|].
  split.
  { destruct (walk_consecutive _ _ _ _ Hwalk) as (k & ? & ? & ?).
    exists k. split; [done|]. split; [done|]. split; [done|].
    apply consecutive_ascending. }
  split; [apply get_next_ip_none|]. split; [done|].
  intros a rest Hasc. split; [done|]. by apply ascending_head_lowest.
Qed.

Lemma ip_pool_startup_and_acquire_witness :
  (length ["10.0.0.10"; "10.0.0.11"; "10.0.0.12"]%string
   <= Z.to_nat (max_vms scenario_cfg))%nat
  /\ get_next_ip ["10.0.0.10"; "10.0.0.11"; "10.0.0.12"]%string
     = (Some "10.0.0.10"%string, ["10.0.0.11"; "10.0.0.12"]%string).
Proof.
  destruct (ip_pool_startup_and_acquire scenario_cfg
              ["10.0.0.10"; "10.0.0.11"; "10.0.0.12"]%string)
    as (Hlen & _ & _ & Hhead & _).
  - reflexivity.
  - split; [exact Hlen|apply Hhead].
Defined.

(** C9 as stated fails once an address has been released: after a
    failed [create_vm] in the scenario the free list is 10.0.0.11,
    10.0.0.12, 10.0.0.10, and [get_next_ip] returns 10.0.0.11 although
    10.0.0.10 is free and lower. *)
Lemma get_next_ip_not_lowest :
  let free := [167772171; 167772172; 167772170] in
  let s := (create_vm scenario_cfg (clone_fails 1) scenario_init).2 in
  init scenario_cfg = Some scenario_init
  /\ ip_pool s = str_of_ipv4 <$> free
  /\ lowest_free 167772170 free
  /\ (get_next_ip (ip_pool s)).1 = Some (str_of_ipv4 167772171)
  /\ (get_next_ip (ip_pool s)).1 <> Some (str_of_ipv4 167772170).
Proof.
  intros free s. split; [reflexivity|].
  split; [by vm_compute|]. split; [|split; [by vm_compute|]].
  - split; [apply (bool_decide_unpack _); vm_compute; exact I|].
    intros b Hb. unfold free in Hb.
    repeat (apply elem_of_cons in Hb as [->|Hb]; [lia|]).
    by apply elem_of_nil in Hb.
  - vm_compute. discriminate.
Qed.

(** ** The capacity scenario *)

Section same_outcome.

Context (cfg : Config).

Lemma create_vm_ext env env' s :
  same_outcome cfg env env' -> create_vm cfg env s = create_vm cfg env' s.
Proof. intros [Hnow Hprov]. unfold create_vm. by rewrite Hnow, Hprov. Qed.

Lemma assign_ext order env env' s :
  same_outcome cfg env env' ->
  assign_vm_to_user cfg order env s = assign_vm_to_user cfg order env' s.
Proof. intros Hsame. unfold assign_vm_to_user. by rewrite (create_vm_ext env env'). Qed.

Lemma assign_users_ext envs envs' n i s :
  (forall k, same_outcome cfg (envs k) (envs' k)) ->
  assign_users cfg envs n i s = assign_users cfg envs' n i s.
Proof.
  intros Hsame. revert i s. induction n as [|n IH]; intros i s; simpl; [done|].
  by rewrite (assign_ext _ (envs i) (envs' i)), IH.
Qed.

Lemma pools_before_ext envs envs' n i s :
  (forall k, same_outcome cfg (envs k) (envs' k)) ->
  pools_before cfg envs n i s = pools_before cfg envs' n i s.
Proof.
  intros Hsame. revert i s. induction n as [|n IH]; intros i s; simpl; [done|].
  by rewrite (assign_ext _ (envs i) (envs' i)), IH.
Qed.

Lemma create_missing_ext envs envs' n i s :
  (forall k, same_outcome cfg (envs k) (envs' k)) ->
  create_missing cfg envs n i s = create_missing cfg envs' n i s.
Proof.
  intros Hsame. revert i s. induction n as [|n IH]; intros i s; simpl; [done|].
  by rewrite (create_vm_ext (envs i) (envs' i)), IH.
Qed.

Lemma ensure_base_load_ext envs envs' s :
  (forall k, same_outcome cfg (envs k) (envs' k)) ->
  ensure_base_load cfg (template_only cfg envs) s
  = ensure_base_load cfg (template_only cfg envs') s.
Proof.
  intros Hsame. unfold ensure_base_load. simpl.
  by apply create_missing_ext.
Qed.

Lemma override_same_outcome envs k env :
  same_outcome cfg (envs k) env ->
  forall i, same_outcome cfg (envs i) (override envs k env i).
Proof.
  intros Hsame i. unfold override.
  destruct (Nat.eqb_spec i k) as [->|Hne]; [done|]. by split.
Qed.

Lemma same_outcome_trans envs envs' envs'' :
  (forall i : nat, same_outcome cfg (envs i) (envs' i)) ->
  (forall i : nat, same_outcome cfg (envs' i) (envs'' i)) ->
  forall i, same_outcome cfg (envs i) (envs'' i).
Proof.
  intros H1 H2 i. destruct (H1 i) as [Ha Hb], (H2 i) as [Hc Hd].
  split; congruence.
Qed.

End same_outcome.

(** A successful run is indistinguishable from [all_ok] with the same
    clock reading and a connection id spelled out as a non-empty
    string. *)
Lemma succeeds_all_ok env c :
  provisioning_succeeds scenario_cfg env c ->
  exists a rest, same_outcome scenario_cfg env (all_ok (now env) (String a rest)).
Proof.
  intros Hok. pose proof (provision_succeeds _ _ _ Hok) as Hprov.
  destruct Hok as (_ & _ & _ & Hne). destruct c as [|a rest]; [done|].
  exists a, rest. split; [done|]. rewrite Hprov. by vm_compute.
Qed.

(** C7, as the code has it. In the scenario (subnet 10.0.0.0/24, base
    address 10.0.0.10, [max_vms = 3], [users_per_vm = 2],
    [base_load = 1]) with every remote call succeeding,
    [ensure_base_load] on a node that lists only the stopped template
    leaves the single [RUNNING] instance 100 at 10.0.0.10. Five calls of
    [assign_vm_to_user] then all return an instance and provision two
    more (100, 101, 102 in the store). The sixth call does not return
    [None]: it returns instance 102 with its second user, which uses up
    the capacity 3 x 2 = 6. The seventh call returns [None] and changes
    nothing. Before each call the available set holds at most one id, so
    the order of its iteration is forced. *)
Theorem capacity_scenario (boot envs : nat -> ProvisionEnv) :
  (forall i, exists c, provisioning_succeeds scenario_cfg (boot i) c) ->
  (forall i, exists c, provisioning_succeeds scenario_cfg (envs i) c) ->
  let s0 :=
    ensure_base_load scenario_cfg (template_only scenario_cfg boot) scenario_init in
  let run5 := assign_users scenario_cfg envs 5 0 s0 in
  let run6 := assign_users scenario_cfg envs 1 5 run5.2 in
  let run7 := assign_users scenario_cfg envs 1 6 run6.2 in
  init scenario_cfg = Some scenario_init
  /\ (exists v, vm_pool s0 = {[100 := v]} /\ status v = RUNNING
                /\ ip v = "10.0.0.10"%string /\ user_count v = 0)
  /\ Forall (fun p => (size (available_vms p) <= 1)%nat)
       (pools_before scenario_cfg envs 7 0 s0)
  /\ Forall is_Some run5.1
  /\ pool_len run5.2 = 3
  /\ dom (vm_pool run5.2) = {[100; 101; 102]}
  /\ (exists v, run6.1 = [Some v] /\ id v = 102 /\ user_count v = 2)
  /\ pool_len run6.2 = 3
  /\ total_users run6.2 = 6
  /\ run7.1 = [None]
  /\ run7.2 = run6.2.
Proof.
  intros Hboot Henvs.
  destruct (Hboot 0%nat) as [c0 (a0 & r0 & H0)%succeeds_all_ok].
  destruct (Henvs 2%nat) as [c2 (a2 & r2 & H2)%succeeds_all_ok].
  destruct (Henvs 4%nat) as [c4 (a4 & r4 & H4)%succeeds_all_ok].
  pose (boot' := override boot 0 (all_ok (now (boot 0%nat)) (String a0 r0))).
  pose (envs' :=
          override (override envs 2 (all_ok (now (envs 2%nat)) (String a2 r2)))
            4 (all_ok (now (envs 4%nat)) (String a4 r4))).
  assert (forall i, same_outcome scenario_cfg (boot i) (boot' i)) as Hb
    by (by apply override_same_outcome).
  assert (forall i, same_outcome scenario_cfg (envs i) (envs' i)) as He.
  { eapply same_outcome_trans.
    - apply (override_same_outcome _ envs 2 _ H2).
    - apply (override_same_outcome _ (override envs 2 _) 4 _). exact H4. }
  intros s0 run5 run6 run7. subst run7 run6 run5 s0.
  rewrite (ensure_base_load_ext _ boot boot') by done.
  rewrite !(assign_users_ext _ envs envs') by done.
  rewrite (pools_before_ext _ envs envs') by done.
  split; [reflexivity|].
  split; [eexists; split; [by vm_compute|by vm_compute]|].
  split; [vm_compute; repeat constructor|].
  split; [vm_compute; repeat constructor; by eexists|].
  split; [by vm_compute|].
  split; [by vm_compute|].
  split; [eexists; split; [by vm_compute|by vm_compute]|].
  split; [by vm_compute|].
  split; [by vm_compute|].
  split; by vm_compute.
Qed.

Lemma always_ok_succeeds i :
  exists c, provisioning_succeeds scenario_cfg (always_ok i) c.
Proof.
  exists "conn"%string. split; [done|]. split; [by vm_compute|]. by split.
Qed.

Lemma capacity_scenario_witness :
  pool_len (assign_users scenario_cfg always_ok 5 0 scenario_start).2 = 3
  /\ (assign_users scenario_cfg always_ok 1 6
        (assign_users scenario_cfg always_ok 1 5
           (assign_users scenario_cfg always_ok 5 0 scenario_start).2).2).1
     = [None].
Proof.
  destruct (capacity_scenario always_ok always_ok always_ok_succeeds always_ok_succeeds)
    as (_ & _ & _ & _ & Hfive & _ & _ & _ & _ & Hseven & _).
  split; [exact Hfive|exact Hseven].
Defined.

(** C7 as stated fails at the sixth call: it is served (instance 102
    takes its second user); [None] comes with the seventh call. *)
Lemma sixth_call_is_served :
  let after5 := (assign_users scenario_cfg always_ok 5 0 scenario_start).2 in
  init scenario_cfg = Some scenario_init
  /\ (assign_users scenario_cfg always_ok 1 5 after5).1 <> [None]
  /\ (fun v => (id v, user_count v))
       <$> result_of (assign_vm_to_user scenario_cfg (elements (available_vms after5))
                        (always_ok 5) after5)
     = Some (102, 2).
Proof.
  intros after5. split; [reflexivity|]. split; [|by vm_compute].
  vm_compute. discriminate.
Qed.

(** * Further properties of the pool manager *)

(** ** The allocator hands addresses out first in, first out *)

Lemma acquire_many_spec n free :
  acquire_many n free
  = ((Some <$> take n free) ++ replicate (n - length free) None, drop n free).
Proof.
  revert free. induction n as [|n IH]; intros free; simpl.
  - by rewrite drop_0.
  - destruct free as [|ip rest]; simpl.
    + rewrite IH, !take_nil, !drop_nil. simpl. by rewrite Nat.sub_0_r.
    + by rewrite IH.
Qed.

(** X1. [n] calls of [get_next_ip] hand out the first [n] addresses of
    the free list in list order and then [None] for every further call.
    An address released while absent from the list is therefore handed
    out again right after all the addresses that were free before it. *)
Theorem allocator_is_fifo (ip : string) (free : list string) (n : nat) :
  ip ∉ free ->
  acquire_many n free
  = ((Some <$> take n free) ++ replicate (n - length free) None, drop n free)
  /\ acquire_many (S (length free)) (release_ip ip free)
     = ((Some <$> free) ++ [Some ip], []).
Proof.
  intros Hout. split; [apply acquire_many_spec|].
  rewrite acquire_many_spec. unfold release_ip.
  rewrite bool_decide_eq_false_2 by done.
  rewrite length_app. simpl.
  replace (S (length free)) with (length (free ++ [ip]))
    by (rewrite length_app; simpl; lia).
  rewrite firstn_all, drop_all, fmap_app.
  replace (length (free ++ [ip]) - (length free + 1))%nat with 0%nat
    by (rewrite length_app; simpl; lia).
  simpl. by rewrite app_nil_r.
Qed.

Lemma allocator_is_fifo_witness :
  acquire_many 3 (release_ip "10.0.0.10" ["10.0.0.11"; "10.0.0.12"])
  = ([Some "10.0.0.11"; Some "10.0.0.12"; Some "10.0.0.10"], [])%string.
Proof.
  destruct (allocator_is_fifo "10.0.0.10" ["10.0.0.11"; "10.0.0.12"]%string 0)
    as [_ Hround].
  - apply (bool_decide_unpack _). vm_compute. exact I.
  - exact Hround.
Defined.

(** ** Waiting for readiness *)

Lemma poll_ready_iff poll n k :
  poll_ready poll n k = true
  <-> exists j, (j < n)%nat /\ exists st, poll (k + j)%nat = Status st /\ is_running st = true.
Proof.
  revert k. induction n as [|n IH]; intros k; simpl.
  - split; [done|]. intros (j & Hj & _). lia.
  - assert (poll_ready poll n (S k) = true
            <-> exists j, (0 < j < S n)%nat
                          /\ exists st, poll (k + j)%nat = Status st /\ is_running st = true)
      as Hlater.
    { rewrite IH. split.
      - intros (j & Hj & st & Hst & Hrun). exists (S j). split; [lia|].
        exists st. split; [|done]. by replace (k + S j)%nat with (S k + j)%nat by lia.
      - intros (j & Hj & st & Hst & Hrun). exists (pred j). split; [lia|].
        exists st. split; [|done]. by replace (S k + pred j)%nat with (k + j)%nat by lia. }
    destruct (poll k) as [st|] eqn:Hk.
    + destruct (is_running st) eqn:Hrun.
      * split; [|done]. intros _. exists 0%nat. split; [lia|].
        exists st. by rewrite Nat.add_0_r.
      * rewrite Hlater. split.
        -- intros (j & Hj & Hrest). exists j. split; [lia|done].
        -- intros (j & Hj & st' & Hst' & Hrun'). exists j. split; [|by eauto].
           destruct j; [|lia]. rewrite Nat.add_0_r in Hst'. congruence.
    + rewrite Hlater. split.
      * intros (j & Hj & Hrest). exists j. split; [lia|done].
      * intros (j & Hj & st' & Hst' & Hrun'). exists j. split; [|by eauto].
        destruct j; [|lia]. rewrite Nat.add_0_r in Hst'. congruence.
Qed.

(** X2. [_wait_for_vm_ready] returns normally exactly when one of the
    first [vm_ready_timeout // 5] status polls reports ["running"]; polls
    that raise or report anything else only use up an attempt, and a poll
    after the last attempt is never looked at. *)
Theorem wait_for_vm_ready_iff (cfg : Config) (poll : nat -> StatusReply) :
  _wait_for_vm_ready cfg poll = true
  <-> exists k : nat,
        Z.of_nat k < vm_ready_timeout cfg / 5
        /\ exists st, poll k = Status st /\ is_running st = true.
Proof.
  unfold _wait_for_vm_ready. rewrite poll_ready_iff. simpl.
  split; intros (k & Hk & Hrest); exists k; (split; [lia|done]).
Qed.

(** X3. With [vm_ready_timeout] below 5 seconds the readiness loop has
    no attempt at all: [create_vm] never returns an instance, whatever
    the remote side answers, and never adds a record to the store. *)
Theorem short_timeout_never_provisions (cfg : Config) (env : ProvisionEnv) (s : Pool) :
  vm_ready_timeout cfg < 5 ->
  (create_vm cfg env s).1 = None
  /\ dom (vm_pool (create_vm cfg env s).2) ⊆ dom (vm_pool s)
  /\ available_vms (create_vm cfg env s).2 = available_vms s.
Proof.
  intros Hshort.
  assert (provision cfg env = None) as Hprov.
  { unfold provision, _wait_for_vm_ready.
    replace (Z.to_nat (vm_ready_timeout cfg / 5)) with 0%nat.
    - simpl. by destruct (clone_vm env) as [[]|].
    - assert (vm_ready_timeout cfg / 5 <= 0); [|lia].
      apply Z.lt_succ_r. apply Z.div_lt_upper_bound; lia. }
  destruct (create_vm_paths cfg env s) as [| | |ip rest c ? ? ? Hc]; simpl.
  - done.
  - done.
  - split; [done|]. split; [|done]. rewrite dom_delete_L.
    intros k Hk. by apply elem_of_difference in Hk as [Hk _].
  - congruence.
Qed.

Lemma short_timeout_never_provisions_witness :
  (create_vm {| template_vm_id := 9000;
                subnet := {| network_address := 167772160; prefixlen := 24 |};
                base_ip := 167772170; base_load := 1; users_per_vm := 2;
                max_vms := 3; vm_ready_timeout := 4 |}
     (all_ok 1 "conn-1") scenario_init).1 = None
  /\ (create_vm scenario_cfg (all_ok 1 "conn-1") scenario_init).1 <> None.
Proof.
  split.
  - apply short_timeout_never_provisions. simpl. lia.
  - vm_compute. discriminate.
Defined.

(** ** The success path of the provisioning pipeline *)

Lemma provision_Some_iff cfg env c :
  provision cfg env = Some c <-> provisioning_succeeds cfg env c.
Proof.
  split; [|apply provision_succeeds].
  intros Hprov. pose proof (provision_Some_nonempty _ _ _ Hprov) as Hne.
  unfold provision in Hprov. unfold provisioning_succeeds.
  destruct (clone_vm env) as [[]|]; [|done..].
  destruct (_wait_for_vm_ready _ _); [|done].
  destruct (create_connection env) as [c'|]; [|done].
  destruct (truthy c'); [|done]. by subst c'.
Qed.

Lemma create_vm_Some cfg env s v s' :
  create_vm cfg env s = (Some v, s') ->
  exists ip rest c,
    pool_len s < max_vms cfg /\ ip_pool s = ip :: rest /\ ip <> ""%string
    /\ provision cfg env = Some c
    /\ v = running_record (next_vm_id s) ip (now env) c
    /\ s' = {| vm_pool := <[next_vm_id s := v]> (vm_pool s);
               available_vms := {[next_vm_id s]} ∪ available_vms s;
               next_vm_id := next_vm_id s + 1;
               ip_pool := rest |}.
Proof.
  intros Hcreate. pose proof (create_vm_paths cfg env s) as Hpath.
  rewrite Hcreate in Hpath. inversion Hpath as [| | |ip rest c]; subst.
  by exists ip, rest, c.
Qed.

(** X4. [create_vm] returns an instance exactly when the store is below
    [max_vms], the free list starts with a non-empty address, the clone
    call returns true, a status poll within the timeout reports running
    and the gateway returns a non-empty connection id. The instance is
    then [RUNNING] with no user, carries the old value of the id counter,
    the first free address and the connection id, is stored and
    available; the counter has advanced by one and the address has left
    the free list. *)
Theorem create_vm_succeeds_iff (cfg : Config) (env : ProvisionEnv) (s s' : Pool)
    (v : VMInfo) :
  create_vm cfg env s = (Some v, s')
  <-> exists ip rest c,
        pool_len s < max_vms cfg /\ ip_pool s = ip :: rest /\ ip <> ""%string
        /\ provisioning_succeeds cfg env c
        /\ v = {| id := next_vm_id s;
                  name := ("dynamic-vm-" +:+ str_of_int (next_vm_id s))%string;
                  ip := ip; status := RUNNING;
                  guacamole_connection_id := Some c;
                  created_at := Some (now env);
                  user_count := 0; last_health_check := None |}
        /\ s' = {| vm_pool := <[next_vm_id s := v]> (vm_pool s);
                   available_vms := {[next_vm_id s]} ∪ available_vms s;
                   next_vm_id := next_vm_id s + 1;
                   ip_pool := rest |}.
Proof.
  split.
  - intros (ip & rest & c & ? & ? & ? & Hprov%provision_Some_iff & -> & ->)%create_vm_Some.
    by exists ip, rest, c.
  - intros (ip & rest & c & Hroom & Hip & Hne & Hprov%provision_Some_iff & -> & ->).
    by rewrite (create_vm_created cfg env s ip rest c).
Qed.

(** ** Instance ids *)

Lemma create_vm_next_vm_id cfg env s :
  next_vm_id s <= next_vm_id (create_vm cfg env s).2.
Proof. destruct (create_vm_paths cfg env s); simpl; lia. Qed.

Lemma take_seat_next_vm_id cfg b s :
  next_vm_id (state_of (take_seat cfg b s)) = next_vm_id s.
Proof. unfold take_seat. simpl. by destruct (users_per_vm cfg <=? _). Qed.

Lemma step_next_vm_id cfg s o : next_vm_id s <= next_vm_id (step cfg s o).
Proof.
  destruct o as [env|order env|vm_id|henv|env]; simpl.
  - apply create_vm_next_vm_id.
  - unfold assign_vm_to_user.
    destruct (scan cfg (vm_pool s) order None Inf) as [k|[b|]]; [simpl; lia|..].
    + rewrite take_seat_next_vm_id. lia.
    + pose proof (create_vm_next_vm_id cfg env s) as Hle.
      destruct (create_vm cfg env s) as [[v|] s1]; [|simpl in *; done].
      cbv beta iota. rewrite take_seat_next_vm_id. by simpl in Hle.
  - unfold release_vm_from_user.
    destruct (vm_pool s !! vm_id) as [v|]; [|lia].
    destruct (0 <? user_count v); [|lia]. simpl.
    destruct (_ <? users_per_vm cfg); simpl; lia.
  - destruct (check_vm_health_rest henv s) as [-> _]. lia.
  - unfold _scale_pool_based_on_load.
    destruct (_ && _); [apply create_vm_next_vm_id|lia].
Qed.

Lemma run_next_vm_id cfg ops s : next_vm_id s <= next_vm_id (run cfg ops s).
Proof.
  unfold run. revert s. induction ops as [|o ops IH]; intros s; simpl; [lia|].
  etrans; [apply (step_next_vm_id cfg s o)|apply IH].
Qed.

(** X5. Instance ids are never handed out twice: the id counter never
    decreases under any operation, and of two instances that [create_vm]
    returns, with any operations in between, the later one has the
    strictly larger id. *)
Theorem created_ids_increase (cfg : Config) (ops : list Op)
    (env env' : ProvisionEnv) (s s1 s2 : Pool) (v v' : VMInfo) :
  create_vm cfg env s = (Some v, s1) ->
  create_vm cfg env' (run cfg ops s1) = (Some v', s2) ->
  next_vm_id s <= next_vm_id (run cfg ops s) /\ id v < id v'.
Proof.
  intros (ip & rest & c & _ & _ & _ & _ & -> & ->)%create_vm_Some
         (ip' & rest' & c' & _ & _ & _ & _ & -> & _)%create_vm_Some.
  split; [apply run_next_vm_id|]. simpl.
  pose proof (run_next_vm_id cfg ops
                {| vm_pool := <[next_vm_id s := running_record (next_vm_id s) ip (now env) c]>
                                (vm_pool s);
                   available_vms := {[next_vm_id s]} ∪ available_vms s;
                   next_vm_id := next_vm_id s + 1;
                   ip_pool := rest |}) as Hle.
  simpl in Hle. lia.
Qed.

Lemma created_ids_increase_witness :
  let s1 := (create_vm scenario_cfg (all_ok 1 "conn-1") scenario_init).2 in
  let ops := [AssignVM [100] (all_ok 2 "conn-2"); CreateVM (clone_fails 3);
              ReleaseVM 100] in
  next_vm_id scenario_init <= next_vm_id (run scenario_cfg ops scenario_init)
  /\ 100 < 102.
Proof.
  intros s1 ops.
  apply (created_ids_increase scenario_cfg ops (all_ok 1 "conn-1") (all_ok 4 "conn-4")
           scenario_init s1
           (create_vm scenario_cfg (all_ok 4 "conn-4") (run scenario_cfg ops s1)).2
           (running_record 100 "10.0.0.10" 1 "conn-1")
           (running_record 102 "10.0.0.12" 4 "conn-4")).
  - vm_compute. reflexivity.
  - vm_compute. reflexivity.
Defined.

(** ** Addresses *)

Section addresses.

Context (cfg : Config).

Lemma addresses_ok_ext s s' :
  vm_pool s' = vm_pool s -> ip_pool s' = ip_pool s ->
  addresses_ok s -> addresses_ok s'.
Proof. unfold addresses_ok. by intros -> ->. Qed.

(** Rewriting a record in place without touching its address. *)
Lemma addresses_ok_update s k v v' :
  vm_pool s !! k = Some v -> ip v' = ip v ->
  addresses_ok s -> addresses_ok (with_vm_pool (<[k := v']> (vm_pool s)) s).
Proof.
  intros Hv Hip (Hnd & Hoff & Hdist). split; [done|]. split; simpl.
  - apply map_Forall_insert_2; [|done]. rewrite Hip. by apply (Hoff k v).
  - intros k1 k2 v1 v2.
    destruct (decide (k1 = k)) as [->|H1], (decide (k2 = k)) as [->|H2]; [done|..].
    + rewrite lookup_insert_eq, lookup_insert_ne by done.
      intros [= <-] H2' Heq. apply (Hdist k k2 v v2); congruence.
    + rewrite lookup_insert_eq, lookup_insert_ne by done.
      intros H1' [= <-] Heq. apply (Hdist k1 k v1 v); congruence.
    + rewrite !lookup_insert_ne by done. apply Hdist.
Qed.

Lemma release_ip_elem_of ip free a : a ∈ release_ip ip free <-> a = ip \/ a ∈ free.
Proof.
  unfold release_ip. case_bool_decide as Hin.
  - split; [by right|]. by intros [->|?].
  - rewrite elem_of_app, list_elem_of_singleton. tauto.
Qed.

Lemma create_vm_addresses env s :
  addresses_ok s -> addresses_ok (create_vm cfg env s).2.
Proof.
  intros (Hnd & Hoff & Hdist).
  destruct (create_vm_paths cfg env s) as [|ips ? Hips|ip rest ? Hip|ip rest c ? Hip];
    simpl.
  - done.
  - destruct Hips as [[_ ->]|Hips].
    + split; [constructor|]. split; [|done].
      intros k v Hv. simpl. apply not_elem_of_nil.
    + rewrite Hips in Hnd, Hoff. apply NoDup_cons in Hnd as [_ Hnd].
      split; [done|]. split; [|done].
      intros k v Hv Hin. apply (Hoff k v Hv). by right.
  - rewrite Hip in Hnd, Hoff. apply NoDup_cons in Hnd as [Hfresh Hnd].
    split; [by apply release_ip_NoDup|]. split; simpl.
    + intros k v [_ Hv]%lookup_delete_Some [Heq|Hin]%release_ip_elem_of.
      * apply (Hoff k v Hv). rewrite Heq. left.
      * apply (Hoff k v Hv). by right.
    + intros k1 k2 v1 v2 [_ Hv1]%lookup_delete_Some [_ Hv2]%lookup_delete_Some.
      by apply Hdist.
  - rewrite Hip in Hnd, Hoff. apply NoDup_cons in Hnd as [Hfresh Hnd].
    split; [done|]. split; simpl.
    + apply map_Forall_insert_2; [done|].
      intros k v Hv Hin. apply (Hoff k v Hv). by right.
    + intros k1 k2 v1 v2.
      destruct (decide (k1 = next_vm_id s)) as [->|Hne1],
               (decide (k2 = next_vm_id s)) as [->|Hne2]; [done|..].
      * rewrite lookup_insert_eq, lookup_insert_ne by done.
        intros [= <-] Hv2 Heq. exfalso. apply (Hoff k2 v2 Hv2).
        simpl in Heq. rewrite <- Heq. left.
      * rewrite lookup_insert_eq, lookup_insert_ne by done.
        intros Hv1 [= <-] Heq. exfalso. apply (Hoff k1 v1 Hv1).
        simpl in Heq. rewrite Heq. left.
      * rewrite !lookup_insert_ne by done. apply Hdist.
Qed.

Lemma take_seat_addresses b s :
  vm_pool s !! id b = Some b ->
  addresses_ok s -> addresses_ok (state_of (take_seat cfg b s)).
Proof.
  intros Hstored Hok. unfold take_seat. simpl.
  pose proof (addresses_ok_update s (id b) b (set_user_count (user_count b + 1) b)
                Hstored eq_refl Hok) as Hok'.
  destruct (users_per_vm cfg <=? user_count b + 1); [|done].
  by apply (addresses_ok_ext _ _ eq_refl eq_refl Hok').
Qed.

Lemma release_addresses vm_id s :
  addresses_ok s -> addresses_ok (release_vm_from_user cfg vm_id s).
Proof.
  intros Hok. unfold release_vm_from_user.
  destruct (vm_pool s !! vm_id) as [v|] eqn:Hv; [|done].
  destruct (0 <? user_count v); [|done]. simpl.
  pose proof (addresses_ok_update s vm_id v (set_user_count (user_count v - 1) v)
                Hv eq_refl Hok) as Hok'.
  destruct (user_count v - 1 <? users_per_vm cfg); [|done].
  by apply (addresses_ok_ext _ _ eq_refl eq_refl Hok').
Qed.

Lemma health_addresses henv s :
  addresses_ok s -> addresses_ok (_check_vm_health henv s).
Proof.
  intros (Hnd & Hoff & Hdist). unfold addresses_ok.
  destruct (check_vm_health_rest henv s) as [_ ->].
  split; [done|]. split.
  - apply check_vm_health_map_Forall; [|done].
    intros k v. by destruct (visit_fields henv k v) as (_ & _ & -> & _).
  - intros k1 k2 v1' v2'. rewrite !check_vm_health_lookup.
    destruct (vm_pool s !! k1) as [v1|] eqn:H1; [|done].
    destruct (vm_pool s !! k2) as [v2|] eqn:H2; [|done].
    intros [= <-] [= <-].
    destruct (visit_fields henv k1 v1) as (_ & _ & -> & _).
    destruct (visit_fields henv k2 v2) as (_ & _ & -> & _).
    by apply Hdist.
Qed.

End addresses.

Lemma release_keyed cfg vm_id s : keyed s -> keyed (release_vm_from_user cfg vm_id s).
Proof.
  intros Hk. unfold release_vm_from_user.
  destruct (vm_pool s !! vm_id) as [v|] eqn:Hv; [|done].
  destruct (0 <? user_count v); [|done]. simpl.
  pose proof (Hk _ _ Hv) as Hid. simpl in Hid.
  destruct (user_count v - 1 <? users_per_vm cfg); by apply map_Forall_insert_2.
Qed.

Lemma health_keyed henv s : keyed s -> keyed (_check_vm_health henv s).
Proof.
  intros Hk. apply check_vm_health_map_Forall; [|done].
  intros k v. by destruct (visit_fields henv k v) as (-> & _).
Qed.

(** A property kept by the four building blocks is kept, together
    with [keyed], by every operation. *)
Lemma step_preserves (P : Pool -> Prop) cfg s o :
  (forall env s, P s -> P (create_vm cfg env s).2) ->
  (forall b s, vm_pool s !! id b = Some b -> P s -> P (state_of (take_seat cfg b s))) ->
  (forall vm_id s, keyed s -> P s -> P (release_vm_from_user cfg vm_id s)) ->
  (forall henv s, P s -> P (_check_vm_health henv s)) ->
  keyed s /\ P s -> keyed (step cfg s o) /\ P (step cfg s o).
Proof.
  intros Hcreate Hseat Hrelease Hhealth [Hk HP].
  destruct o as [env|order env|vm_id|henv|env]; simpl.
  - split; [by apply create_vm_keyed|by apply Hcreate].
  - apply (assign_preserves_stored cfg (fun s => keyed s /\ P s)); try done.
    + intros _. split; [by apply create_vm_keyed|].
      split; [by apply create_vm_keyed|by apply Hcreate].
    + intros b s' Hstored _ [Hk' HP'].
      split; [by apply take_seat_keyed|by apply Hseat].
  - split; [by apply release_keyed|by apply Hrelease].
  - split; [by apply health_keyed|by apply Hhealth].
  - unfold _scale_pool_based_on_load. destruct (_ && _); [|done].
    split; [by apply create_vm_keyed|by apply Hcreate].
Qed.

Lemma run_preserves (P : Pool -> Prop) cfg ops s :
  (forall env s, P s -> P (create_vm cfg env s).2) ->
  (forall b s, vm_pool s !! id b = Some b -> P s -> P (state_of (take_seat cfg b s))) ->
  (forall vm_id s, keyed s -> P s -> P (release_vm_from_user cfg vm_id s)) ->
  (forall henv s, P s -> P (_check_vm_health henv s)) ->
  keyed s /\ P s -> keyed (run cfg ops s) /\ P (run cfg ops s).
Proof.
  intros Hcreate Hseat Hrelease Hhealth. unfold run. revert s.
  induction ops as [|o ops IH]; intros s Hs; simpl; [done|].
  by apply IH, step_preserves.
Qed.

(** X6. Addresses are never shared. From a pool in which the free list
    has no duplicates, no stored record holds a free address and no two
    records hold the same address, every sequence of [create_vm],
    [assign_vm_to_user], [release_vm_from_user], health passes and
    scaling passes keeps all three; in particular the address
    [get_next_ip] would hand out next is the address of no stored
    record. *)
Theorem addresses_never_shared (cfg : Config) (ops : list Op) (s : Pool) :
  keyed s -> addresses_ok s ->
  addresses_ok (run cfg ops s)
  /\ (forall a k v,
        (get_next_ip (ip_pool (run cfg ops s))).1 = Some a ->
        vm_pool (run cfg ops s) !! k = Some v -> ip v <> a).
Proof.
  intros Hk Hok.
  assert (addresses_ok (run cfg ops s)) as Hok'.
  { apply (run_preserves addresses_ok cfg ops s); try done.
    - apply create_vm_addresses.
    - apply take_seat_addresses.
    - intros vm_id s' _. apply release_addresses.
    - apply health_addresses. }
  split; [done|]. intros a k v Hnext Hv Heq.
  destruct Hok' as (_ & Hoff & _). apply (Hoff k v Hv). rewrite Heq.
  destruct (ip_pool (run cfg ops s)) as [|a' rest]; [done|].
  simpl in Hnext. injection Hnext as ->. left.
Qed.

Lemma addresses_never_shared_witness :
  let ops := [AssignVM [] (all_ok 1 "conn-1"); CreateVM (clone_fails 2);
              AssignVM [100] (all_ok 3 "conn-3"); AssignVM [] (all_ok 4 "conn-4")] in
  addresses_ok scenario_init /\ addresses_ok (run scenario_cfg ops scenario_init).
Proof.
  intros ops.
  assert (addresses_ok scenario_init) as Hok.
  { split; [apply (bool_decide_unpack _); vm_compute; exact I|].
    split; [apply map_Forall_empty|]. intros k1 k2 v1 v2 Hv1. simpl in Hv1.
    by rewrite lookup_empty in Hv1. }
  split; [exact Hok|].
  apply (addresses_never_shared scenario_cfg ops scenario_init); [|exact Hok].
  apply map_Forall_empty.
Defined.

(** ** Printed addresses are distinct *)

Section printing.

Lemma to_uint_nonnil n : N.to_uint n <> Decimal.Nil.
Proof. destruct n as [|p]; [done|]. apply DecimalPos.Unsigned.to_uint_nonnil. Qed.

Lemma str_of_int_inj a b :
  0 <= a -> 0 <= b -> str_of_int a = str_of_int b -> a = b.
Proof.
  intros Ha Hb. unfold str_of_int.
  rewrite (proj2 (Z.ltb_ge a 0)), (proj2 (Z.ltb_ge b 0)) by done.
  intros Heq. apply (f_equal NilZero.uint_of_string) in Heq.
  rewrite !NilZero.usu in Heq by apply to_uint_nonnil.
  injection Heq as Heq. apply DecimalN.Unsigned.to_uint_inj in Heq.
  by apply Z2N.inj.
Qed.

Lemma no_dot_digits d : no_dot (NilEmpty.string_of_uint d) = true.
Proof. induction d; simpl; rewrite ?IHd; reflexivity. Qed.

Lemma no_dot_str_of_int a : 0 <= a -> no_dot (str_of_int a) = true.
Proof.
  intros Ha. unfold str_of_int. rewrite (proj2 (Z.ltb_ge a 0)) by done.
  unfold NilZero.string_of_uint.
  destruct (N.to_uint (Z.to_N a)) eqn:Hd; try apply no_dot_digits. done.
Qed.

Lemma join_inj s1 s2 r1 r2 :
  no_dot s1 = true -> no_dot s2 = true ->
  (s1 +:+ "." +:+ r1 = s2 +:+ "." +:+ r2)%string -> s1 = s2 /\ r1 = r2.
Proof.
  revert s2. induction s1 as [|c s1 IH]; intros [|c' s2]; cbn.
  - intros _ _ [= Heq]. done.
  - intros _ Hdot [= Hc _]. subst c'. by vm_compute in Hdot.
  - intros Hdot _ [= Hc _]. subst c. by vm_compute in Hdot.
  - intros [_ H1]%andb_prop [_ H2]%andb_prop [= -> Hrest].
    destruct (IH s2 H1 H2 Hrest) as [-> ->]. done.
Qed.

Lemma octet_range a i : 0 <= i -> 0 <= octet a i < 256.
Proof.
  intros Hi. unfold octet. change 255 with (Z.ones 8).
  rewrite Z.land_ones by lia. apply Z.mod_pos_bound. lia.
Qed.

Lemma octets_inj a b :
  0 <= a < 2 ^ 32 -> 0 <= b < 2 ^ 32 ->
  octet a 3 = octet b 3 -> octet a 2 = octet b 2 ->
  octet a 1 = octet b 1 -> octet a 0 = octet b 0 -> a = b.
Proof.
  unfold octet. change 255 with (Z.ones 8).
  rewrite !Z.land_ones, !Z.shiftr_div_pow2 by lia.
  change (8 * 3) with 24. change (8 * 2) with 16. change (8 * 1) with 8.
  change (8 * 0) with 0. change (2 ^ 0) with 1. rewrite !Z.div_1_r.
  change (2 ^ 8) with 256. change (2 ^ 16) with 65536.
  change (2 ^ 24) with 16777216. change (2 ^ 32) with 4294967296.
  intros Ha Hb H3 H2 H1 H0. Z.to_euclidean_division_equations. lia.
Qed.

Lemma str_of_ipv4_inj a b :
  0 <= a < 2 ^ 32 -> 0 <= b < 2 ^ 32 -> str_of_ipv4 a = str_of_ipv4 b -> a = b.
Proof.
  intros Ha Hb. unfold str_of_ipv4. intros Heq.
  assert (forall x i, 0 <= i -> no_dot (str_of_int (octet x i)) = true) as Hdot.
  { intros x i Hi. apply no_dot_str_of_int. by apply octet_range. }
  assert (forall x y i, 0 <= i -> str_of_int (octet x i) = str_of_int (octet y i) ->
                        octet x i = octet y i) as Hinj.
  { intros x y i Hi. apply str_of_int_inj; by apply octet_range. }
  apply join_inj in Heq as [H3 Heq]; [|apply Hdot; lia..].
  apply join_inj in Heq as [H2 Heq]; [|apply Hdot; lia..].
  apply join_inj in Heq as [H1 H0]; [|apply Hdot; lia..].
  apply octets_inj; try done; apply Hinj; (done || lia).
Qed.

(** The walk never prints an address past 255.255.255.255. *)
Lemma walk_range network fuel a ips :
  walk network fuel a = Some ips ->
  exists k : nat,
    ips = str_of_ipv4 <$> consecutive a k
    /\ (k = 0%nat \/ a + Z.of_nat k <= ALL_ONES).
Proof.
  revert a ips. induction fuel as [|fuel IH]; intros a ips; simpl.
  - intros [= <-]. exists 0%nat. auto.
  - destruct (in_network a network); [|intros [= <-]; exists 0%nat; auto].
    destruct (ALL_ONES <? a + 1) eqn:Hmax; [done|]. apply Z.ltb_ge in Hmax.
    destruct (walk network fuel (a + 1)) as [ips'|] eqn:Hw; [|done].
    intros [= <-]. destruct (IH _ _ Hw) as (k & -> & Hk).
    exists (S k). split; [done|]. right. destruct Hk as [->|Hk]; lia.
Qed.

End printing.

Section startup_addresses.

Context (cfg : Config).

Lemma create_missing_addresses envs n i s :
  keyed s -> addresses_ok s ->
  keyed (create_missing cfg envs n i s) /\ addresses_ok (create_missing cfg envs n i s).
Proof.
  revert i s. induction n as [|n IH]; intros i s Hk Hok; simpl; [done|].
  apply IH; [by apply create_vm_keyed|by apply create_vm_addresses].
Qed.

(** Registration leaves the free list alone and stores every instance
    under its id with the address 192.168.1.<id>. *)
Lemma register_existing_fallback senv free vms s :
  Forall (fun vm => 0 <= vmid vm
                    /\ ("192.168.1." +:+ str_of_int (vmid vm))%string ∉ free) vms ->
  ip_pool s = free ->
  map_Forall (fun k v => id v = k /\ 0 <= k
                         /\ ip v = ("192.168.1." +:+ str_of_int k)%string
                         /\ ip v ∉ free) (vm_pool s) ->
  ip_pool (register_existing cfg senv vms s) = free
  /\ map_Forall (fun k v => id v = k /\ 0 <= k
                            /\ ip v = ("192.168.1." +:+ str_of_int k)%string
                            /\ ip v ∉ free)
       (vm_pool (register_existing cfg senv vms s)).
Proof.
  unfold register_existing. intros Hvms. revert s.
  induction Hvms as [|vm vms [Hpos Hoff] _ IH]; intros s Hfree Hall; simpl; [done|].
  apply IH.
  - case_bool_decide; [|done]. unfold _register_existing_vm.
    destruct (status_at_startup senv (vmid vm)) as [st|]; [|done].
    by destruct (is_running st).
  - case_bool_decide; [|done]. unfold _register_existing_vm.
    destruct (status_at_startup senv (vmid vm)) as [st|]; [|done].
    destruct (is_running st); [|done]. simpl.
    by apply map_Forall_insert_2.
Qed.

Lemma fallback_addresses_ok s :
  NoDup (ip_pool s) ->
  map_Forall (fun k v => id v = k /\ 0 <= k
                         /\ ip v = ("192.168.1." +:+ str_of_int k)%string
                         /\ ip v ∉ ip_pool s) (vm_pool s) ->
  keyed s /\ addresses_ok s.
Proof.
  intros Hnd Hall. split; [|split; [done|split]].
  - intros k v Hv. by destruct (Hall k v Hv).
  - intros k v Hv. by destruct (Hall k v Hv) as (_ & _ & _ & ?).
  - intros k1 k2 v1 v2 Hv1 Hv2 Heq.
    destruct (Hall k1 v1 Hv1) as (_ & Hpos1 & Hip1 & _).
    destruct (Hall k2 v2 Hv2) as (_ & Hpos2 & Hip2 & _).
    rewrite Hip1, Hip2 in Heq. simpl in Heq. injection Heq as Heq.
    by apply str_of_int_inj.
Qed.

End startup_addresses.

(** X7. The pool computed by [_initialize_ip_pool] from a base address
    that is a valid IPv4 address holds no address twice (the dotted
    quads of distinct 32-bit addresses are distinct strings), so the pool
    that [__init__] builds has no shared address and keeps that under
    every sequence of operations. The same holds for the pool that
    [ensure_base_load] leaves, provided every instance the node lists has
    a non-negative id [k] whose address 192.168.1.k, which registration
    assigns without looking at the free list, is not in the startup
    pool. *)
Theorem startup_pool_has_no_duplicates (cfg : Config) (senv : StartupEnv)
    (s : Pool) (ops : list Op) :
  0 <= base_ip cfg -> init cfg = Some s ->
  NoDup (ip_pool s)
  /\ addresses_ok (run cfg ops s)
  /\ ((forall vms,
         list_vms senv = Listed vms ->
         Forall (fun vm => 0 <= vmid vm
                           /\ ("192.168.1." +:+ str_of_int (vmid vm))%string
                              ∉ ip_pool s) vms) ->
      addresses_ok (run cfg ops (ensure_base_load cfg senv s))).
Proof.
  intros Hbase Hinit.
  assert (vm_pool s = ∅) as Hstore.
  { unfold init in Hinit. destruct (_initialize_ip_pool cfg); [|done].
    by injection Hinit as <-. }
  unfold init, _initialize_ip_pool in Hinit.
  destruct (walk (subnet cfg) (Z.to_nat (max_vms cfg)) (base_ip cfg)) as [ips|] eqn:Hw;
    [|done].
  assert (NoDup (ip_pool s)) as Hnd.
  { injection Hinit as <-. simpl.
    destruct (walk_range _ _ _ _ Hw) as (k & -> & Hk).
    apply NoDup_fmap_2_strong.
    - intros x y Hx%consecutive_bounds Hy%consecutive_bounds.
      unfold ALL_ONES in Hk. apply str_of_ipv4_inj; lia.
    - pose proof (consecutive_ascending (base_ip cfg) k) as Hasc.
      unfold ascending in Hasc. clear -Hasc.
      induction Hasc as [|x l _ IH Hall]; constructor; [|done].
      intros Hin. rewrite Forall_forall in Hall. specialize (Hall x Hin). lia. }
  assert (forall s', keyed s' /\ addresses_ok s' -> addresses_ok (run cfg ops s'))
    as Hrun.
  { intros s' Hs'. apply (run_preserves addresses_ok cfg ops); [..|done].
    - apply create_vm_addresses.
    - apply take_seat_addresses.
    - intros vm_id s'' _. apply release_addresses.
    - apply health_addresses. }
  assert (keyed s /\ addresses_ok s) as Hstart.
  { apply fallback_addresses_ok; [done|]. rewrite Hstore. apply map_Forall_empty. }
  split; [done|]. split; [by apply Hrun|].
  intros Hlisted. apply Hrun. unfold ensure_base_load.
  destruct (list_vms senv) as [vms|]; [|done]. cbv zeta.
  destruct (register_existing_fallback cfg senv (ip_pool s)
              (filter (fun vm => is_running (listed_status vm) = true) vms) s)
    as [Hfree Hall]; [|done|..].
  - apply Forall_forall. intros vm [_ Hin]%list_elem_of_filter.
    pose proof (Hlisted vms eq_refl) as Hvms. rewrite Forall_forall in Hvms.
    by apply Hvms.
  - rewrite Hstore. apply map_Forall_empty.
  - apply create_missing_addresses; apply fallback_addresses_ok;
      rewrite ?Hfree; done.
Qed.

Lemma startup_pool_has_no_duplicates_witness :
  NoDup (ip_pool scenario_init)
  /\ addresses_ok (run scenario_cfg [CreateVM (all_ok 1 "conn-1")] scenario_init)
  /\ addresses_ok (run scenario_cfg [CreateVM (all_ok 1 "conn-1")] scenario_registered).
Proof.
  destruct (startup_pool_has_no_duplicates scenario_cfg
              (node_with scenario_cfg 100 (fun _ => clone_fails 0)) scenario_init
              [CreateVM (all_ok 1 "conn-1")]) as (Hnd & Hinit & Hstartup).
  - simpl. lia.
  - reflexivity.
  - split; [done|]. split; [done|]. apply Hstartup.
    intros vms [= <-]. repeat constructor; try (simpl; lia);
      apply (bool_decide_unpack _); vm_compute; exact I.
Defined.

(** ** Counting users *)

Section counting.

Lemma users_in_empty : users_in ∅ = 0.
Proof. unfold users_in. by rewrite map_fold_empty. Qed.

Lemma users_in_insert_None m k v :
  m !! k = None -> users_in (<[k := v]> m) = user_count v + users_in m.
Proof.
  intros Hk. unfold users_in. rewrite map_fold_insert_L; [done| |done].
  intros. lia.
Qed.

Lemma users_in_delete m k v :
  m !! k = Some v -> users_in m = user_count v + users_in (delete k m).
Proof.
  intros Hk. unfold users_in.
  rewrite (map_fold_delete_L _ _ k v m); [done| |done]. intros. lia.
Qed.

Lemma users_in_update m k v v' :
  m !! k = Some v ->
  users_in (<[k := v']> m) = users_in m - user_count v + user_count v'.
Proof.
  intros Hk. rewrite <- insert_delete_eq.
  rewrite users_in_insert_None by apply lookup_delete_eq.
  rewrite (users_in_delete m k v Hk). lia.
Qed.

(** The sum only depends on the user counts. *)
Lemma users_in_ext m m' :
  (forall k, user_count <$> m !! k = user_count <$> m' !! k) ->
  users_in m = users_in m'.
Proof.
  revert m'. induction m as [|k v m Hk IH] using map_ind; intros m' Hsame.
  - assert (m' = ∅) as ->; [|done]. apply map_empty. intros k.
    specialize (Hsame k). rewrite lookup_empty in Hsame.
    by destruct (m' !! k).
  - pose proof (Hsame k) as Hkk. rewrite lookup_insert_eq in Hkk.
    destruct (m' !! k) as [v'|] eqn:Hv'; [|done]. injection Hkk as Hcount.
    rewrite users_in_insert_None by done.
    rewrite (users_in_delete m' k v' Hv'), Hcount. f_equal.
    apply IH. intros j. destruct (decide (j = k)) as [->|Hne].
    + by rewrite Hk, lookup_delete_eq.
    + rewrite lookup_delete_ne by done. specialize (Hsame j).
      by rewrite lookup_insert_ne in Hsame.
Qed.

(** Every available instance leaves a seat free. *)
Lemma users_in_bound upv m (A : gset Z) :
  map_Forall (fun _ v => 0 <= user_count v <= upv) m ->
  set_Forall (fun k => exists v, m !! k = Some v /\ user_count v < upv) A ->
  0 <= users_in m /\ users_in m + Z.of_nat (size A) <= Z.of_nat (size m) * upv.
Proof.
  revert A. induction m as [|k v m Hk IH] using map_ind; intros A Hb Ha.
  - rewrite users_in_empty, map_size_empty.
    assert (A = ∅) as ->.
    { apply set_eq. intros j. split; [|by intros ?%not_elem_of_empty].
      intros Hj. destruct (Ha j Hj) as (w & Hw & _). by rewrite lookup_empty in Hw. }
    rewrite size_empty. lia.
  - apply map_Forall_insert in Hb as [Hv Hb]; [|done].
    rewrite users_in_insert_None, map_size_insert_None by done.
    destruct (IH (A ∖ {[k]}) Hb) as [Hpos Hle].
    { intros j [Hj Hne]%elem_of_difference.
      destruct (Ha j Hj) as (w & Hw & Hroom). exists w. split; [|done].
      rewrite lookup_insert_ne in Hw; [done|].
      intros ->. apply Hne. by apply elem_of_singleton. }
    split; [lia|]. destruct (decide (k ∈ A)) as [Hin|Hout].
    + destruct (Ha k Hin) as (w & Hw & Hroom).
      rewrite lookup_insert_eq in Hw. injection Hw as <-.
      assert (size A = S (size (A ∖ {[k]}))) as ->.
      { rewrite size_difference by (by apply singleton_subseteq_l).
        rewrite size_singleton.
        assert (size A <> 0%nat); [|lia].
        intros Hz%size_empty_inv. apply (not_elem_of_empty (C := gset Z) k).
        by rewrite <- Hz. }
      lia.
    + assert (A ∖ {[k]} = A) as Heq.
      { apply set_eq. intros j. rewrite elem_of_difference, elem_of_singleton.
        split; [by intros [? _]|]. intros Hj. split; [done|]. by intros ->. }
      rewrite Heq in Hle. lia.
Qed.

End counting.

(** X8. The numbers [get_pool_status] reports fit together whenever
    every user count is within [[0, users_per_vm]] and every available
    id names a stored record with room: [total_users] is not negative,
    [total_users + available_vms <= total_vms * users_per_vm] (every
    available instance leaves a seat free), [available_vms <= total_vms],
    and [vms] has one entry per record. *)
Theorem pool_status_consistent (cfg : Config) (s : Pool) :
  occupancy_bounded cfg s -> available_has_room cfg s ->
  0 <= PoolStatus.total_users (get_pool_status s)
  /\ PoolStatus.total_users (get_pool_status s)
     + PoolStatus.available_vms (get_pool_status s)
     <= PoolStatus.total_vms (get_pool_status s) * users_per_vm cfg
  /\ 0 <= PoolStatus.available_vms (get_pool_status s)
       <= PoolStatus.total_vms (get_pool_status s)
  /\ Z.of_nat (length (PoolStatus.vms (get_pool_status s)))
     = PoolStatus.total_vms (get_pool_status s).
Proof.
  intros Hb Ha. simpl. unfold pool_len.
  destruct (users_in_bound (users_per_vm cfg) (vm_pool s) (available_vms s) Hb Ha)
    as [Hpos Hle].
  split; [done|]. split; [done|]. split.
  - split; [lia|]. apply inj_le.
    rewrite <- (size_dom (D := gset Z)). apply subseteq_size.
    intros k Hk. destruct (Ha k Hk) as (v & Hv & _).
    apply elem_of_dom. by eexists.
  - by rewrite !length_fmap, length_map_to_list.
Qed.

Lemma pool_status_consistent_witness :
  PoolStatus.total_users (get_pool_status two_instances)
  + PoolStatus.available_vms (get_pool_status two_instances)
  <= PoolStatus.total_vms (get_pool_status two_instances) * users_per_vm scenario_cfg
  /\ PoolStatus.total_users (get_pool_status two_instances) = 3.
Proof.
  split; [|by vm_compute].
  apply (pool_status_consistent scenario_cfg two_instances).
  - apply (bool_decide_unpack _). vm_compute. exact I.
  - intros k Hk.
    assert (k = 101) as ->.
    { assert (available_vms two_instances = {[101]}) as Heq by (by vm_compute).
      rewrite Heq in Hk. by apply elem_of_singleton in Hk. }
    eexists. split; [by vm_compute|]. unfold has_room. simpl. lia.
Defined.

(** ** Accounting of assigned users *)

Section accounting.

Context (cfg : Config).

Lemma fresh_next_vm_id s : fresh_ids s -> vm_pool s !! next_vm_id s = None.
Proof.
  intros Hf. destruct (vm_pool s !! next_vm_id s) as [v|] eqn:Hv; [|done].
  specialize (Hf _ _ Hv). simpl in Hf. lia.
Qed.

Lemma create_vm_total_users env s :
  fresh_ids s -> total_users (create_vm cfg env s).2 = total_users s.
Proof.
  intros Hf%fresh_next_vm_id. unfold total_users. fold (users_in (vm_pool s)).
  destruct (create_vm_paths cfg env s); simpl; try done.
  - by rewrite delete_id.
  - change (map_fold _ 0 ?m) with (users_in m).
    rewrite users_in_insert_None by done. simpl. lia.
Qed.

Lemma take_seat_total_users b s :
  vm_pool s !! id b = Some b ->
  total_users (state_of (take_seat cfg b s)) = total_users s + 1.
Proof.
  intros Hb. unfold take_seat, total_users. simpl.
  fold (users_in (vm_pool s)).
  assert (users_in (<[id b := set_user_count (user_count b + 1) b]> (vm_pool s))
          = users_in (vm_pool s) + 1) as Hsum.
  { rewrite (users_in_update _ _ b) by done. simpl. lia. }
  by destruct (users_per_vm cfg <=? user_count b + 1).
Qed.

Lemma release_total_users vm_id s :
  total_users (release_vm_from_user cfg vm_id s)
  = total_users s + users_delta cfg s (ReleaseVM vm_id).
Proof.
  unfold release_vm_from_user, users_delta.
  destruct (vm_pool s !! vm_id) as [v|] eqn:Hv; [|lia].
  destruct (0 <? user_count v); [|lia]. unfold total_users.
  fold (users_in (vm_pool s)).
  assert (users_in (<[vm_id := set_user_count (user_count v - 1) v]> (vm_pool s))
          = users_in (vm_pool s) + -1) as Hsum.
  { rewrite (users_in_update _ _ v) by done. simpl. lia. }
  simpl. by destruct (user_count v - 1 <? users_per_vm cfg).
Qed.

Lemma health_total_users henv s :
  total_users (_check_vm_health henv s) = total_users s.
Proof.
  unfold total_users. apply (users_in_ext _ (vm_pool s)). intros k.
  rewrite check_vm_health_lookup. destruct (vm_pool s !! k) as [v|]; [|done].
  simpl. by destruct (visit_fields henv k v) as (_ & _ & _ & _ & _ & ->).
Qed.

End accounting.

(** X9. Assigned users are accounted for exactly. In a pool whose
    records sit under their own ids, all below the id counter, an
    [assign_vm_to_user] that returns an instance raises the sum of the
    user counts by one, a [release_vm_from_user] of a stored instance
    that holds a user lowers it by one, and nothing else changes it:
    not a failed assignment, not a release of an absent or idle
    instance, not [create_vm], not a health or scaling pass. *)
Theorem total_users_accounting (cfg : Config) (s : Pool) (o : Op) :
  keyed s -> fresh_ids s ->
  total_users (step cfg s o) = total_users s + users_delta cfg s o.
Proof.
  intros Hk Hf. destruct o as [env|order env|vm_id|henv|env].
  - simpl. rewrite create_vm_total_users by done. lia.
  - simpl. unfold assign_vm_to_user.
    destruct (scan cfg (vm_pool s) order None Inf) as [k|[b|]] eqn:Hscan.
    + simpl. lia.
    + apply scan_result in Hscan as [[=]|(k & _ & Hkb & _)].
      rewrite take_seat_total_users by (by rewrite (Hk _ _ Hkb)).
      unfold take_seat. done.
    + pose proof (create_vm_total_users cfg env s Hf) as Htot.
      pose proof (create_vm_result cfg env s) as Hres.
      destruct (create_vm cfg env s) as [[v|] s1]; simpl in Htot, Hres.
      * destruct (Hres v eq_refl) as (Hv & _).
        rewrite take_seat_total_users by done. rewrite Htot.
        unfold take_seat. done.
      * simpl. lia.
  - apply release_total_users.
  - simpl. rewrite health_total_users. lia.
  - simpl. unfold _scale_pool_based_on_load.
    destruct (_ && _); [|lia]. rewrite create_vm_total_users by done. lia.
Qed.

Lemma total_users_accounting_witness :
  total_users (step scenario_cfg two_instances (AssignVM [101] (all_ok 4 "conn-4")))
  = total_users two_instances + 1
  /\ total_users (step scenario_cfg two_instances (ReleaseVM 7))
     = total_users two_instances + 0.
Proof.
  assert (keyed two_instances) as Hk
    by (apply (bool_decide_unpack _); vm_compute; exact I).
  assert (fresh_ids two_instances) as Hf
    by (apply (bool_decide_unpack _); vm_compute; exact I).
  split.
  - apply (total_users_accounting scenario_cfg two_instances
             (AssignVM [101] (all_ok 4 "conn-4")) Hk Hf).
  - apply (total_users_accounting scenario_cfg two_instances (ReleaseVM 7) Hk Hf).
Defined.

(** ** Assignment and release *)

Section assign_release.

Context (cfg : Config).

(** With an eligible record in the available set the scan finds one. *)
Lemma scan_finds order s :
  set_Forall (fun k => is_Some (vm_pool s !! k)) (available_vms s) ->
  iterates order s ->
  (exists k v, k ∈ available_vms s /\ vm_pool s !! k = Some v /\ eligible cfg v) ->
  exists k b,
    scan cfg (vm_pool s) order None Inf = inr (Some b)
    /\ k ∈ available_vms s /\ vm_pool s !! k = Some b /\ eligible cfg b.
Proof.
  intros Hstored Hiter (k0 & v0 & Hk0 & Hv0 & Hel0).
  assert (forall j, j ∈ order <-> j ∈ available_vms s) as Hmem.
  { intros j. unfold iterates in Hiter. rewrite Hiter. apply elem_of_elements. }
  destruct (scan_no_key_error cfg (vm_pool s) order None Inf) as [r Hscan].
  { intros j Hj%Hmem. by apply Hstored. }
  destruct r as [b|].
  - pose proof Hscan as Hres.
    apply scan_result in Hres as [[=]|(k & Hk%Hmem & Hkb & Hel)].
    by exists k, b.
  - apply (scan_spec cfg (vm_pool s) order None None) in Hscan as [_ Hnone].
    exfalso. apply (Hnone k0 v0); [by apply Hmem|done..].
Qed.

Lemma set_user_count_undo b :
  set_user_count (user_count b + 1 - 1) (set_user_count (user_count b + 1) b) = b.
Proof. destruct b. unfold set_user_count. simpl. f_equal. lia. Qed.

(** The scan raises at the first id it visits that names no record. *)
Lemma scan_key_error pool order best m :
  (exists k, k ∈ order /\ pool !! k = None) ->
  exists k, k ∈ order /\ pool !! k = None /\ scan cfg pool order best m = inl k.
Proof.
  revert best m. induction order as [|k0 order IH]; intros best m (k & Hin & Hk).
  - by apply elem_of_nil in Hin.
  - simpl. destruct (pool !! k0) as [v|] eqn:Hv.
    + assert (exists k, k ∈ order /\ pool !! k = None) as Hrest.
      { exists k. split; [|done].
        apply elem_of_cons in Hin as [->|?]; [congruence|done]. }
      destruct (better cfg v m);
        [destruct (IH (Some v) (Fin (user_count v)) Hrest) as (k' & ? & ? & ->)
        |destruct (IH best m Hrest) as (k' & ? & ? & ->)];
        exists k'; (split; [by right|done]).
    + exists k0. split; [left|done].
Qed.

End assign_release.

(** X10. Assignment and release cancel out. In a pool whose records
    sit under their own ids with user counts within [[0, users_per_vm]],
    when every available id names a stored record and one of these
    records is eligible, [assign_vm_to_user] returns an instance without
    provisioning, and a [release_vm_from_user] of that instance right
    afterwards gives back exactly the pool the assignment started from:
    store, available set, id counter and free list. When instead some
    available id names no stored record, [assign_vm_to_user] raises
    [KeyError] on such an id and leaves the pool as it was. *)
Theorem assign_then_release_restores (cfg : Config) (order : list Z)
    (env : ProvisionEnv) (s : Pool) :
  keyed s -> occupancy_bounded cfg s -> iterates order s ->
  (available_stored s ->
   (exists k v, k ∈ available_vms s /\ vm_pool s !! k = Some v /\ eligible cfg v) ->
   exists vm s1,
     assign_vm_to_user cfg order env s = Returns (Some vm) s1
     /\ release_vm_from_user cfg (id vm) s1 = s)
  /\ ((exists k, k ∈ available_vms s /\ vm_pool s !! k = None) ->
      exists k,
        k ∈ available_vms s /\ vm_pool s !! k = None
        /\ assign_vm_to_user cfg order env s = RaisesKeyError k s).
Proof.
  intros Hk Hb Hiter.
  assert (forall j, j ∈ order <-> j ∈ available_vms s) as Hmem.
  { intros j. unfold iterates in Hiter. rewrite Hiter. apply elem_of_elements. }
  split.
  - intros Hstored Hex.
    destruct (scan_finds cfg order s Hstored Hiter Hex)
      as (k & b & Hscan & Hin & Hkb & _ & Hroom).
    pose proof (Hk _ _ Hkb) as Hid. simpl in Hid.
    pose proof (Hb _ _ Hkb) as Hbb. simpl in Hbb. unfold has_room in Hroom.
    unfold assign_vm_to_user. rewrite Hscan. unfold take_seat.
    eexists _, _. split; [done|]. simpl. rewrite Hid.
    assert (<[k := b]> (<[k := set_user_count (user_count b + 1) b]> (vm_pool s))
            = vm_pool s) as Hpool.
    { rewrite insert_insert_eq. by apply insert_id. }
    assert (forall A : gset Z, k ∈ available_vms s ->
              A = available_vms s \/ A = available_vms s ∖ {[k]} ->
              {[k]} ∪ A = available_vms s) as Havail.
    { intros A Hk' [->| ->]; apply set_eq; intros j;
        rewrite elem_of_union, ?elem_of_difference, elem_of_singleton.
      - split; [by intros [->|?]|by right].
      - split; [by intros [->|[? _]]|].
        intros Hj. destruct (decide (j = k)); [by left|by right]. }
    unfold release_vm_from_user.
    destruct (users_per_vm cfg <=? user_count b + 1); simpl;
      rewrite lookup_insert_eq; simpl;
      rewrite (proj2 (Z.ltb_lt 0 (user_count b + 1))) by lia;
      rewrite (proj2 (Z.ltb_lt (user_count b + 1 - 1) (users_per_vm cfg))) by lia;
      rewrite set_user_count_undo;
      unfold with_available_vms, with_vm_pool; simpl;
      rewrite Hpool, Havail by auto; by destruct s.
  - intros (k & Hin & Hnone).
    destruct (scan_key_error cfg (vm_pool s) order None Inf) as (k' & Hin' & Hnone' & Hscan).
    { exists k. split; [by apply Hmem|done]. }
    exists k'. split; [by apply Hmem|]. split; [done|].
    unfold assign_vm_to_user. by rewrite Hscan.
Qed.

Lemma assign_then_release_restores_witness :
  exists vm s1,
    assign_vm_to_user scenario_cfg [101] (all_ok 4 "conn-4") two_instances
    = Returns (Some vm) s1
    /\ release_vm_from_user scenario_cfg (id vm) s1 = two_instances.
Proof.
  destruct (assign_then_release_restores scenario_cfg [101] (all_ok 4 "conn-4")
              two_instances) as [Hrestores _].
  - apply (bool_decide_unpack _). vm_compute. exact I.
  - apply (bool_decide_unpack _). vm_compute. exact I.
  - unfold iterates. apply (bool_decide_unpack _). vm_compute. exact I.
  - apply Hrestores.
    + apply (bool_decide_unpack _). vm_compute. exact I.
    + exists 101. eexists. split; [apply (bool_decide_unpack _); vm_compute; exact I|].
      split; [vm_compute; reflexivity|]. split; [reflexivity|].
      unfold has_room. simpl. lia.
Defined.

(** ** The service facade *)



(** ** More on the health pass *)

Lemma pool_eq (a b : Pool) :
  vm_pool a = vm_pool b -> available_vms a = available_vms b ->
  next_vm_id a = next_vm_id b -> ip_pool a = ip_pool b -> a = b.
Proof. destruct a, b. simpl. by intros -> -> -> ->. Qed.

Lemma visit_idempotent henv k v : visit henv k (visit henv k v) = visit henv k v.
Proof.
  unfold visit, health_record. destruct (get_vm_status henv k) as [st|]; [|done].
  by destruct (is_running st).
Qed.

(** X12. A health pass is idempotent: running it a second time against
    the same status replies and clock readings changes nothing. *)
Theorem health_pass_idempotent (henv : HealthEnv) (s : Pool) :
  _check_vm_health henv (_check_vm_health henv s) = _check_vm_health henv s.
Proof.
  apply pool_eq.
  - apply map_eq. intros k. rewrite !check_vm_health_lookup.
    destruct (vm_pool s !! k) as [v|]; [|done]. simpl.
    by rewrite visit_idempotent.
  - apply set_eq. intros k. rewrite !check_vm_health_available.
    rewrite check_vm_health_lookup, fmap_is_Some. tauto.
  - destruct (check_vm_health_rest henv (_check_vm_health henv s)) as [-> _]. done.
  - destruct (check_vm_health_rest henv (_check_vm_health henv s)) as [_ ->]. done.
Qed.

Section stranded.

Context (cfg : Config) (k : Z).

Lemma create_vm_stranded env s :
  k < next_vm_id s -> stranded k s -> stranded k (create_vm cfg env s).2.
Proof.
  intros Hlt [Hout (v & Hv & Hzero)]. unfold stranded.
  destruct (create_vm_paths cfg env s); simpl; try (by split; [|exists v]).
  - split; [done|]. exists v. split; [|done]. rewrite lookup_delete_ne; [done|lia].
  - split.
    + intros [Hin%elem_of_singleton|Hin]%elem_of_union; [lia|done].
    + exists v. split; [|done]. rewrite lookup_insert_ne; [done|lia].
Qed.

Lemma take_seat_stranded b s :
  id b <> k -> stranded k s -> stranded k (state_of (take_seat cfg b s)).
Proof.
  intros Hne [Hout (v & Hv & Hzero)]. unfold take_seat, stranded. simpl.
  destruct (users_per_vm cfg <=? user_count b + 1); simpl; split.
  - by intros [Hin _]%elem_of_difference.
  - exists v. by rewrite lookup_insert_ne.
  - done.
  - exists v. by rewrite lookup_insert_ne.
Qed.

Lemma release_stranded vm_id s :
  stranded k s -> stranded k (release_vm_from_user cfg vm_id s).
Proof.
  intros [Hout (v & Hv & Hzero)]. unfold release_vm_from_user, stranded.
  destruct (vm_pool s !! vm_id) as [w|] eqn:Hw; [|by split; [|exists v]].
  destruct (0 <? user_count w) eqn:Hpos; [|by split; [|exists v]].
  assert (vm_id <> k) as Hne.
  { intros ->. rewrite Hv in Hw. injection Hw as <-.
    apply Z.ltb_lt in Hpos. lia. }
  simpl. destruct (user_count w - 1 <? users_per_vm cfg); simpl; split.
  - by intros [Hin%elem_of_singleton|Hin]%elem_of_union.
  - exists v. by rewrite lookup_insert_ne.
  - done.
  - exists v. by rewrite lookup_insert_ne.
Qed.

Lemma health_stranded henv s :
  stranded k s -> stranded k (_check_vm_health henv s).
Proof.
  intros [Hout (v & Hv & Hzero)]. split.
  - by intros [Hin _]%check_vm_health_available.
  - exists (visit henv k v). rewrite check_vm_health_lookup, Hv. split; [done|].
    by destruct (visit_fields henv k v) as (_ & _ & _ & _ & _ & ->).
Qed.

Lemma step_stranded s o :
  keyed s -> k < next_vm_id s ->
  match o with AssignVM order _ => iterates order s | _ => True end ->
  stranded k s -> stranded k (step cfg s o).
Proof.
  intros Hk Hlt Horder Hs. destruct o as [env|order env|vm_id|henv|env]; simpl.
  - by apply create_vm_stranded.
  - unfold assign_vm_to_user.
    destruct (scan cfg (vm_pool s) order None Inf) as [j|[b|]] eqn:Hscan; [done|..].
    + apply scan_result in Hscan as [[=]|(j & Hj & Hjb & _)].
      apply take_seat_stranded; [|done]. rewrite (Hk _ _ Hjb).
      intros ->. destruct Hs as [Hout _]. apply Hout.
      unfold iterates in Horder. rewrite Horder in Hj. by apply elem_of_elements.
    + pose proof (create_vm_stranded env s Hlt Hs) as Hs'.
      destruct (create_vm cfg env s) as [[v|] s1] eqn:Hcreate; [|done].
      apply take_seat_stranded; [|done].
      apply create_vm_Some in Hcreate as (? & ? & ? & _ & _ & _ & _ & -> & _).
      simpl. lia.
  - by apply release_stranded.
  - by apply health_stranded.
  - unfold _scale_pool_based_on_load.
    destruct (_ && _); [by apply create_vm_stranded|done].
Qed.

Lemma run_stranded ops s :
  keyed s -> k < next_vm_id s -> orders_ok cfg ops s ->
  stranded k s -> stranded k (run cfg ops s).
Proof.
  unfold run. revert s.
  induction ops as [|o ops IH]; intros s Hk Hlt Hord Hs; simpl; [done|].
  destruct Hord as [Ho Hord]. apply IH; [| |done|by apply step_stranded].
  - apply (step_preserves (fun _ => True) cfg s o); auto.
  - pose proof (step_next_vm_id cfg s o). lia.
Qed.

End stranded.

(** X13. An idle instance that a health pass finds down is lost to
    assignment for good, provided its id is below the id counter (as the
    id of every instance made by [create_vm] is; an instance registered
    at startup can have an id the counter has yet to reach, and
    [create_vm] then reuses it). In a pool whose records sit under their
    own ids, if the pass reports a tracked instance with no user and an
    id below the counter as not running, the instance is out of the
    available set after the pass and stays out, idle, under every later
    sequence of operations (assignments iterating the available set,
    releases, [create_vm], scaling passes and further health passes, also
    ones that report it running again): nothing but a release of a user
    puts an existing id back, and the instance has no user to release. *)
Theorem idle_instance_found_down_is_stranded (cfg : Config) (henv : HealthEnv)
    (ops : list Op) (s : Pool) (k : Z) (v : VMInfo) :
  keyed s -> k < next_vm_id s ->
  vm_pool s !! k = Some v -> user_count v = 0 ->
  reported_down (get_vm_status henv k) = true ->
  orders_ok cfg ops (_check_vm_health henv s) ->
  (k ∉ available_vms (run cfg ops (_check_vm_health henv s)))
  /\ exists v',
       vm_pool (run cfg ops (_check_vm_health henv s)) !! k = Some v'
       /\ user_count v' = 0.
Proof.
  intros Hk Hlt Hv Hzero Hdown Hord.
  apply (run_stranded cfg k ops (_check_vm_health henv s)).
  - by apply health_keyed.
  - by destruct (check_vm_health_rest henv s) as [-> _].
  - done.
  - split.
    + intros [_ Hnot]%check_vm_health_available. apply Hnot. split; [by eexists|done].
    + exists (visit henv k v). rewrite check_vm_health_lookup, Hv. split; [done|].
      by destruct (visit_fields henv k v) as (_ & _ & _ & _ & _ & ->).
Qed.

Lemma idle_instance_found_down_is_stranded_witness :
  let s := (create_vm scenario_cfg (all_ok 1 "conn-1") scenario_init).2 in
  let ops := [HealthPass (only_down 999 3); AssignVM [] (all_ok 4 "conn-4");
              ReleaseVM 100] in
  (100 ∉ available_vms (run scenario_cfg ops (_check_vm_health (all_down 2) s)))
  /\ exists v',
       vm_pool (run scenario_cfg ops (_check_vm_health (all_down 2) s)) !! 100 = Some v'
       /\ user_count v' = 0.
Proof.
  intros s ops.
  apply (idle_instance_found_down_is_stranded scenario_cfg (all_down 2) ops s 100
           (running_record 100 "10.0.0.10" 1 "conn-1")).
  - apply (bool_decide_unpack _). vm_compute. exact I.
  - vm_compute. reflexivity.
  - vm_compute. reflexivity.
  - reflexivity.
  - reflexivity.
  - split; [exact I|]. split; [|split; exact I].
    unfold iterates. apply (bool_decide_unpack _). vm_compute. exact I.
Defined.

(** ** Scaling pass and monitoring loop *)

Section monitoring.

Context (cfg : Config).

Lemma create_vm_grows_by_one env s :
  pool_len (create_vm cfg env s).2 <= pool_len s + 1.
Proof.
  unfold pool_len. destruct (create_vm_paths cfg env s) as [| | |a rest c]; simpl;
    try lia.
  - pose proof (map_size_delete (next_vm_id s) (vm_pool s)) as Hsz.
    destruct (vm_pool s !! next_vm_id s); unfold Datatypes.id in Hsz; simpl in Hsz; lia.
  - pose proof (map_size_insert (next_vm_id s)
                  (running_record (next_vm_id s) a (now env) c) (vm_pool s)) as Hsz.
    destruct (vm_pool s !! next_vm_id s); unfold Datatypes.id in Hsz; simpl in Hsz; lia.
Qed.

(** Under [fresh_ids], [create_vm] leaves every stored record alone. *)
Lemma create_vm_keeps_records env s k v :
  fresh_ids s -> vm_pool s !! k = Some v ->
  vm_pool (create_vm cfg env s).2 !! k = Some v.
Proof.
  intros Hf Hv. pose proof (Hf _ _ Hv) as Hlt. simpl in Hlt.
  destruct (create_vm_paths cfg env s); simpl; try done.
  - rewrite lookup_delete_ne; [done|lia].
  - rewrite lookup_insert_ne; [done|lia].
Qed.

Lemma health_fresh henv s : fresh_ids s -> fresh_ids (_check_vm_health henv s).
Proof.
  intros Hf. unfold fresh_ids. destruct (check_vm_health_rest henv s) as [-> _].
  by apply check_vm_health_map_Forall.
Qed.

Lemma same_identity_trans u v w :
  same_identity u v -> same_identity v w -> same_identity u w.
Proof.
  unfold same_identity. intros (?&?&?&?&?&?) (?&?&?&?&?&?).
  repeat split; congruence.
Qed.

Lemma same_identity_refl v : same_identity v v.
Proof. by repeat split. Qed.

(** One iteration of the loop. *)
Lemma monitoring_tick_frame enable s t :
  fresh_ids s ->
  fresh_ids (monitoring_tick cfg enable s t)
  /\ (forall k v, vm_pool s !! k = Some v ->
        exists v', vm_pool (monitoring_tick cfg enable s t) !! k = Some v'
                   /\ same_identity v' v)
  /\ pool_len (monitoring_tick cfg enable s t) <= pool_len s + 1
  /\ (within_max cfg s -> within_max cfg (monitoring_tick cfg enable s t))
  /\ total_users (monitoring_tick cfg enable s t) = total_users s.
Proof.
  intros Hf. unfold monitoring_tick.
  set (s1 := if enable then _check_vm_health (health t) s else s).
  assert (fresh_ids s1
          /\ (forall k v, vm_pool s !! k = Some v ->
                exists v', vm_pool s1 !! k = Some v' /\ same_identity v' v)
          /\ pool_len s1 = pool_len s
          /\ total_users s1 = total_users s) as (Hf1 & Hrec1 & Hlen1 & Htot1).
  { unfold s1. destruct enable.
    - split; [by apply health_fresh|]. split.
      + intros k v Hv. exists (visit (health t) k v).
        rewrite check_vm_health_lookup, Hv. split; [done|]. apply visit_fields.
      + split; [apply check_vm_health_size|apply health_total_users].
    - split; [done|]. split; [|done]. intros k v Hv. exists v.
      split; [done|apply same_identity_refl]. }
  clearbody s1. unfold _scale_pool_based_on_load.
  destruct (_ && _).
  - split; [by apply create_vm_fresh|]. split.
    + intros k v Hv. destruct (Hrec1 k v Hv) as (v' & Hv' & Hsame).
      exists v'. split; [by apply create_vm_keeps_records|done].
    + split; [pose proof (create_vm_grows_by_one (scaling t) s1); lia|].
      split.
      * intros Hm. apply create_vm_within_max. unfold within_max in *. lia.
      * by rewrite create_vm_total_users.
  - split; [done|]. split; [done|]. split; [lia|]. split; [|done].
    unfold within_max. lia.
Qed.

End monitoring.

(** X14. The scaling pass provisions at most one instance and only on
    shortage: it leaves the pool alone when the store is at [max_vms],
    and, with [users_per_vm >= 2], whenever the available set is not
    empty; with an empty available set and room in the store it runs
    [create_vm] once. In no case does the store grow by more than one
    record. *)
Theorem scaling_pass_trigger (cfg : Config) (env : ProvisionEnv) (s : Pool) :
  (max_vms cfg <= pool_len s -> _scale_pool_based_on_load cfg env s = s)
  /\ (2 <= users_per_vm cfg -> available_vms s <> ∅ ->
      _scale_pool_based_on_load cfg env s = s)
  /\ (available_vms s = ∅ -> pool_len s < max_vms cfg ->
      _scale_pool_based_on_load cfg env s = (create_vm cfg env s).2)
  /\ pool_len (_scale_pool_based_on_load cfg env s) <= pool_len s + 1.
Proof.
  unfold _scale_pool_based_on_load. split; [|split; [|split]].
  - intros Hfull. rewrite (proj2 (Z.ltb_ge (pool_len s) (max_vms cfg))) by done.
    by rewrite andb_false_r.
  - intros Hupv Hne.
    assert (size (available_vms s) <> 0%nat) as Hsz.
    { intros Hz. apply Hne. by apply size_empty_inv, leibniz_equiv in Hz. }
    rewrite (proj2 (Z.ltb_ge _ 2)); [done|]. nia.
  - intros -> Hroom. rewrite size_empty. simpl.
    by rewrite (proj2 (Z.ltb_lt (pool_len s) (max_vms cfg))).
  - destruct (_ && _); [apply create_vm_grows_by_one|lia].
Qed.

Lemma scaling_pass_trigger_witness :
  _scale_pool_based_on_load scenario_cfg (all_ok 4 "conn-4") two_instances
  = two_instances
  /\ _scale_pool_based_on_load scenario_cfg (all_ok 1 "conn-1") scenario_init
     = (create_vm scenario_cfg (all_ok 1 "conn-1") scenario_init).2.
Proof.
  split.
  - destruct (scaling_pass_trigger scenario_cfg (all_ok 4 "conn-4") two_instances)
      as (_ & Hidle & _).
    apply Hidle; [simpl; lia|].
    intros Hempty. assert (101 ∈ available_vms two_instances) as Hin.
    { apply (bool_decide_unpack _). vm_compute. exact I. }
    rewrite Hempty in Hin. by apply not_elem_of_empty in Hin.
  - destruct (scaling_pass_trigger scenario_cfg (all_ok 1 "conn-1") scenario_init)
      as (_ & _ & Hshort & _).
    apply Hshort; [reflexivity|]. vm_compute. reflexivity.
Defined.

(** X15. The monitoring loop never destroys a record and never touches
    occupancy. From a pool whose stored ids are below the id counter,
    after any number of iterations (health pass, when enabled, then
    scaling pass) every record tracked at the start is still tracked
    with the same id, name, address, connection id, creation time and
    user count; the sum of the user counts is unchanged; the store has
    grown by at most one record per iteration and, if it was within
    [max_vms], still is. *)
Theorem monitoring_loop_keeps_records (cfg : Config) (enable_health_checks : bool)
    (ticks : list Tick) (s : Pool) :
  fresh_ids s ->
  (forall k v, vm_pool s !! k = Some v ->
     exists v',
       vm_pool (_monitoring_loop cfg enable_health_checks ticks s) !! k = Some v'
       /\ same_identity v' v)
  /\ total_users (_monitoring_loop cfg enable_health_checks ticks s) = total_users s
  /\ pool_len (_monitoring_loop cfg enable_health_checks ticks s)
     <= pool_len s + Z.of_nat (length ticks)
  /\ (within_max cfg s ->
      within_max cfg (_monitoring_loop cfg enable_health_checks ticks s)).
Proof.
  unfold _monitoring_loop. revert s.
  induction ticks as [|t ticks IH]; intros s Hf; simpl foldl.
  - split; [|split; [done|split; [simpl; lia|done]]].
    intros k v Hv. exists v. split; [done|apply same_identity_refl].
  - destruct (monitoring_tick_frame cfg enable_health_checks s t Hf)
      as (Hf1 & Hrec1 & Hlen1 & Hmax1 & Htot1).
    destruct (IH _ Hf1) as (Hrec & Htot & Hlen & Hmax).
    split; [|split; [congruence|split; [|by auto]]].
    + intros k v Hv. destruct (Hrec1 k v Hv) as (v1 & Hv1 & Hsame1).
      destruct (Hrec k v1 Hv1) as (v' & Hv' & Hsame).
      exists v'. split; [done|by eapply same_identity_trans].
    + rewrite length_cons, Nat2Z.inj_succ. lia.
Qed.

Lemma monitoring_loop_keeps_records_witness :
  let ticks := [ {| health := only_down 100 5; scaling := all_ok 6 "conn-6" |};
                 {| health := all_down 7; scaling := clone_fails 8 |} ] in
  total_users (_monitoring_loop scenario_cfg true ticks two_instances)
  = total_users two_instances
  /\ pool_len (_monitoring_loop scenario_cfg true ticks two_instances)
     <= pool_len two_instances + 2.
Proof.
  intros ticks.
  destruct (monitoring_loop_keeps_records scenario_cfg true ticks two_instances)
    as (_ & Htot & Hlen & _).
  - apply (bool_decide_unpack _). vm_compute. exact I.
  - split; [exact Htot|exact Hlen].
Defined.

(** ** Startup *)

Section startup.

Context (cfg : Config).

Lemma str_of_ipv4_nonempty a : str_of_ipv4 a <> ""%string.
Proof. unfold str_of_ipv4. by destruct (str_of_int (octet a 3)). Qed.

Lemma startup_pool_nonempty_strings s :
  init cfg = Some s -> Forall (fun a => a <> ""%string) (ip_pool s).
Proof.
  unfold init, _initialize_ip_pool.
  destruct (walk _ _ _) as [ips|] eqn:Hw; [|done]. intros [= <-]. simpl.
  destruct (walk_consecutive _ _ _ _ Hw) as (k & -> & _).
  apply Forall_fmap, Forall_forall. intros a _. apply str_of_ipv4_nonempty.
Qed.

Lemma create_missing_creates envs n i s :
  (forall j, exists c, provisioning_succeeds cfg (envs j) c) ->
  fresh_ids s ->
  pool_len s + Z.of_nat n <= max_vms cfg ->
  (n <= length (ip_pool s))%nat ->
  Forall (fun a => a <> ""%string) (ip_pool s) ->
  map_Forall (fun k v => status v = RUNNING /\ user_count v = 0
                         /\ k ∈ available_vms s) (vm_pool s) ->
  pool_len (create_missing cfg envs n i s) = pool_len s + Z.of_nat n
  /\ ip_pool (create_missing cfg envs n i s) = drop n (ip_pool s)
  /\ next_vm_id (create_missing cfg envs n i s) = next_vm_id s + Z.of_nat n
  /\ map_Forall (fun k v => status v = RUNNING /\ user_count v = 0
                            /\ k ∈ available_vms (create_missing cfg envs n i s))
       (vm_pool (create_missing cfg envs n i s)).
Proof.
  intros Hok. revert i s.
  induction n as [|n IH]; intros i s Hf Hmax Hlen Hne Hall; simpl create_missing.
  - rewrite drop_0. split; [simpl; lia|]. split; [done|]. split; [simpl; lia|done].
  - destruct (ip_pool s) as [|a rest] eqn:Hip; [simpl in Hlen; lia|].
    apply Forall_cons in Hne as [Ha Hne].
    destruct (Hok i) as [c Hc%provision_succeeds].
    pose proof (fresh_next_vm_id s Hf) as Hnone.
    rewrite (create_vm_created cfg (envs i) s a rest c) by (done || lia).
    simpl snd.
    set (s1 := {| vm_pool := <[next_vm_id s := running_record (next_vm_id s) a (now (envs i)) c]>
                               (vm_pool s);
                  available_vms := {[next_vm_id s]} ∪ available_vms s;
                  next_vm_id := next_vm_id s + 1;
                  ip_pool := rest |}).
    assert (pool_len s1 = pool_len s + 1) as Hlen1.
    { unfold pool_len, s1. simpl. rewrite map_size_insert_None by done. lia. }
    destruct (IH (S i) s1) as (Hsize & Hips & Hnext & Hall').
    + unfold fresh_ids, s1. simpl. apply map_Forall_insert_2; [lia|].
      intros k v Hv. specialize (Hf k v Hv). simpl in Hf. lia.
    + lia.
    + unfold s1. simpl in *. lia.
    + done.
    + unfold s1. simpl. apply map_Forall_insert_2.
      * split; [done|]. split; [done|]. apply elem_of_union. left.
        by apply elem_of_singleton.
      * intros k v Hv. destruct (Hall k v Hv) as (? & ? & ?).
        split; [done|]. split; [done|]. apply elem_of_union. by right.
    + split; [lia|]. split; [done|]. split; [|done].
      rewrite Hnext. unfold s1. simpl. lia.
Qed.

Lemma filter_none_running (vms : list ListedVM) :
  Forall (fun vm => is_running (listed_status vm) = false) vms ->
  filter (fun vm => is_running (listed_status vm) = true) vms = [].
Proof.
  induction 1 as [|vm vms Hvm _ IH]; [done|].
  rewrite filter_cons_False; [done|]. by rewrite Hvm.
Qed.

End startup.

(** X16. On a node that lists no running instance, with every
    provisioning call succeeding, [ensure_base_load] on the startup pool
    brings the store to exactly [base_load] instances whenever
    [0 <= base_load <= max_vms] and the startup pool holds at least
    [base_load] addresses: all of them are [RUNNING], without users and
    available; the ids are 100 up to [100 + base_load - 1] and the first
    [base_load] addresses have left the free list. *)
Theorem ensure_base_load_reaches_base_load (cfg : Config) (senv : StartupEnv)
    (s : Pool) (vms : list ListedVM) :
  init cfg = Some s ->
  list_vms senv = Listed vms ->
  Forall (fun vm => is_running (listed_status vm) = false) vms ->
  (forall j, exists c, provisioning_succeeds cfg (provisioning senv j) c) ->
  0 <= base_load cfg <= max_vms cfg ->
  (Z.to_nat (base_load cfg) <= length (ip_pool s))%nat ->
  pool_len (ensure_base_load cfg senv s) = base_load cfg
  /\ map_Forall (fun k v => status v = RUNNING /\ user_count v = 0
                            /\ k ∈ available_vms (ensure_base_load cfg senv s)
                            /\ 100 <= k < 100 + base_load cfg)
       (vm_pool (ensure_base_load cfg senv s))
  /\ next_vm_id (ensure_base_load cfg senv s) = 100 + base_load cfg
  /\ ip_pool (ensure_base_load cfg senv s) = drop (Z.to_nat (base_load cfg)) (ip_pool s).
Proof.
  intros Hinit Hlist Hidle Hok Hbase Hips.
  pose proof (startup_pool_nonempty_strings cfg s Hinit) as Hne.
  pose proof (init_inv cfg s Hinit) as (Hk & _ & Hf & _).
  assert (vm_pool s = ∅ /\ next_vm_id s = 100) as [Hempty Hnext].
  { unfold init in Hinit. destruct (_initialize_ip_pool cfg); [|done].
    by injection Hinit as <-. }
  unfold ensure_base_load. rewrite Hlist, filter_none_running by done.
  simpl register_existing. cbv zeta.
  assert (pool_len s = 0) as Hzero.
  { unfold pool_len. by rewrite Hempty, map_size_empty. }
  rewrite Hzero, Z.sub_0_r.
  destruct (create_missing_creates cfg (provisioning senv) (Z.to_nat (base_load cfg)) 0 s)
    as (Hsize & Hfree & Hcounter & Hall); try done.
  - lia.
  - rewrite Hempty. apply map_Forall_empty.
  - split; [lia|]. split; [|split; [lia|done]].
    intros k v Hv. destruct (Hall k v Hv) as (? & ? & ?).
    split; [done|]. split; [done|]. split; [done|].
    assert (fresh_ids (create_missing cfg (provisioning senv)
                         (Z.to_nat (base_load cfg)) 0 s)) as Hf'.
    { clear -Hf. generalize 0%nat. revert s Hf.
      induction (Z.to_nat (base_load cfg)) as [|n IH]; intros s Hf i; simpl; [done|].
      apply IH. by apply create_vm_fresh. }
    assert (forall n i s0,
              map_Forall (fun j (_ : VMInfo) => 100 <= j) (vm_pool s0) ->
              100 <= next_vm_id s0 ->
              map_Forall (fun j (_ : VMInfo) => 100 <= j)
                (vm_pool (create_missing cfg (provisioning senv) n i s0))) as Hlow.
    { clear. induction n as [|n IH]; intros i s0 Hall Hnext; simpl; [done|].
      apply IH.
      - destruct (create_vm_paths cfg (provisioning senv i) s0); simpl; try done.
        + by apply map_Forall_delete.
        + by apply map_Forall_insert_2.
      - pose proof (create_vm_next_vm_id cfg (provisioning senv i) s0). lia. }
    specialize (Hf' k v Hv). simpl in Hf'.
    specialize (Hlow (Z.to_nat (base_load cfg)) 0%nat s).
    rewrite Hempty in Hlow. specialize (Hlow (map_Forall_empty _) ltac:(lia) k v Hv).
    simpl in Hlow. lia.
Qed.

Lemma ensure_base_load_reaches_base_load_witness :
  pool_len (ensure_base_load scenario_cfg (template_only scenario_cfg always_ok)
              scenario_init) = 1
  /\ ip_pool (ensure_base_load scenario_cfg (template_only scenario_cfg always_ok)
               scenario_init) = ["10.0.0.11"; "10.0.0.12"]%string.
Proof.
  destruct (ensure_base_load_reaches_base_load scenario_cfg
              (template_only scenario_cfg always_ok) scenario_init
              [ {| vmid := 9000; listed_status := Some "stopped"%string |} ])
    as (Hlen & _ & _ & Hfree).
  - reflexivity.
  - reflexivity.
  - repeat constructor.
  - apply always_ok_succeeds.
  - simpl. lia.
  - simpl. lia.
  - split; [exact Hlen|exact Hfree].
Defined.

Section registration.

Context (cfg : Config) (senv : StartupEnv).

(** The condition under which the first loop of [ensure_base_load]
    registers a listed instance. *)
Let registers (vm : ListedVM) : Prop :=
  vmid vm <> template_vm_id cfg
  /\ exists st, status_at_startup senv (vmid vm) = Status st /\ is_running st = true.

Lemma register_one_dom vm s k :
  k ∈ dom (vm_pool
             (if bool_decide (vmid vm ≠ template_vm_id cfg)
              then _register_existing_vm (status_at_startup senv (vmid vm))
                     (registered_at senv (vmid vm)) (vmid vm) s
              else s))
  <-> k ∈ dom (vm_pool s) \/ (vmid vm = k /\ registers vm).
Proof.
  unfold registers, _register_existing_vm. case_bool_decide as Htpl.
  - destruct (status_at_startup senv (vmid vm)) as [st|] eqn:Hst.
    + destruct (is_running st) eqn:Hrun; simpl.
      * rewrite dom_insert_L, elem_of_union, elem_of_singleton. split.
        -- intros [->|?]; [right|by left]. split; [done|]. split; [done|]. by exists st.
        -- intros [?|[-> _]]; [by right|by left].
      * split; [by left|]. intros [?|(_ & _ & st' & [= <-] & ?)]; [done|congruence].
    + split; [by left|]. by intros [?|(_ & _ & st' & ? & ?)].
  - split; [by left|]. by intros [?|(_ & ? & _)].
Qed.

Lemma register_existing_dom vms s k :
  k ∈ dom (vm_pool (register_existing cfg senv vms s))
  <-> k ∈ dom (vm_pool s) \/ exists vm, vm ∈ vms /\ vmid vm = k /\ registers vm.
Proof.
  unfold register_existing. revert s.
  induction vms as [|vm vms IH]; intros s; simpl.
  - split; [by left|]. by intros [?|(vm & ?%elem_of_nil & _)].
  - rewrite IH, register_one_dom. split.
    + intros [[?|[? ?]]|(vm' & ? & ?)]; [by left|right..].
      * exists vm. split; [left|done].
      * exists vm'. split; [by right|done].
    + intros [?|(vm' & [->|?]%elem_of_cons & ? & ?)].
      * by left; left.
      * by left; right.
      * right. by exists vm'.
Qed.

Lemma register_existing_next_vm_id vms s :
  next_vm_id (register_existing cfg senv vms s) = next_vm_id s.
Proof.
  unfold register_existing. revert s.
  induction vms as [|vm vms IH]; intros s; simpl; [done|].
  rewrite IH. case_bool_decide; [|done]. unfold _register_existing_vm.
  destruct (status_at_startup senv (vmid vm)) as [st|]; [|done].
  by destruct (is_running st).
Qed.

Lemma create_missing_next_vm_id envs n i s :
  next_vm_id s <= next_vm_id (create_missing cfg envs n i s).
Proof.
  revert i s. induction n as [|n IH]; intros i s; simpl; [lia|].
  etrans; [apply (create_vm_next_vm_id cfg (envs i) s)|apply IH].
Qed.

(** The provisioning loop only stores ids from the old value of the id
    counter up to, and not including, the new one. *)
Lemma create_missing_avoids envs n i s k :
  k ∉ dom (vm_pool s) ->
  k < next_vm_id s \/ next_vm_id (create_missing cfg envs n i s) <= k ->
  k ∉ dom (vm_pool (create_missing cfg envs n i s)).
Proof.
  revert i s. induction n as [|n IH]; intros i s Hout Hk; simpl; [done|].
  simpl in Hk.
  pose proof (create_missing_next_vm_id envs n (S i) (create_vm cfg (envs i) s).2)
    as Hmono.
  pose proof (create_vm_next_vm_id cfg (envs i) s) as Hstep.
  apply IH; [|lia].
  destruct (create_vm_paths cfg (envs i) s); simpl in *; try done.
  - rewrite dom_delete_L. by intros [? _]%elem_of_difference.
  - rewrite dom_insert_L. intros [?%elem_of_singleton|?]%elem_of_union; [lia|done].
Qed.

End registration.

(** X17. What startup registration tracks. [ensure_base_load] runs its
    registration loop over the listed instances whose listed status is
    running. After that loop the store holds what it held before plus
    exactly the listed instances whose listed status is running, that
    are not the template, and whose own status query reports running as
    well; an instance listed with another status is not registered even
    if its status query reports it running, and the template is never
    registered. When the store then holds at least [base_load] records,
    nothing is provisioned and this is the pool [ensure_base_load]
    leaves. As long as the id counter has not passed the template id (it
    is still at or below it after the call, or was above it before), no
    part of [ensure_base_load] (registration or provisioning) puts a
    record under the template id. *)
Theorem registration_tracks_running_instances (cfg : Config) (senv : StartupEnv)
    (s : Pool) :
  (forall current_vms,
     list_vms senv = Listed current_vms ->
     (forall k,
        k ∈ dom (vm_pool
                   (register_existing cfg senv
                      (filter (fun vm => is_running (listed_status vm) = true)
                         current_vms) s))
        <-> k ∈ dom (vm_pool s)
            \/ exists vm,
                 vm ∈ current_vms /\ vmid vm = k
                 /\ is_running (listed_status vm) = true
                 /\ k <> template_vm_id cfg
                 /\ exists st, status_at_startup senv k = Status st
                               /\ is_running st = true)
     /\ (base_load cfg
         <= pool_len
              (register_existing cfg senv
                 (filter (fun vm => is_running (listed_status vm) = true)
                    current_vms) s) ->
         ensure_base_load cfg senv s
         = register_existing cfg senv
             (filter (fun vm => is_running (listed_status vm) = true)
                current_vms) s))
  /\ (template_vm_id cfg ∉ dom (vm_pool s) ->
      template_vm_id cfg < next_vm_id s
      \/ next_vm_id (ensure_base_load cfg senv s) <= template_vm_id cfg ->
      template_vm_id cfg ∉ dom (vm_pool (ensure_base_load cfg senv s))).
Proof.
  split.
  - intros current_vms Hlist. split.
    + intros k. rewrite register_existing_dom. split.
      * intros [?|(vm & [Hrun Hin]%list_elem_of_filter & <- & ? & ?)]; [by left|].
        right. by exists vm.
      * intros [?|(vm & Hin & <- & Hrun & ? & ?)]; [by left|].
        right. exists vm. split; [by apply list_elem_of_filter|done].
    + intros Hfull. unfold ensure_base_load. rewrite Hlist. cbv zeta.
      by replace (Z.to_nat _) with 0%nat by lia.
  - intros Hout Hlt. unfold ensure_base_load in *.
    destruct (list_vms senv) as [current|]; [|done]. cbv zeta in *.
    apply create_missing_avoids.
    + intros [?|(vm & _ & Hid & Hne & _)]%register_existing_dom; [done|].
      by apply Hne.
    + by rewrite register_existing_next_vm_id.
Qed.

Lemma registration_tracks_running_instances_witness :
  (200 ∈ dom (vm_pool (ensure_base_load scenario_cfg
                         (mixed_node scenario_cfg always_ok) scenario_init)))
  /\ (203 ∉ dom (vm_pool (ensure_base_load scenario_cfg
                            (mixed_node scenario_cfg always_ok) scenario_init)))
  /\ (9000 ∉ dom (vm_pool (ensure_base_load scenario_cfg
                             (mixed_node scenario_cfg always_ok) scenario_init))).
Proof.
  destruct (registration_tracks_running_instances scenario_cfg
              (mixed_node scenario_cfg always_ok) scenario_init) as [Hreg Htpl].
  destruct (Hreg _ eq_refl) as [Hdom Hsame].
  assert (dom (vm_pool scenario_init) = ∅) as Hempty by apply dom_empty_L.
  split; [|split].
  - rewrite Hsame by (by vm_compute). apply Hdom. right.
    exists {| vmid := 200; listed_status := Some "running"%string |}.
    split; [by do 2 right; left|]. split; [done|]. split; [done|].
    split; [done|]. by eexists.
  - rewrite Hsame by (by vm_compute).
    intros [Hin|(vm & Hin & Hid & Hrun & _)]%Hdom.
    + rewrite Hempty in Hin. by apply not_elem_of_empty in Hin.
    + repeat (apply elem_of_cons in Hin as [->|Hin]); try done.
      by apply elem_of_nil in Hin.
  - apply Htpl; [rewrite Hempty; apply not_elem_of_empty|].
    right. vm_compute. discriminate.
Defined.

(** ** What a health pass re-establishes *)

(** X18. After a health pass in which no status query raises, every
    available id that names a stored record names a [RUNNING] one,
    whatever the pool looked like before: records found down have left
    the available set and the others have just been set to [RUNNING]. A
    stale [STOPPED] entry, as a release can leave behind, does not
    survive the pass. *)
Theorem health_pass_restores_running (henv : HealthEnv) (s : Pool) :
  (forall k, get_vm_status henv k <> StatusRaises) ->
  available_running (_check_vm_health henv s).
Proof.
  intros Hanswer k [Hk Hnot]%check_vm_health_available v'.
  rewrite check_vm_health_lookup.
  destruct (vm_pool s !! k) as [v|] eqn:Hv; [|done]. intros [= <-].
  unfold visit, health_record.
  destruct (get_vm_status henv k) as [st|] eqn:Hreply; [|by destruct (Hanswer k)].
  destruct (is_running st) eqn:Hrun; [done|].
  exfalso. apply Hnot. split; [by eexists|]. unfold reported_down. by rewrite Hrun.
Qed.

Lemma health_pass_restores_running_witness :
  let stale :=
    release_vm_from_user scenario_cfg 100
      (run scenario_cfg [AssignVM [] (all_ok 1 "conn-1"); HealthPass (all_down 2)]
         scenario_init) in
  100 ∈ available_vms stale
  /\ available_running (_check_vm_health (only_down 999 3) stale).
Proof.
  intros stale. split; [apply (bool_decide_unpack _); vm_compute; exact I|].
  apply (health_pass_restores_running (only_down 999 3) stale).
  intros k. simpl. by case_bool_decide.
Defined.

(** ** Capacity *)

(** X19. The pool never holds more users than [max_vms * users_per_vm].
    With [users_per_vm >= 1], from a pool with at most [max_vms] records,
    each under its own id with a user count within [[0, users_per_vm]],
    after every sequence of operations the sum of the user counts is
    between 0 and [max_vms * users_per_vm]. *)
Theorem total_users_within_capacity (cfg : Config) (ops : list Op) (s : Pool) :
  1 <= users_per_vm cfg ->
  keyed s -> occupancy_bounded cfg s -> pool_len s <= max_vms cfg ->
  0 <= total_users (run cfg ops s) <= max_vms cfg * users_per_vm cfg.
Proof.
  intros Hupv Hk Hb Hm.
  destruct (run_occupancy cfg Hupv ops s Hk Hb) as [_ Hb'].
  assert (sized cfg (run cfg ops s)) as [_ Hm'] by (by apply run_sized).
  destruct (users_in_bound (users_per_vm cfg) (vm_pool (run cfg ops s)) ∅ Hb')
    as [Hpos Hle]; [apply set_Forall_empty|].
  rewrite size_empty in Hle. unfold within_max, pool_len in Hm'.
  unfold total_users. fold (users_in (vm_pool (run cfg ops s))). split; [done|]. nia.
Qed.

Lemma total_users_within_capacity_witness :
  0 <= total_users (assign_users scenario_cfg always_ok 7 0 scenario_init).2
  /\ 0 <= total_users
            (run scenario_cfg
               [AssignVM [] (all_ok 1 "conn-1"); AssignVM [100] (all_ok 2 "conn-2")]
               scenario_init)
          <= max_vms scenario_cfg * users_per_vm scenario_cfg.
Proof.
  split; [vm_compute; discriminate|].
  apply (total_users_within_capacity scenario_cfg
           [AssignVM [] (all_ok 1 "conn-1"); AssignVM [100] (all_ok 2 "conn-2")]
           scenario_init).
  - simpl. lia.
  - apply (bool_decide_unpack _). vm_compute. exact I.
  - apply (bool_decide_unpack _). vm_compute. exact I.
  - vm_compute. discriminate.
Defined.

(** X20. Exhaustion has no side effect. When the store holds [max_vms]
    records and none of the ids the scan visits is eligible (all of them
    stored), [assign_vm_to_user] returns [None] and leaves the store, the
    available set, the id counter and the free list exactly as they
    were; no remote call is made. *)
Theorem assign_at_capacity_changes_nothing (cfg : Config) (order : list Z)
    (env : ProvisionEnv) (s : Pool) :
  max_vms cfg <= pool_len s ->
  (forall k, k ∈ order -> exists v, vm_pool s !! k = Some v /\ ~ eligible cfg v) ->
  assign_vm_to_user cfg order env s = Returns None s.
Proof.
  intros Hfull Hnone. unfold assign_vm_to_user.
  destruct (scan_no_key_error cfg (vm_pool s) order None Inf) as [r Hscan].
  { intros k Hk. destruct (Hnone k Hk) as (v & -> & _). by eexists. }
  rewrite Hscan. destruct r as [b|].
  - apply scan_result in Hscan as [[=]|(k & Hk & Hkb & Hel)].
    destruct (Hnone k Hk) as (v & Hv & Hnot). rewrite Hkb in Hv.
    injection Hv as <-. by destruct Hnot.
  - by rewrite create_vm_at_max.
Qed.

Lemma assign_at_capacity_changes_nothing_witness :
  let full := (assign_users scenario_cfg always_ok 6 0 scenario_init).2 in
  assign_vm_to_user scenario_cfg [] (all_ok 9 "conn-9") full = Returns None full.
Proof.
  intros full.
  apply (assign_at_capacity_changes_nothing scenario_cfg [] (all_ok 9 "conn-9") full).
  - vm_compute. discriminate.
  - intros k Hk. by apply elem_of_nil in Hk.
Defined.

(** ** Configuration validation *)

Section validation.

Lemma require_Valid message keys container :
  require message keys container = Valid
  <-> Forall (fun k => py_in k container = Some true) keys.
Proof.
  induction keys as [|k keys IH]; simpl.
  - split; [constructor|done].
  - rewrite Forall_cons, <- IH.
    destruct (py_in k container) as [[]|]; split; try done; try tauto;
      by intros [? _].
Qed.

Lemma require_Invalid message keys container text :
  require message keys container = Invalid text
  <-> exists key, text = (message +:+ key)%string /\ first_missing key keys container.
Proof.
  induction keys as [|k keys IH]; simpl.
  - split; [done|]. intros (key & _ & before & after & Heq & _).
    by destruct before.
  - destruct (py_in k container) as [[]|] eqn:Hk.
    + rewrite IH. split.
      * intros (key & -> & before & after & -> & Hall & Hmiss).
        exists key. split; [done|]. exists (k :: before), after.
        split; [done|]. split; [by constructor|done].
      * intros (key & -> & before & after & Heq & Hall & Hmiss).
        exists key. split; [done|]. destruct before as [|k' before].
        -- simpl in Heq. injection Heq as -> ->. congruence.
        -- simpl in Heq. injection Heq as -> ->.
           apply Forall_cons in Hall as [_ Hall]. by exists before, after.
    + split.
      * intros [= <-]. exists k. split; [done|]. exists [], keys.
        split; [done|]. split; [constructor|done].
      * intros (key & -> & before & after & Heq & Hall & Hmiss).
        destruct before as [|k' before]; simpl in Heq; injection Heq as -> ->.
        -- done.
        -- apply Forall_cons in Hall as [Hk' _]. congruence.
    + split; [done|].
      intros (key & -> & before & after & Heq & Hall & Hmiss).
      destruct before as [|k' before]; simpl in Heq; injection Heq as -> ->.
      * congruence.
      * apply Forall_cons in Hall as [Hk' _]. congruence.
Qed.

End validation.

(** X21. What [_validate_config] accepts and what it reports. The
    configuration passes exactly when it is an object that has the four
    sections proxmox, guacamole, vm and network, whose proxmox section
    contains host, username, password, node and template_vm_id and whose
    vm section contains base_load, users_per_vm and max_vms; nothing
    else is looked at. When a section is missing, the error names the
    first missing one in that order, whatever else is wrong. *)
Theorem validate_config_accepts_iff (config : JSON) :
  (_validate_config config = Valid
   <-> exists fields proxmox vm,
         config = JObject fields
         /\ Forall (fun section => section ∈ fields.*1) required_sections
         /\ get_item "proxmox" fields = Some proxmox
         /\ Forall (fun key => py_in key proxmox = Some true) proxmox_req
         /\ get_item "vm" fields = Some vm
         /\ Forall (fun key => py_in key vm = Some true) vm_req)
  /\ (forall section,
        first_missing section required_sections config ->
        _validate_config config
        = Invalid ("Missing required configuration section: " +:+ section)).
Proof.
  split.
  - unfold _validate_config. split.
    + destruct (require _ required_sections config) eqn:Hsections; [|done..].
      apply require_Valid in Hsections.
      destruct (py_getitem "proxmox" config) as [proxmox|] eqn:Hp; [|done].
      destruct (require _ proxmox_req proxmox) eqn:Hpreq; [|done..].
      apply require_Valid in Hpreq.
      destruct (py_getitem "vm" config) as [vm|] eqn:Hv; [|done].
      intros Hvreq%require_Valid.
      destruct config as [| | | | |fields]; try done.
      exists fields, proxmox, vm. split; [done|]. split; [|done].
      eapply Forall_impl; [exact Hsections|]. simpl.
      intros section [= Hin%bool_decide_eq_true]. done.
    + intros (fields & proxmox & vm & -> & Hsections & Hp & Hpreq & Hv & Hvreq).
      rewrite (proj2 (require_Valid _ required_sections (JObject fields))).
      * simpl py_getitem. rewrite Hp.
        rewrite (proj2 (require_Valid _ proxmox_req proxmox)) by done.
        rewrite Hv. by apply require_Valid.
      * eapply Forall_impl; [exact Hsections|]. simpl.
        intros section Hin. by rewrite bool_decide_eq_true_2.
  - intros section Hmissing. unfold _validate_config.
    rewrite (proj2 (require_Invalid _ required_sections config
                      ("Missing required configuration section: " +:+ section)));
      [done|]. by exists section.
Qed.

Lemma validate_config_accepts_iff_witness :
  _validate_config
    (JObject [("proxmox", JObject [("host", JString "pve")]);
              ("vm", JObject []); ("network", JObject [])]%string)
  = Invalid "Missing required configuration section: guacamole".
Proof.
  destruct (validate_config_accepts_iff
              (JObject [("proxmox", JObject [("host", JString "pve")]);
                        ("vm", JObject []); ("network", JObject [])]%string))
    as [_ Hreport].
  apply (Hreport "guacamole"%string).
  exists ["proxmox"%string], ["vm"; "network"]%string.
  split; [reflexivity|]. split; [by repeat constructor|reflexivity].
Defined.

(** ** An id that [create_vm] reuses *)

(** X22. [create_vm] takes its id from the counter without looking at
    the store or at the available set. When the id it takes is already
    in the available set (startup registration tracks a running instance
    under its own id and leaves the counter at 100, so an instance 100
    found at startup is such a case) and provisioning fails, the cleanup
    deletes the record under that id and leaves the id in the available
    set: the id is available and names no record, and an
    [assign_vm_to_user] on the resulting pool raises [KeyError] instead
    of returning. *)
Theorem failed_create_vm_leaves_dangling_id (cfg : Config) (env env' : ProvisionEnv)
    (order : list Z) (s : Pool) (ip : string) (rest : list string) :
  pool_len s < max_vms cfg -> ip_pool s = ip :: rest -> ip <> ""%string ->
  provisioning_fails cfg env ->
  next_vm_id s ∈ available_vms s ->
  iterates order (create_vm cfg env s).2 ->
  (create_vm cfg env s).1 = None
  /\ next_vm_id s ∈ available_vms (create_vm cfg env s).2
  /\ vm_pool (create_vm cfg env s).2 !! next_vm_id s = None
  /\ exists k,
       vm_pool (create_vm cfg env s).2 !! k = None
       /\ assign_vm_to_user cfg order env' (create_vm cfg env s).2
          = RaisesKeyError k (create_vm cfg env s).2.
Proof.
  intros Hroom Hip Hne Hfail%provision_fails Hin.
  rewrite (create_vm_failed cfg env s ip rest) by done. simpl.
  intros Hiter. split; [done|]. split; [done|].
  split; [apply lookup_delete_eq|].
  destruct (scan_key_error cfg (delete (next_vm_id s) (vm_pool s)) order None Inf)
    as (k & _ & Hnone & Hscan).
  { exists (next_vm_id s). split; [|apply lookup_delete_eq].
    unfold iterates in Hiter. rewrite Hiter. by apply elem_of_elements. }
  exists k. split; [done|].
  unfold assign_vm_to_user. simpl. by rewrite Hscan.
Qed.

Lemma failed_create_vm_leaves_dangling_id_witness :
  vm_pool scenario_registered !! 100
  = Some {| id := 100; name := "existing-vm-100"; ip := "192.168.1.100";
            status := RUNNING; guacamole_connection_id := None;
            created_at := Some 0; user_count := 0; last_health_check := None |}
  /\ vm_pool (create_vm scenario_cfg (clone_fails 1) scenario_registered).2 !! 100 = None
  /\ exists k,
       vm_pool (create_vm scenario_cfg (clone_fails 1) scenario_registered).2 !! k = None
       /\ assign_vm_to_user scenario_cfg [100] (all_ok 2 "conn-2")
            (create_vm scenario_cfg (clone_fails 1) scenario_registered).2
          = RaisesKeyError k (create_vm scenario_cfg (clone_fails 1) scenario_registered).2.
Proof.
  split; [by vm_compute|].
  destruct (failed_create_vm_leaves_dangling_id scenario_cfg (clone_fails 1)
              (all_ok 2 "conn-2") [100] scenario_registered
              "10.0.0.10" ["10.0.0.11"; "10.0.0.12"]%string)
    as (_ & _ & Hnone & Hraise).
  - by vm_compute.
  - by vm_compute.
  - done.
  - left. simpl. discriminate.
  - apply (bool_decide_unpack _). vm_compute. exact I.
  - unfold iterates. apply (bool_decide_unpack _). vm_compute. exact I.
  - split; [exact Hnone|exact Hraise].
Defined.
